(** * WeCom channel plugin: delivery pipeline

    A shallow embedding of the message adapter (adapter.ts), the API client
    (api.ts) and the message sender (send.ts) of the WeCom channel plugin,
    with the properties of the delivery pipeline stated over it.

    Conventions.
    - A JavaScript string is a [string]; literals outside ASCII are kept as
      their UTF-8 bytes.  The tests the code performs on strings ([startsWith],
      the class [\w], the character [@], emptiness) only look at ASCII
      characters or compare whole strings, so they read the same on bytes.
    - A JavaScript number that the code uses as an integer (codes, counters,
      seconds, milliseconds) is a [Z]; the retry counter, which starts at 0 and
      is only ever incremented or reset, is a [nat].
    - An optional property [p?: T] is an [option T]; [undefined] is [None].
    - Record fields carry a short prefix where two interfaces of the source
      share a property name. *)

From Stdlib Require Import String Ascii List ZArith Lia Bool DecimalString.
From Equations Require Import Equations.
Import ListNotations.

Local Open Scope string_scope.
Local Open Scope Z_scope.

(** ** JavaScript string helpers *)

Module Js.

(** [s.startsWith(p)] *)
Definition startsWith (s p : string) : bool := String.prefix p s.

(** Truthiness of a string: every string but the empty one. *)
Definition truthy (s : string) : bool := negb (s =? "")%string.

(** Truthiness of an optional string: defined and not empty. *)
Definition truthyOpt (o : option string) : bool :=
  match o with
  | Some s => truthy s
  | None => false
  end.

(** [o || d] on an optional string *)
Definition orElse (o : option string) (d : string) : string :=
  match o with
  | Some s => if truthy s then s else d
  | None => d
  end.

(** [n.toString()] and [`${n}`] for an integer [n] *)
Definition numToString (n : Z) : string := NilZero.string_of_int (Z.to_int n).

(** The line feed of ['\n']. *)
Definition nl : string := String (ascii_of_nat 10) EmptyString.

(** [a.join(sep)] *)
Fixpoint join (sep : string) (l : list string) : string :=
  match l with
  | [] => ""
  | [x] => x
  | x :: rest => x ++ sep ++ join sep rest
  end.

(** The class [\w] of a regular expression without the unicode flag:
    [A-Za-z0-9_]. *)
Definition isWordChar (c : ascii) : bool :=
  let n := nat_of_ascii c in
  ((48 <=? n) && (n <=? 57) || (65 <=? n) && (n <=? 90)
   || (97 <=? n) && (n <=? 122) || (n =? 95))%nat.

End Js.

(** ** Data model (types.ts and the plugin SDK types the code uses) *)

(** Modelled from the spec: the SDK's [ChannelPeer] type is not part of the
    sources; the data model gives [peer: {kind: dm|group, id, name}], and the
    code only ever writes or tests the kinds ['dm'] and ['group']. *)
Inductive PeerKind := dm | group.

Record ChannelPeer := mkPeer {
  peer_kind : PeerKind;
  peer_id : string;
  peer_name : string
}.

(** [ChannelMedia]: [type] is the SDK's media kind; the source switches on it
    with a [default] branch, so it stays a string. *)
Record ChannelMedia := mkMedia {
  media_type : string;
  media_url : string;
  media_caption : option string
}.

Record Mention := mkMention {
  mention_userId : string;
  mention_name : string
}.

Record Location := mkLocation {
  latitude : Z;
  longitude : Z
}.

Record ChannelEvent := mkEvent {
  event_type : string;
  event_key : option string      (* data: { key } or {} *)
}.

(** [ChannelMessage], with the properties the sources read or write (the
    SDK's declaration is not among the sources). *)
Local Unset Elimination Schemes.
Inductive ChannelMessage := mkMessage {
  msg_peer : ChannelPeer;
  msg_text : option string;
  msg_media : option (list ChannelMedia);
  msg_replyTo : option ChannelMessage;
  msg_senderName : option string;
  msg_timestamp : Z;
  msg_id : string;
  msg_channel : string;
  msg_accountId : string;
  msg_mentions : option (list Mention);
  msg_location : option Location;
  msg_event : option ChannelEvent
}.
Local Set Elimination Schemes.

Inductive WeComMessageType :=
  | mt_text | mt_image | mt_voice | mt_video | mt_file
  | mt_textcard | mt_news | mt_markdown.

Record WeComMessageContent := mkContent {
  c_content : option string;
  c_media_id : option string;
  c_title : option string;
  c_description : option string;
  c_url : option string;
  c_picurl : option string;
  c_btntxt : option string;
  c_markdown_content : option string
}.

Definition emptyContent : WeComMessageContent :=
  mkContent None None None None None None None None.

Record WeComSendMessageParams := mkParams {
  touser : option string;
  toparty : option string;
  totag : option string;
  msgtype : WeComMessageType;
  agentid : Z;
  content : WeComMessageContent
}.

(** [WeComReceivedMessage]; [MsgType] arrives as a string (the source also
    switches on ['location'], which the declared union does not list). *)
Record WeComReceivedMessage := mkReceived {
  ToUserName : string;
  FromUserName : string;
  CreateTime : Z;
  MsgType : string;
  MsgId : string;
  AgentID : Z;
  Content : option string;
  MediaId : option string;
  PicUrl : option string;
  Location_X : option Z;
  Location_Y : option Z;
  Label : option string;
  Event : option string;
  EventKey : option string
}.

Record WeComConfig := mkConfig {
  corpId : option string;
  corpSecret : option string;
  agentId : option Z;
  webhookUrl : option string;
  messagePrefix : option string;
  maxRetries : option Z;
  timeoutMs : option Z
}.

Record WeComAccessToken := mkToken {
  tok_access_token : string;
  tok_expires_in : Z;
  tok_expires_at : Z
}.

(** ** Message adapter (WeComMessageAdapterImpl) *)

Module Adapter.

Section WithAdapter.

(** The two private fields set by the constructor. *)
Variable agentId : Z.
Variable messagePrefix : option string.

(** The prefix step of [toWeComMessage]:
    [if (this.messagePrefix && !contentText.startsWith(this.messagePrefix))
       contentText = this.messagePrefix + contentText]. *)
Definition applyPrefix (contentText : string) : string :=
  match messagePrefix with
  | Some prefix =>
      if Js.truthy prefix && negb (Js.startsWith contentText prefix)
      then prefix ++ contentText
      else contentText
  | None => contentText
  end.

(** The reply step of [toWeComMessage]. *)
Definition applyReply (replyTo : option ChannelMessage) (contentText : string)
  : string :=
  match replyTo with
  | Some r =>
      "回复 " ++ Js.orElse (msg_senderName r) "用户" ++ ":" ++ Js.nl ++ contentText
  | None => contentText
  end.

Definition setContent (c : WeComMessageContent) (s : string)
  : WeComMessageContent :=
  mkContent (Some s) (c_media_id c) (c_title c) (c_description c) (c_url c)
            (c_picurl c) (c_btntxt c) (c_markdown_content c).

Definition mediaIdContent (url : string) : WeComMessageContent :=
  mkContent None (Some url) None None None None None None.

Definition createMediaMessage (media : ChannelMedia)
           (touser toparty : option string) : WeComSendMessageParams :=
  let type := media_type media in
  let url := media_url media in
  let caption := media_caption media in
  let '(msgtype, content) :=
    if (type =? "image")%string then (mt_image, mediaIdContent url)
    else if (type =? "video")%string then (mt_video, mediaIdContent url)
    else if (type =? "audio")%string then (mt_voice, mediaIdContent url)
    else if (type =? "file")%string then (mt_file, mediaIdContent url)
    else (mt_text,
          setContent emptyContent
            ("[" ++ type ++ "] " ++ url
             ++ (if Js.truthyOpt caption
                 then Js.nl ++ Js.orElse caption ""
                 else ""))) in
  let content :=
    if Js.truthyOpt caption && negb (type =? "file")%string
    then setContent content (Js.orElse caption "")
    else content in
  mkParams touser toparty None msgtype agentId content.

Definition toWeComMessage (msg : ChannelMessage) : WeComSendMessageParams :=
  let peer := msg_peer msg in
  let touser :=
    match peer_kind peer with dm => Some (peer_id peer) | group => None end in
  let toparty :=
    match peer_kind peer with dm => None | group => Some (peer_id peer) end in
  let contentText := applyPrefix (Js.orElse (msg_text msg) "") in
  let contentText := applyReply (msg_replyTo msg) contentText in
  match msg_media msg with
  | Some (mediaItem :: _) => createMediaMessage mediaItem touser toparty
  | _ =>
      mkParams touser toparty None mt_text agentId
               (setContent emptyContent contentText)
  end.

(** The regular expression [/@(\w+)/] run on [s]: the leftmost [@]
    followed by at least one word character matches, and the group takes
    the longest run of word characters.  The result is the captured group
    and the text after the match (where [lastIndex] points for the global
    variant of the expression). *)
Fixpoint takeWord (s : string) : string * string :=
  match s with
  | String c s' =>
      if Js.isWordChar c
      then let (w, rest) := takeWord s' in (String c w, rest)
      else (EmptyString, s)
  | EmptyString => (EmptyString, EmptyString)
  end.

Fixpoint mentionExec (s : string) : option (string * string) :=
  match s with
  | EmptyString => None
  | String c s' =>
      if (c =? "@")%char
      then match takeWord s' with
           | (EmptyString, _) => mentionExec s'
           | (w, rest) => Some (w, rest)
           end
      else mentionExec s'
  end.

Definition setText (m : ChannelMessage) (t : string) : ChannelMessage :=
  mkMessage (msg_peer m) (Some t) (msg_media m) (msg_replyTo m)
            (msg_senderName m) (msg_timestamp m) (msg_id m) (msg_channel m)
            (msg_accountId m) (msg_mentions m) (msg_location m) (msg_event m).

Definition setMedia (m : ChannelMessage) (l : list ChannelMedia)
  : ChannelMessage :=
  mkMessage (msg_peer m) (msg_text m) (Some l) (msg_replyTo m)
            (msg_senderName m) (msg_timestamp m) (msg_id m) (msg_channel m)
            (msg_accountId m) (msg_mentions m) (msg_location m) (msg_event m).

Definition setMentions (m : ChannelMessage) (l : list Mention)
  : ChannelMessage :=
  mkMessage (msg_peer m) (msg_text m) (msg_media m) (msg_replyTo m)
            (msg_senderName m) (msg_timestamp m) (msg_id m) (msg_channel m)
            (msg_accountId m) (Some l) (msg_location m) (msg_event m).

Definition setLocation (m : ChannelMessage) (l : Location) : ChannelMessage :=
  mkMessage (msg_peer m) (msg_text m) (msg_media m) (msg_replyTo m)
            (msg_senderName m) (msg_timestamp m) (msg_id m) (msg_channel m)
            (msg_accountId m) (msg_mentions m) (Some l) (msg_event m).

Definition setEvent (m : ChannelMessage) (e : ChannelEvent) : ChannelMessage :=
  mkMessage (msg_peer m) (msg_text m) (msg_media m) (msg_replyTo m)
            (msg_senderName m) (msg_timestamp m) (msg_id m) (msg_channel m)
            (msg_accountId m) (msg_mentions m) (msg_location m) (Some e).

(** The [switch (msgType)] of [fromWeComMessage]. *)
Definition addContent (msg : WeComReceivedMessage)
           (channelMessage : ChannelMessage) : ChannelMessage :=
  let msgType := MsgType msg in
  let content := Content msg in
  let mediaId := MediaId msg in
  let picUrl := PicUrl msg in
  if (msgType =? "text")%string then
    match content with
    | Some c =>
        if Js.truthy c then
          let channelMessage := setText channelMessage c in
          match mentionExec c with
          | Some (m, _) => setMentions channelMessage [mkMention m m]
          | None => channelMessage
          end
        else channelMessage
    | None => channelMessage
    end
  else if (msgType =? "image")%string then
    if Js.truthyOpt mediaId || Js.truthyOpt picUrl
    then setMedia channelMessage
           [mkMedia "image"
                    (if Js.truthyOpt mediaId then Js.orElse mediaId ""
                     else Js.orElse picUrl "")
                    content]
    else channelMessage
  else if (msgType =? "voice")%string then
    if Js.truthyOpt mediaId
    then setMedia channelMessage [mkMedia "audio" (Js.orElse mediaId "") content]
    else channelMessage
  else if (msgType =? "video")%string then
    if Js.truthyOpt mediaId
    then setMedia channelMessage [mkMedia "video" (Js.orElse mediaId "") content]
    else channelMessage
  else if (msgType =? "file")%string then
    if Js.truthyOpt mediaId
    then setMedia channelMessage [mkMedia "file" (Js.orElse mediaId "") content]
    else channelMessage
  else if (msgType =? "location")%string then
    setLocation
      (setText channelMessage ("位置: " ++ Js.orElse (Label msg) "未知位置"))
      (mkLocation (match Location_X msg with Some x => x | None => 0 end)
                  (match Location_Y msg with Some y => y | None => 0 end))
  else
    setText channelMessage
            ("[" ++ msgType ++ "] " ++ Js.orElse content "未知消息类型").

(** The [if (msg.Event)] block of [fromWeComMessage]. *)
Definition addEvent (msg : WeComReceivedMessage)
           (channelMessage : ChannelMessage) : ChannelMessage :=
  match Event msg with
  | Some ev =>
      if Js.truthy ev then
        let channelMessage :=
          setEvent channelMessage
            (mkEvent ev (if Js.truthyOpt (EventKey msg) then EventKey msg
                         else None)) in
        if (ev =? "subscribe")%string
        then setText channelMessage "用户关注了应用"
        else if (ev =? "unsubscribe")%string
        then setText channelMessage "用户取消关注应用"
        else if (ev =? "enter_agent")%string
        then setText channelMessage "用户进入了应用"
        else channelMessage
      else channelMessage
  | None => channelMessage
  end.

Definition fromWeComMessage (msg : WeComReceivedMessage) : ChannelMessage :=
  let userId := FromUserName msg in
  let peer := mkPeer dm userId userId in
  let channelMessage :=
    mkMessage peer None None None None (CreateTime msg * 1000) (MsgId msg)
              "wecom" (Js.numToString (AgentID msg)) None None None in
  addEvent msg (addContent msg channelMessage).

Definition inspect {A : Type} (a : A) : {b : A | a = b} :=
  exist _ a eq_refl.

(** The loop [while ((match = mentionRegex.exec(text)) !== null)
    mentions.push(match[1])] of [extractMentionedUsers]; the argument is
    the text from [lastIndex] on.  A match leaves a strictly shorter rest,
    which is what ends the loop. *)
Equations? execLoop (text : string) : list string
  by wf (String.length text) lt :=
  execLoop text with inspect (mentionExec text) := {
    | exist _ (Some (m, rest)) Heq => m :: execLoop rest
    | exist _ None _ => []
  }.
Proof.
  clear execLoop.
  assert (Hword : forall s,
             (String.length (snd (takeWord s)) <= String.length s)%nat).
  { induction s as [|c s IH]; simpl; [lia|].
    destruct (Js.isWordChar c); simpl; [|lia].
    destruct (takeWord s) as [w r]; simpl in *; lia. }
  revert m rest Heq.
  induction text as [|c s IH]; simpl; intros m rest Heq; [discriminate|].
  destruct (c =? "@")%char.
  - specialize (Hword s).
    destruct (takeWord s) as [w r]; simpl in Hword.
    destruct w.
    + apply IH in Heq. lia.
    + inversion Heq; subst. lia.
  - apply IH in Heq. lia.
Qed.

Definition extractMentionedUsers (text : string) : list string :=
  execLoop text.

Definition buildMentionText (userIds : list string) (text : string) : string :=
  match userIds with
  | [] => text
  | _ =>
      let mentions := Js.join " " (map (fun id => "@" ++ id) userIds) in
      mentions ++ Js.nl ++ text
  end.

End WithAdapter.

End Adapter.

(** ** Asynchronous programs

    An [async] method is a program over the operations it awaits or performs
    on the instance: the network call [fetch], the clock [Date.now()], the
    backoff timer, and reads and writes of the two private fields
    [accessToken] (API client) and [retryCount] (sender).  A sender owns its
    API client, so one program type serves both classes.  Logging has no
    effect on control flow or state and is left out. *)

(** The JSON body of a vendor response, with the properties the code reads:
    [errcode], [errmsg], [access_token], [expires_in] and [data?.msgid]. *)
Record ApiJson := mkJson {
  errcode : Z;
  errmsg : string;
  access_token : option string;
  expires_in : Z;
  data_msgid : option string
}.

(** The two requests of the delivery pipeline. *)
Inductive Request :=
  | ReqGetToken (corpid corpsecret : string)
      (* GET  {baseUrl}/gettoken?corpid=..&corpsecret=.. *)
  | ReqSendMessage (token : string) (params : WeComSendMessageParams).
      (* POST {baseUrl}/message/send?access_token=.. *)

(** What awaiting [fetch(url, options)] and then [response.json()] gives. *)
Inductive FetchOutcome :=
  | FetchRejected (name message : string)   (* fetch rejects; AbortError on timeout *)
  | FetchNotOk (status : Z) (statusText : string)       (* !response.ok *)
  | FetchBadJson (name message : string)    (* response.json() rejects *)
  | FetchJson (data : ApiJson).

(** Thrown values: a plain [Error] (with its [name]) or a [WeComSendError]. *)
Inductive Exn :=
  | JsError (name message : string)
  | WeComSendError (message : string) (errorCode : Z)
                   (originalMessage : ChannelMessage).

Definition exn_name (e : Exn) : string :=
  match e with
  | JsError n _ => n
  | WeComSendError _ _ _ => "WeComSendError"
  end.

Definition exn_message (e : Exn) : string :=
  match e with
  | JsError _ m => m
  | WeComSendError m _ _ => m
  end.

Inductive Prog (A : Type) : Type :=
  | Return (a : A)
  | Throw (e : Exn)
  | OutOfFuel
  | Fetch (r : Request) (k : FetchOutcome -> Prog A)
  | DateNow (k : Z -> Prog A)
  | Sleep (ms : Z) (k : Prog A)
  | ReadToken (k : option WeComAccessToken -> Prog A)
  | WriteToken (t : WeComAccessToken) (k : Prog A)
  | ReadRetryCount (k : nat -> Prog A)
  | WriteRetryCount (n : nat) (k : Prog A).

Arguments Return {A} a.
Arguments Throw {A} e.
Arguments OutOfFuel {A}.
Arguments Fetch {A} r k.
Arguments DateNow {A} k.
Arguments Sleep {A} ms k.
Arguments ReadToken {A} k.
Arguments WriteToken {A} t k.
Arguments ReadRetryCount {A} k.
Arguments WriteRetryCount {A} n k.

(** Sequencing ([await p] and then [f]). *)
Fixpoint bind {A B : Type} (p : Prog A) (f : A -> Prog B) : Prog B :=
  match p with
  | Return a => f a
  | Throw e => Throw e
  | OutOfFuel => OutOfFuel
  | Fetch r k => Fetch r (fun o => bind (k o) f)
  | DateNow k => DateNow (fun t => bind (k t) f)
  | Sleep ms k => Sleep ms (bind k f)
  | ReadToken k => ReadToken (fun t => bind (k t) f)
  | WriteToken t k => WriteToken t (bind k f)
  | ReadRetryCount k => ReadRetryCount (fun n => bind (k n) f)
  | WriteRetryCount n k => WriteRetryCount n (bind k f)
  end.

(** [try { p } catch (error) { h error }] *)
Fixpoint tryCatch {A : Type} (p : Prog A) (h : Exn -> Prog A) : Prog A :=
  match p with
  | Return a => Return a
  | Throw e => h e
  | OutOfFuel => OutOfFuel
  | Fetch r k => Fetch r (fun o => tryCatch (k o) h)
  | DateNow k => DateNow (fun t => tryCatch (k t) h)
  | Sleep ms k => Sleep ms (tryCatch k h)
  | ReadToken k => ReadToken (fun t => tryCatch (k t) h)
  | WriteToken t k => WriteToken t (tryCatch k h)
  | ReadRetryCount k => ReadRetryCount (fun n => tryCatch (k n) h)
  | WriteRetryCount n k => WriteRetryCount n (tryCatch k h)
  end.

Declare Scope prog_scope.
Delimit Scope prog_scope with prog.
Notation "x <- p ;; q" := (bind p (fun x => q))
  (at level 61, p at next level, right associativity) : prog_scope.
Notation "p ;; q" := (bind p (fun _ => q))
  (at level 61, right associativity) : prog_scope.
Local Open Scope prog_scope.

Definition fetch (r : Request) : Prog FetchOutcome := Fetch r Return.
Definition dateNow : Prog Z := DateNow Return.
Definition sleep (ms : Z) : Prog unit := Sleep ms (Return tt).
Definition readToken : Prog (option WeComAccessToken) := ReadToken Return.
Definition writeToken (t : WeComAccessToken) : Prog unit :=
  WriteToken t (Return tt).
Definition readRetryCount : Prog nat := ReadRetryCount Return.
Definition writeRetryCount (n : nat) : Prog unit := WriteRetryCount n (Return tt).

(** ** API client (WeComApiClient) *)

Module ApiClient.

Section WithConfig.

Variable config : WeComConfig.

(** [request], given what [this.refreshAccessToken()] stands for at the
    call inside it. *)
Definition request (refresh : Prog unit) (r : Request) : Prog ApiJson :=
  tryCatch
    (response <- fetch r ;;
     match response with
     | FetchRejected n m => Throw (JsError n m)
     | FetchNotOk status statusText =>
         Throw (JsError "Error"
                  ("HTTP " ++ Js.numToString status ++ ": " ++ statusText))
     | FetchBadJson n m => Throw (JsError n m)
     | FetchJson data =>
         if (errcode data =? 40014) || (errcode data =? 42001)
         then refresh ;; Return data
         else Return data
     end)
    (fun error =>
       if (exn_name error =? "AbortError")%string
       then Throw (JsError "Error" "请求超时")
       else Throw error).

(** [Date.now() >= this.accessToken.expires_at] *)
Definition tokenExpired (t : WeComAccessToken) (now : Z) : bool :=
  now >=? tok_expires_at t.

(** The body of [refreshAccessToken], given what the call
    [this.refreshAccessToken()] inside [request] stands for. *)
Definition refreshBody (again : Prog unit) : Prog unit :=
  if Js.truthyOpt (corpId config) && Js.truthyOpt (corpSecret config) then
    response <-
      request again
              (ReqGetToken (Js.orElse (corpId config) "")
                           (Js.orElse (corpSecret config) "")) ;;
    if (errcode response =? 0) && Js.truthyOpt (access_token response) then
      now <- dateNow ;;
      writeToken
        (mkToken (Js.orElse (access_token response) "")
                 (expires_in response)
                 (now + (expires_in response - 300) * 1000))
    else
      Throw (JsError "Error"
               ("获取访问令牌失败: " ++ errmsg response ++ " ("
                ++ Js.numToString (errcode response) ++ ")"))
  else Throw (JsError "Error" "缺少corpId或corpSecret配置").

(** [refreshAccessToken] and [request] call each other: a token endpoint
    that itself answers 40014 or 42001 makes [request] refresh again.
    [depth] bounds how many times the refresh may re-enter itself; a run
    that needs more ends in [OutOfFuel]. *)
Fixpoint refreshAccessToken (depth : nat) : Prog unit :=
  refreshBody (match depth with
               | O => OutOfFuel
               | S depth' => refreshAccessToken depth'
               end).

Definition getAccessToken (depth : nat) : Prog string :=
  current <- readToken ;;
  match current with
  | None => refreshAccessToken depth
  | Some t =>
      now <- dateNow ;;
      if tokenExpired t now then refreshAccessToken depth else Return tt
  end ;;
  current <- readToken ;;
  match current with
  | None => Throw (JsError "Error" "无法获取访问令牌")
  | Some t => Return (tok_access_token t)
  end.

Definition sendMessage (depth : nat) (params : WeComSendMessageParams)
  : Prog ApiJson :=
  token <- getAccessToken depth ;;
  request (refreshAccessToken depth) (ReqSendMessage token params).

End WithConfig.

End ApiClient.

(** ** Message sender (WeComMessageSender, WeComSendError) *)

Record SendResult := mkResult {
  success : bool;
  messageId : string;
  timestamp : Z;
  error : option string
}.

Module Sender.

(** [new WeComSendError(message, errorCode, originalMessage)]: the
    constructor formats the [message] property. *)
Definition newWeComSendError (message : string) (errorCode : Z)
           (originalMessage : ChannelMessage) : Exn :=
  WeComSendError
    ("企业微信发送错误 " ++ Js.numToString errorCode ++ ": " ++ message)
    errorCode originalMessage.

Definition recoverableErrors : list Z := [42001; 40014; 45033].

(** [WeComSendError.isRecoverable] *)
Definition isRecoverable (errorCode : Z) : bool :=
  existsb (Z.eqb errorCode) recoverableErrors.

Definition errorDescriptions : list (Z * string) :=
  [ (40001, "不合法的调用凭证"); (40014, "access_token无效");
    (42001, "access_token已过期"); (45009, "接口调用超过频率限制");
    (45033, "接口调用超过限制"); (50001, "用户未授权");
    (60011, "无权限操作该用户"); (60102, "UserID已存在");
    (60103, "手机号码不合法"); (60104, "手机号码已存在");
    (60105, "邮箱不合法"); (60106, "邮箱已存在");
    (60107, "微信号不合法"); (60110, "用户所属部门数量超过限制");
    (60111, "UserID不存在"); (60112, "用户已禁用");
    (60123, "无效的部门id"); (60124, "无效的父部门id");
    (60125, "部门名称不合法"); (60127, "缺少department参数");
    (60128, "部门id和父部门id不能相同"); (60129, "部门层级超过限制") ].

(** [WeComSendError.getDescription] *)
Definition getDescription (errorCode : Z) : string :=
  match find (fun entry => fst entry =? errorCode) errorDescriptions with
  | Some (_, description) => description
  | None => "未知错误"
  end.

Definition retryableErrors : list Z := [42001; 40014; 45033; 45009; 50001].

Section WithConfig.

Variable config : WeComConfig.

(** [this.config.maxRetries || 3] *)
Definition maxRetriesOrDefault : Z :=
  match maxRetries config with
  | Some n => if n =? 0 then 3 else n
  | None => 3
  end.

(** [shouldRetry], with the field [this.retryCount] it reads. *)
Definition shouldRetry (errorCode : Z) (retryCount : nat) : bool :=
  existsb (Z.eqb errorCode) retryableErrors
  && (Z.of_nat retryCount <? maxRetriesOrDefault).

(** The adapter built by the constructor:
    [new WeComMessageAdapterImpl(config.agentId || 0, config.messagePrefix)] *)
Definition toWeComMessage (message : ChannelMessage) : WeComSendMessageParams :=
  Adapter.toWeComMessage
    (match agentId config with Some a => a | None => 0 end)
    (messagePrefix config) message.

(** [Math.min(1000 * Math.pow(2, this.retryCount), 10000)] *)
Definition backoff (retryCount : nat) : Z :=
  Z.min (1000 * 2 ^ Z.of_nat retryCount) 10000.

(** [error.errorCode === 42001 || error.errorCode === 40014] *)
Definition isAuthCode (errorCode : Z) : bool :=
  (errorCode =? 42001) || (errorCode =? 40014).

(** [retrySend]; [resend] stands for the call [this.send(message)] that
    ends it. *)
Definition retrySend (depth : nat) (resend : Prog SendResult)
           (errorCode : Z) : Prog SendResult :=
  retryCount <- readRetryCount ;;
  writeRetryCount (S retryCount) ;;
  retryCount <- readRetryCount ;;
  sleep (backoff retryCount) ;;
  (if isAuthCode errorCode
   then ApiClient.refreshAccessToken config depth
   else Return tt) ;;
  resend.

(** The [catch] block of [send]: a [WeComSendError] is thrown again as
    it is, anything else is wrapped with code 500. *)
Definition rethrown (message : ChannelMessage) (error : Exn) : Exn :=
  match error with
  | WeComSendError _ _ _ => error
  | JsError _ m => newWeComSendError m 500 message
  end.

Definition sendCatch (message : ChannelMessage) (error : Exn)
  : Prog SendResult :=
  Throw (rethrown message error).

(** The branch [response.errcode === 0] of [send]. *)
Definition sendSucceeded (response : ApiJson) : Prog SendResult :=
  writeRetryCount 0 ;;
  messageId <-
    (if Js.truthyOpt (data_msgid response)
     then Return (Js.orElse (data_msgid response) "")
     else now <- dateNow ;; Return ("wecom-" ++ Js.numToString now)) ;;
  now <- dateNow ;;
  Return (mkResult true messageId now None).

(** The [try] block of [send], given the call [this.send(message)] that
    [retrySend] makes. *)
Definition sendTry (depth : nat) (resend : Prog SendResult)
           (message : ChannelMessage) : Prog SendResult :=
  let wecomMessage := toWeComMessage message in
  response <- ApiClient.sendMessage config depth wecomMessage ;;
  if errcode response =? 0 then sendSucceeded response
  else
    retryCount <- readRetryCount ;;
    if shouldRetry (errcode response) retryCount
    then retrySend depth resend (errcode response)
    else Throw (newWeComSendError (errmsg response) (errcode response)
                                  message).

(** [send] calls itself through [retrySend]; [fuel] bounds the number of
    nested calls. *)
Fixpoint sendFuel (fuel depth : nat) (message : ChannelMessage)
  : Prog SendResult :=
  tryCatch
    (sendTry depth
             (match fuel with
              | O => OutOfFuel
              | S fuel' => sendFuel fuel' depth message
              end)
             message)
    (sendCatch message).

(** [send]: every nested call follows an increment of the retry counter
    below [maxRetriesOrDefault], so that many nested calls are enough. *)
Definition send (depth : nat) (message : ChannelMessage) : Prog SendResult :=
  sendFuel (Z.to_nat maxRetriesOrDefault) depth message.

End WithConfig.

End Sender.

(** ** Running a program against the outside world

    The state of one sender instance with its API client, and what was asked
    of the outside world so far. *)
Record World := mkWorld {
  accessToken : option WeComAccessToken;   (* WeComApiClient.accessToken *)
  retryCount : nat;                        (* WeComMessageSender.retryCount *)
  fetchLog : list Request;                 (* network calls made, oldest first *)
  sleepLog : list Z;                       (* backoff delays waited, oldest first *)
  nowReads : nat                           (* number of Date.now() calls *)
}.

(** The outside world: the answer to the [i]-th network call and the value of
    the [i]-th reading of the clock. *)
Record Env := mkEnv {
  fetch_reply : nat -> Request -> FetchOutcome;
  date_now : nat -> Z
}.

Inductive Outcome (A : Type) : Type :=
  | Returned (a : A)
  | Thrown (e : Exn)
  | Exhausted.

Arguments Returned {A} a.
Arguments Thrown {A} e.
Arguments Exhausted {A}.

Definition logFetch (w : World) (r : Request) : World :=
  mkWorld (accessToken w) (retryCount w) (fetchLog w ++ [r]) (sleepLog w)
          (nowReads w).

Definition logSleep (w : World) (ms : Z) : World :=
  mkWorld (accessToken w) (retryCount w) (fetchLog w) (sleepLog w ++ [ms])
          (nowReads w).

Definition tickNow (w : World) : World :=
  mkWorld (accessToken w) (retryCount w) (fetchLog w) (sleepLog w)
          (S (nowReads w)).

Definition setToken (w : World) (t : WeComAccessToken) : World :=
  mkWorld (Some t) (retryCount w) (fetchLog w) (sleepLog w) (nowReads w).

Definition setRetryCount (w : World) (n : nat) : World :=
  mkWorld (accessToken w) n (fetchLog w) (sleepLog w) (nowReads w).

(** One caller at a time: every awaited operation completes before the next
    statement runs. *)
Fixpoint run {A : Type} (env : Env) (p : Prog A) (w : World)
  : Outcome A * World :=
  match p with
  | Return a => (Returned a, w)
  | Throw e => (Thrown e, w)
  | OutOfFuel => (Exhausted, w)
  | Fetch r k =>
      run env (k (fetch_reply env (length (fetchLog w)) r)) (logFetch w r)
  | DateNow k => run env (k (date_now env (nowReads w))) (tickNow w)
  | Sleep ms k => run env k (logSleep w ms)
  | ReadToken k => run env (k (accessToken w)) w
  | WriteToken t k => run env k (setToken w t)
  | ReadRetryCount k => run env (k (retryCount w)) w
  | WriteRetryCount n k => run env k (setRetryCount w n)
  end.

(** Outcomes of composed programs, as [run] computes them. *)
Definition andThen {A B : Type} (r : Outcome A * World)
           (f : A -> World -> Outcome B * World) : Outcome B * World :=
  match r with
  | (Returned a, w) => f a w
  | (Thrown e, w) => (Thrown e, w)
  | (Exhausted, w) => (Exhausted, w)
  end.

Definition orCatch {A : Type} (r : Outcome A * World)
           (h : Exn -> World -> Outcome A * World) : Outcome A * World :=
  match r with
  | (Thrown e, w) => h e w
  | other => other
  end.

Definition isTokenRequest (r : Request) : bool :=
  match r with ReqGetToken _ _ => true | ReqSendMessage _ _ => false end.

Definition isSendRequest (r : Request) : bool :=
  match r with ReqGetToken _ _ => false | ReqSendMessage _ _ => true end.

(** Network calls made to the token endpoint. *)
Definition tokenCalls (w : World) : nat :=
  length (filter isTokenRequest (fetchLog w)).

(** Send attempts: network calls made to the send endpoint. *)
Definition sendAttempts (w : World) : nat :=
  length (filter isSendRequest (fetchLog w)).

(** Retries: every [retrySend] waits for exactly one backoff delay. *)
Definition retries (w : World) : nat := length (sleepLog w).

(** ** Several callers at once: the event loop

    A call of an [async] method runs until the first operation that really
    suspends it (a network call or a timer), then the caller goes on.  The
    task resumes, again up to its next suspension, when the answer arrives. *)
Module Loop.

Inductive Task (A : Type) : Type :=
  | Settled (o : Outcome A)
  | AwaitFetch (r : Request) (k : FetchOutcome -> Prog A)
  | AwaitTimer (ms : Z) (k : Prog A).

Arguments Settled {A} o.
Arguments AwaitFetch {A} r k.
Arguments AwaitTimer {A} ms k.

(** Runs [p] to its next suspension.  The network call is issued when the
    task reaches it, before any answer. *)
Fixpoint runSync {A : Type} (env : Env) (p : Prog A) (w : World)
  : Task A * World :=
  match p with
  | Return a => (Settled (Returned a), w)
  | Throw e => (Settled (Thrown e), w)
  | OutOfFuel => (Settled Exhausted, w)
  | Fetch r k => (AwaitFetch r k, logFetch w r)
  | DateNow k => runSync env (k (date_now env (nowReads w))) (tickNow w)
  | Sleep ms k => (AwaitTimer ms k, logSleep w ms)
  | ReadToken k => runSync env (k (accessToken w)) w
  | WriteToken t k => runSync env k (setToken w t)
  | ReadRetryCount k => runSync env (k (retryCount w)) w
  | WriteRetryCount n k => runSync env k (setRetryCount w n)
  end.

Record State (A : Type) := mkState {
  world : World;
  tasks : list (Task A)
}.

Arguments mkState {A} world tasks.
Arguments world {A} s.
Arguments tasks {A} s.

Inductive Event (A : Type) : Type :=
  | Call (p : Prog A)                      (* a caller invokes the method *)
  | Reply (i : nat) (o : FetchOutcome)     (* the network answers task [i] *)
  | Timer (i : nat).                       (* the timer of task [i] fires *)

Arguments Call {A} p.
Arguments Reply {A} i o.
Arguments Timer {A} i.

Fixpoint replaceNth {X : Type} (i : nat) (x : X) (l : list X) : list X :=
  match l, i with
  | [], _ => []
  | _ :: rest, O => x :: rest
  | y :: rest, S i' => y :: replaceNth i' x rest
  end.

Definition resume {A : Type} (env : Env) (s : State A) (i : nat) (p : Prog A)
  : State A :=
  let (t, w) := runSync env p (world s) in
  mkState w (replaceNth i t (tasks s)).

Definition step {A : Type} (env : Env) (s : State A) (ev : Event A) : State A :=
  match ev with
  | Call p =>
      let (t, w) := runSync env p (world s) in
      mkState w (tasks s ++ [t])
  | Reply i o =>
      match nth_error (tasks s) i with
      | Some (AwaitFetch _ k) => resume env s i (k o)
      | _ => s
      end
  | Timer i =>
      match nth_error (tasks s) i with
      | Some (AwaitTimer _ k) => resume env s i k
      | _ => s
      end
  end.

Definition steps {A : Type} (env : Env) (s : State A) (evs : list (Event A))
  : State A :=
  fold_left (step env) evs s.

Definition inFlight {A : Type} (t : Task A) : bool :=
  match t with
  | AwaitFetch r _ => isTokenRequest r
  | _ => false
  end.

End Loop.

(** ** Envelope builder of the adapter (buildCardMessage) *)

Module Builders.

Section WithAgent.

Variable agentId : Z.

(** [buildCardMessage]; [btntxt] is [None] when the argument is left out. *)
Definition buildCardMessage (title description url : string)
           (btntxt : option string) (touser toparty : option string)
  : WeComSendMessageParams :=
  mkParams touser toparty None mt_textcard agentId
           (mkContent None None (Some title) (Some description) (Some url) None
                      (Some (match btntxt with
                             | Some b => b
                             | None => "查看详情"
                             end))
                      None).

End WithAgent.

End Builders.

(** ** The other entry points of the sender (sendText, sendToDepartment,
    sendCard) *)

Module SenderOps.

Section WithConfig.

Variable config : WeComConfig.

(** [this.config.agentId?.toString() || '0'] *)
Definition accountId : string :=
  Js.orElse (option_map Js.numToString (agentId config)) "0".

(** The message [sendText] builds, given the two readings of the clock. *)
Definition textMessage (to : ChannelPeer) (text : string)
           (replyTo : option ChannelMessage) (timestamp idNow : Z)
  : ChannelMessage :=
  mkMessage to (Some text) None replyTo None timestamp
            ("temp-" ++ Js.numToString idNow) "wecom" accountId None None None.

Definition sendText (depth : nat) (to : ChannelPeer) (text : string)
           (replyTo : option ChannelMessage) : Prog SendResult :=
  timestamp <- dateNow ;;
  idNow <- dateNow ;;
  Sender.send config depth (textMessage to text replyTo timestamp idNow).

(** The message [sendToDepartment] builds. *)
Definition departmentMessage (departmentId : Z) (text : string)
           (timestamp idNow : Z) : ChannelMessage :=
  mkMessage (mkPeer group (Js.numToString departmentId)
                    ("部门 " ++ Js.numToString departmentId))
            (Some text) None None None timestamp
            ("dept-" ++ Js.numToString idNow) "wecom" accountId None None None.

Definition sendToDepartment (depth : nat) (departmentId : Z) (text : string)
  : Prog SendResult :=
  timestamp <- dateNow ;;
  idNow <- dateNow ;;
  Sender.send config depth (departmentMessage departmentId text timestamp idNow).

(** The envelope [sendCard] posts. *)
Definition cardEnvelope (to : ChannelPeer) (title description url : string)
           (btntxt : option string) : WeComSendMessageParams :=
  Builders.buildCardMessage
    (match agentId config with Some a => a | None => 0 end)
    title description url
    (Some (match btntxt with Some b => b | None => "查看详情" end))
    (match peer_kind to with dm => Some (peer_id to) | group => None end)
    (match peer_kind to with dm => None | group => Some (peer_id to) end).

(** [sendCard]: one call of [sendMessage], with no [try] around it and no use
    of the retry counter. *)
Definition sendCard (depth : nat) (to : ChannelPeer)
           (title description url : string) (btntxt : option string)
  : Prog SendResult :=
  response <- ApiClient.sendMessage config depth
                (cardEnvelope to title description url btntxt) ;;
  if errcode response =? 0 then
    messageId <-
      (if Js.truthyOpt (data_msgid response)
       then Return (Js.orElse (data_msgid response) "")
       else now <- dateNow ;; Return ("card-" ++ Js.numToString now)) ;;
    now <- dateNow ;;
    Return (mkResult true messageId now None)
  else
    timestamp <- dateNow ;;
    idNow <- dateNow ;;
    Throw (Sender.newWeComSendError (errmsg response) (errcode response)
             (mkMessage to (Some title) None None None timestamp
                        ("temp-" ++ Js.numToString idNow) "wecom" accountId
                        None None None)).

End WithConfig.

End SenderOps.

(** ** Channel plugin (channel.ts: send, checkPermission) *)

Inductive DmPolicy := pairing | open.

(** The result object of the plugin's [send]: [{success, messageId}] or
    [{success, error}]. *)
Record ChannelSendResult := mkChannelResult {
  cs_success : bool;
  cs_messageId : option string;
  cs_error : option string
}.

Module Channel.

(** The plugin's [send], as a program over the API client it creates. *)
Definition sendProg (config : WeComConfig) (depth : nat)
           (message : ChannelMessage) : Prog ChannelSendResult :=
  tryCatch
    (let wecomMessage :=
       Adapter.toWeComMessage
         (match agentId config with Some a => a | None => 0 end)
         (messagePrefix config) message in
     response <- ApiClient.sendMessage config depth wecomMessage ;;
     if negb (errcode response =? 0) then
       Throw (JsError "Error"
                ("发送失败: " ++ errmsg response ++ " ("
                 ++ Js.numToString (errcode response) ++ ")"))
     else
       messageId <-
         (if Js.truthyOpt (data_msgid response)
          then Return (Js.orElse (data_msgid response) "")
          else now <- dateNow ;; Return ("wecom-" ++ Js.numToString now)) ;;
       Return (mkChannelResult true (Some messageId) None))
    (fun error => Return (mkChannelResult false None (Some (exn_message error)))).

(** [new WeComApiClient(config)]: the client of this call has no token yet. *)
Definition newClient (w : World) : World :=
  mkWorld None (retryCount w) (fetchLog w) (sleepLog w) (nowReads w).

(** One call of the plugin's [send]. *)
Definition send (env : Env) (config : WeComConfig) (depth : nat)
           (message : ChannelMessage) (w : World)
  : Outcome ChannelSendResult * World :=
  run env (sendProg config depth message) (newClient w).

(** [checkPermission], with the two properties it takes from the config. *)
Definition checkPermission (peer : ChannelPeer) (dmPolicy : DmPolicy)
           (allowFrom : list string) : bool :=
  if existsb (String.eqb "*") allowFrom then true
  else if existsb (String.eqb (peer_id peer)) allowFrom then true
  else if match dmPolicy, peer_kind peer with
          | pairing, dm => true
          | _, _ => false
          end
       then true
       else match dmPolicy with open => true | pairing => false end.

End Channel.

(** ** Configuration validation (config-schema.ts: validateWeComConfig) *)

Module ConfigSchema.

Section WithTrim.

(** [String.prototype.trim]: the properties below hold whatever it removes. *)
Variable trim : string -> string.

Definition errNoMode : string :=
  "必须配置企业API(corpId+corpSecret+agentId)或Webhook URL".
Definition errBothModes : string :=
  "不能同时配置企业API和Webhook URL，请选择一种模式".
Definition errCorpId : string := "corpId不能为空".
Definition errCorpSecret : string := "corpSecret不能为空".
Definition errAgentId : string := "agentId必须为正整数".
Definition errWebhookUrl : string := "webhookUrl必须是有效的URL".

(** Truthiness of an optional number: defined and not zero. *)
Definition truthyNum (n : option Z) : bool :=
  match n with
  | Some z => negb (z =? 0)
  | None => false
  end.

(** [config.corpId && config.corpSecret && config.agentId], as a condition *)
Definition hasApiConfig (config : WeComConfig) : bool :=
  Js.truthyOpt (corpId config) && Js.truthyOpt (corpSecret config)
  && truthyNum (agentId config).

Definition hasWebhookConfig (config : WeComConfig) : bool :=
  Js.truthyOpt (webhookUrl config).

(** [!s?.trim()] *)
Definition blank (s : option string) : bool :=
  match s with
  | Some v => negb (Js.truthy (trim v))
  | None => true
  end.

(** [validateWeComConfig]; [enabled] is the property of that name, which the
    config record of this development does not carry. *)
Definition validateWeComConfig (enabled : option bool) (config : WeComConfig)
  : list string :=
  match enabled with
  | Some true =>
      (if negb (hasApiConfig config) && negb (hasWebhookConfig config)
       then [errNoMode] else [])
      ++ (if hasApiConfig config && hasWebhookConfig config
          then [errBothModes] else [])
      ++ (if hasApiConfig config
          then (if blank (corpId config) then [errCorpId] else [])
               ++ (if blank (corpSecret config) then [errCorpSecret] else [])
               ++ (if negb (truthyNum (agentId config))
                      || match agentId config with
                         | Some a => a <=? 0
                         | None => false
                         end
                   then [errAgentId] else [])
          else [])
      ++ (if hasWebhookConfig config
             && negb (Js.startsWith (Js.orElse (webhookUrl config) "") "http")
          then [errWebhookUrl] else [])
  | _ => []
  end%list.

End WithTrim.

End ConfigSchema.

(** ** Account manager (accounts.ts: WeComAccountManager)

    The [Map] of accounts is the list of its entries in insertion order, with
    no key twice: [set] on a key that is present replaces the value in place,
    [set] on a new key appends, [delete] removes.  [Date.now()] is an
    argument of the methods that read it. *)

Module Accounts.

Section WithMetadata.

(** The type of [metadata] ([Record<string, any>] in the source). *)
Variable Metadata : Type.

Record AccountInfo := mkAccount {
  acc_id : string;
  acc_name : string;
  acc_department : string;
  acc_position : option string;
  acc_mobile : option string;
  acc_email : option string;
  acc_avatar : option string;
  acc_lastActive : Z;
  acc_metadata : option Metadata
}.

(** [Partial<AccountInfo>]: [None] is a property that is not there. *)
Record AccountUpdates := mkUpdates {
  upd_id : option string;
  upd_name : option string;
  upd_department : option string;
  upd_position : option string;
  upd_mobile : option string;
  upd_email : option string;
  upd_avatar : option string;
  upd_lastActive : option Z;
  upd_metadata : option Metadata
}.

Definition AccountMap : Type := list (string * AccountInfo).

(** [Map.get] *)
Fixpoint mapGet (accounts : AccountMap) (userId : string) : option AccountInfo :=
  match accounts with
  | [] => None
  | (k, v) :: rest => if (k =? userId)%string then Some v else mapGet rest userId
  end.

(** [Map.set] *)
Fixpoint mapSet (accounts : AccountMap) (userId : string) (a : AccountInfo)
  : AccountMap :=
  match accounts with
  | [] => [(userId, a)]
  | (k, v) :: rest =>
      if (k =? userId)%string then (k, a) :: rest
      else (k, v) :: mapSet rest userId a
  end.

(** [Map.delete] *)
Fixpoint mapDelete (accounts : AccountMap) (userId : string) : AccountMap :=
  match accounts with
  | [] => []
  | (k, v) :: rest =>
      if (k =? userId)%string then rest else (k, v) :: mapDelete rest userId
  end.

Definition getAccount (accounts : AccountMap) (userId : string)
  : option AccountInfo :=
  mapGet accounts userId.

(** [x ?? y] for a property of the spread [...updates] laid over a value. *)
Definition over {X : Type} (update : option X) (base : X) : X :=
  match update with
  | Some x => x
  | None => base
  end.

Definition overOpt {X : Type} (update : option X) (base : option X) : option X :=
  match update with
  | Some x => Some x
  | None => base
  end.

(** [{ ...existing, ...updates }] *)
Definition spread (existing : AccountInfo) (updates : AccountUpdates)
  : AccountInfo :=
  mkAccount (over (upd_id updates) (acc_id existing))
            (over (upd_name updates) (acc_name existing))
            (over (upd_department updates) (acc_department existing))
            (overOpt (upd_position updates) (acc_position existing))
            (overOpt (upd_mobile updates) (acc_mobile existing))
            (overOpt (upd_email updates) (acc_email existing))
            (overOpt (upd_avatar updates) (acc_avatar existing))
            (over (upd_lastActive updates) (acc_lastActive existing))
            (overOpt (upd_metadata updates) (acc_metadata existing)).

(** [{ id: userId, name: updates.name || userId,
       department: updates.department || '', ...updates,
       lastActive: Date.now() }] *)
Definition created (userId : string) (updates : AccountUpdates) (now : Z)
  : AccountInfo :=
  mkAccount (over (upd_id updates) userId)
            (over (upd_name updates) (Js.orElse (upd_name updates) userId))
            (over (upd_department updates)
                  (Js.orElse (upd_department updates) ""))
            (upd_position updates) (upd_mobile updates) (upd_email updates)
            (upd_avatar updates) now (upd_metadata updates).

Definition updateAccount (accounts : AccountMap) (userId : string)
           (updates : AccountUpdates) (now : Z) : AccountMap :=
  match mapGet accounts userId with
  | Some existing => mapSet accounts userId (spread existing updates)
  | None => mapSet accounts userId (created userId updates now)
  end.

Definition getAccountsByDepartment (accounts : AccountMap)
           (departmentName : string) : list AccountInfo :=
  map snd
      (filter (fun entry => (acc_department (snd entry) =? departmentName)%string)
              accounts).

(** [cleanupInactiveAccounts]: the keys to delete are collected first, then
    deleted one by one.  [maxAgeMs] is [None] when the argument is left
    out. *)
Definition cleanupInactiveAccounts (accounts : AccountMap)
           (maxAgeMs : option Z) (now : Z) : AccountMap :=
  let maxAge := match maxAgeMs with
                | Some m => m
                | None => 30 * 24 * 60 * 60 * 1000
                end in
  let toDelete :=
    map fst (filter (fun entry => now - acc_lastActive (snd entry) >? maxAge)
                    accounts) in
  fold_left mapDelete toDelete accounts.

Definition exportAccounts (accounts : AccountMap) : list AccountInfo :=
  map snd accounts.

Definition importAccounts (accounts : AccountMap) (imported : list AccountInfo)
  : AccountMap :=
  fold_left (fun m account => mapSet m (acc_id account) account) imported
            accounts.

End WithMetadata.

End Accounts.

(** ** Vocabulary of the properties *)

(** What a call into the API client leaves alone: the retry counter, the
    backoff delays waited for so far, and the number of send attempts (the
    last one only for the token operations). *)
Definition apiFrame (w w' : World) : Prop :=
  retryCount w' = retryCount w /\ sleepLog w' = sleepLog w
  /\ sendAttempts w' = sendAttempts w.

(** The outcome of a nested [send] as seen through the [catch] block of the
    calling [send]. *)
Definition orRethrow (message : ChannelMessage)
           (r : Outcome SendResult * World) : Outcome SendResult * World :=
  match r with
  | (Thrown e, w) => (Thrown (Sender.rethrown message e), w)
  | other => other
  end.

(** The token endpoint answers every request with a usable token. *)
Definition tokenEndpointHealthy (env : Env) : Prop :=
  forall i cid sec,
  exists data,
    fetch_reply env i (ReqGetToken cid sec) = FetchJson data
    /\ errcode data = 0 /\ Js.truthyOpt (access_token data) = true.

(** The send endpoint answers every request with [response]. *)
Definition sendEndpointAnswers (env : Env) (response : ApiJson) : Prop :=
  forall i token params,
    fetch_reply env i (ReqSendMessage token params) = FetchJson response.

Definition hasCredentials (config : WeComConfig) : Prop :=
  Js.truthyOpt (corpId config) = true /\ Js.truthyOpt (corpSecret config) = true.

(** A token is stale when it is absent, or expired at every reading of the
    clock. *)
Definition tokenStale (env : Env) (w : World) : Prop :=
  match accessToken w with
  | None => True
  | Some t => forall i, ApiClient.tokenExpired t (date_now env i) = true
  end.

(** The number of recipient fields an envelope sets. *)
Definition isSet (field : option string) : nat :=
  match field with
  | Some _ => 1
  | None => 0
  end.

Definition recipientsSet (params : WeComSendMessageParams) : nat :=
  (isSet (touser params) + isSet (toparty params) + isSet (totag params))%nat.

(** The events for which [fromWeComMessage] replaces the text. *)
Definition eventReplacesText (ev : option string) : bool :=
  match ev with
  | Some e =>
      Js.truthy e
      && ((e =? "subscribe") || (e =? "unsubscribe") || (e =? "enter_agent"))%string
  | None => false
  end.

(** An error as the API client throws it: a plain [Error], not the
    sender's own [WeComSendError], and not an [AbortError] either, as
    [request] turns those into timeout errors. *)
Definition plainError (e : Exn) : Prop :=
  match e with
  | JsError name _ => (name =? "AbortError")%string = false
  | WeComSendError _ _ _ => False
  end.

(** ** Sample data *)

Definition sampleConfig : WeComConfig :=
  mkConfig (Some "ww0123456789") (Some "s3cret") (Some 1000001) None
           (Some "[AI] ") None None.

Definition samplePeer : ChannelPeer := mkPeer dm "u1" "u1".

Definition sampleMessage : ChannelMessage :=
  mkMessage samplePeer (Some "hi") None None None 0 "msg-1" "wecom" "1000001"
            None None None.

(** A vendor whose token endpoint works and whose send endpoint answers every
    request with [code] and [message]; the clock advances one second per
    reading. *)
Definition vendorAnswering (code : Z) (message : string) : Env :=
  mkEnv (fun _ r =>
           match r with
           | ReqGetToken _ _ => FetchJson (mkJson 0 "ok" (Some "TOKEN") 7200 None)
           | ReqSendMessage _ _ => FetchJson (mkJson code message None 0 None)
           end)
        (fun i => 1000 * Z.of_nat i).

Definition freshWorld : World := mkWorld None 0 [] [] 0.

Definition sampleReceived (text : string) (event : option string)
  : WeComReceivedMessage :=
  mkReceived "ww0123456789" "zhangsan" 1700000000 "text" "id-1" 1000001
             (Some text) None None None None None event None.

(** ** Vocabulary of the further properties *)

(** A string made of word characters only. *)
Fixpoint allWordChars (s : string) : bool :=
  match s with
  | EmptyString => true
  | String c s' => Js.isWordChar c && allWordChars s'
  end.

(** The number of [@] characters of a string. *)
Fixpoint countAt (s : string) : nat :=
  match s with
  | EmptyString => O
  | String c s' => ((if (c =? "@")%char then 1 else 0) + countAt s')%nat
  end.

(** A user id that [@] can be put in front of and read back: at least one
    character, word characters only. *)
Definition isWord (s : string) : Prop := s <> "" /\ allWordChars s = true.

(** The four media types the adapter knows, and the vendor kind of each. *)
Definition vendorKind (type : string) : option WeComMessageType :=
  if (type =? "image")%string then Some mt_image
  else if (type =? "video")%string then Some mt_video
  else if (type =? "audio")%string then Some mt_voice
  else if (type =? "file")%string then Some mt_file
  else None.

(** The media type the inbound translation gives to a vendor message kind. *)
Definition channelMediaType (msgType : string) : option string :=
  if (msgType =? "image")%string then Some "image"
  else if (msgType =? "voice")%string then Some "audio"
  else if (msgType =? "video")%string then Some "video"
  else if (msgType =? "file")%string then Some "file"
  else None.

(** A translated message with no text, media, mentions, location or event. *)
Definition carriesNothing (m : ChannelMessage) : Prop :=
  msg_text m = None /\ msg_media m = None /\ msg_mentions m = None
  /\ msg_location m = None /\ msg_event m = None.

(** A response that is a failure of the call itself, not a vendor answer. *)
Definition transportFailure (o : FetchOutcome) : Prop :=
  match o with
  | FetchJson _ => False
  | _ => True
  end.

(** The error that [request] throws for a failed call. *)
Definition transportError (o : FetchOutcome) : Exn :=
  match o with
  | FetchRejected n m =>
      if (n =? "AbortError")%string then JsError "Error" "请求超时"
      else JsError n m
  | FetchNotOk status statusText =>
      JsError "Error" ("HTTP " ++ Js.numToString status ++ ": " ++ statusText)
  | FetchBadJson n m =>
      if (n =? "AbortError")%string then JsError "Error" "请求超时"
      else JsError n m
  | FetchJson _ => JsError "Error" ""
  end.

(** The token request of a config. *)
Definition tokenRequest (config : WeComConfig) : Request :=
  ReqGetToken (Js.orElse (corpId config) "") (Js.orElse (corpSecret config) "").

(** An answer of the token endpoint that makes [refreshAccessToken] throw
    without a second request. *)
Definition refreshFails (o : FetchOutcome) : Prop :=
  match o with
  | FetchJson data =>
      Sender.isAuthCode (errcode data) = false
      /\ (errcode data =? 0) && Js.truthyOpt (access_token data) = false
  | _ => True
  end.

(** The network calls that sending [message] with [config] may make: a
    token request with the configured credentials, or a post of the
    translated message. *)
Definition ownRequest (config : WeComConfig) (message : ChannelMessage)
           (r : Request) : Prop :=
  match r with
  | ReqGetToken _ _ => r = tokenRequest config
  | ReqSendMessage _ params => params = Sender.toWeComMessage config message
  end.

(** From [w] to [w'] the log of network calls has grown by calls that all
    satisfy [P]. *)
Definition logGrowsBy (P : Request -> Prop) (w w' : World) : Prop :=
  exists new, fetchLog w' = (fetchLog w ++ new)%list /\ Forall P new.

(** The token endpoint answers every request with the code 42001 or 40014. *)
Definition tokenEndpointRejects (env : Env) : Prop :=
  forall i cid sec,
  exists data,
    fetch_reply env i (ReqGetToken cid sec) = FetchJson data
    /\ Sender.isAuthCode (errcode data) = true.

(** [Number.MAX_SAFE_INTEGER]: up to this magnitude every integer is a
    number of the language, a product that stays within it is exact, and
    [toString] prints the plain decimal digits. *)
Definition maxSafeInteger : Z := 9007199254740991.

(** ** More sample data *)

(** A world in which every network call fails. *)
Definition networkDown : Env :=
  mkEnv (fun _ _ => FetchRejected "TypeError" "fetch failed")
        (fun i => 1000 * Z.of_nat i).

(** A vendor that answers every request, the token request included, with
    the code 42001. *)
Definition vendorExpired : Env :=
  mkEnv (fun _ _ => FetchJson (mkJson 42001 "access_token expired" None 0 None))
        (fun i => 1000 * Z.of_nat i).

(** A vendor whose token endpoint works and whose send endpoint times out. *)
Definition sendTimesOut : Env :=
  mkEnv (fun _ r =>
           match r with
           | ReqGetToken _ _ => FetchJson (mkJson 0 "ok" (Some "TOKEN") 7200 None)
           | ReqSendMessage _ _ =>
               FetchRejected "AbortError" "This operation was aborted"
           end)
        (fun i => 1000 * Z.of_nat i).

(** A vendor that answers every post with the code 42001 while its token
    endpoint cannot be reached. *)
Definition vendorExpiredTokenDown : Env :=
  mkEnv (fun _ r =>
           match r with
           | ReqGetToken _ _ => FetchRejected "TypeError" "fetch failed"
           | ReqSendMessage _ _ =>
               FetchJson (mkJson 42001 "access_token expired" None 0 None)
           end)
        (fun i => 1000 * Z.of_nat i).

(** A sender that holds a token valid until the clock reads 100000. *)
Definition worldWithToken : World :=
  mkWorld (Some (mkToken "CACHED" 7200 100000)) 0 [] [] 0.

Definition sampleAccount (id : string) (lastActive : Z)
  : Accounts.AccountInfo unit :=
  Accounts.mkAccount unit id id "dev" None None None None lastActive None.

Definition noUpdates : Accounts.AccountUpdates unit :=
  Accounts.mkUpdates unit None None None None None None None None None.

(** Every key of the map is the [id] of its account, and no key is there
    twice. *)
Definition keyedById {Metadata : Type}
           (accounts : Accounts.AccountMap Metadata) : Prop :=
  Forall (fun entry => fst entry = Accounts.acc_id Metadata (snd entry)) accounts
  /\ NoDup (map fst accounts).

(** * Properties *)

(** ** Running composed programs *)

Lemma run_bind {A B : Type} (env : Env) (p : Prog A) (f : A -> Prog B) :
  forall w,
    run env (bind p f) w = andThen (run env p w) (fun a w' => run env (f a) w').
Proof.
  induction p; intros w; simpl; auto.
Qed.

Lemma run_tryCatch {A : Type} (env : Env) (p : Prog A) (h : Exn -> Prog A) :
  forall w,
    run env (tryCatch p h) w = orCatch (run env p w) (fun e w' => run env (h e) w').
Proof.
  induction p; intros w; simpl; auto.
Qed.

(** The run of a single caller is the event loop in which every answer
    arrives before anything else happens. *)
Lemma run_runSync {A : Type} (env : Env) (p : Prog A) :
  forall w,
    run env p w
    = match Loop.runSync env p w with
      | (Loop.Settled o, w') => (o, w')
      | (Loop.AwaitFetch r k, w') =>
          run env (k (fetch_reply env (pred (length (fetchLog w'))) r)) w'
      | (Loop.AwaitTimer _ k, w') => run env k w'
      end.
Proof.
  induction p; intros w; simpl; auto.
  rewrite length_app, Nat.add_1_r. reflexivity.
Qed.

Lemma refreshAccessToken_unfold (config : WeComConfig) (depth : nat) :
  ApiClient.refreshAccessToken config depth =
  ApiClient.refreshBody config
    (match depth with
     | O => OutOfFuel
     | S depth' => ApiClient.refreshAccessToken config depth'
     end).
Proof.
  destruct depth; reflexivity.
Qed.

Lemma sendFuel_unfold (config : WeComConfig) (fuel depth : nat)
      (message : ChannelMessage) :
  Sender.sendFuel config fuel depth message =
  tryCatch
    (Sender.sendTry config depth
       (match fuel with
        | O => OutOfFuel
        | S fuel' => Sender.sendFuel config fuel' depth message
        end)
       message)
    (Sender.sendCatch message).
Proof.
  destruct fuel; reflexivity.
Qed.

(** What [request] does once the network has answered. *)
Lemma run_request (env : Env) (refresh : Prog unit) (r : Request) (w : World) :
  run env (ApiClient.request refresh r) w =
  match fetch_reply env (length (fetchLog w)) r with
  | FetchRejected n m =>
      (Thrown (if (n =? "AbortError")%string
               then JsError "Error" "请求超时" else JsError n m),
       logFetch w r)
  | FetchNotOk status statusText =>
      (Thrown (JsError "Error"
                 ("HTTP " ++ Js.numToString status ++ ": " ++ statusText)),
       logFetch w r)
  | FetchBadJson n m =>
      (Thrown (if (n =? "AbortError")%string
               then JsError "Error" "请求超时" else JsError n m),
       logFetch w r)
  | FetchJson data =>
      if (errcode data =? 40014) || (errcode data =? 42001)
      then match run env refresh (logFetch w r) with
           | (Returned _, w') => (Returned data, w')
           | (Thrown e, w') =>
               (Thrown (if (exn_name e =? "AbortError")%string
                        then JsError "Error" "请求超时" else e), w')
           | (Exhausted, w') => (Exhausted, w')
           end
      else (Returned data, logFetch w r)
  end.
Proof.
  unfold ApiClient.request.
  rewrite run_tryCatch. simpl.
  destruct (fetch_reply env (length (fetchLog w)) r) as [n m|st txt|n m|data];
    simpl.
  - destruct (n =? "AbortError")%string; reflexivity.
  - reflexivity.
  - destruct (n =? "AbortError")%string; reflexivity.
  - destruct ((errcode data =? 40014) || (errcode data =? 42001)); simpl;
      [|reflexivity].
    rewrite run_bind.
    destruct (run env refresh (logFetch w r)) as [[a|e|] w']; simpl;
      try reflexivity.
    destruct (exn_name e =? "AbortError")%string; reflexivity.
Qed.

(** ** What the API client leaves alone *)

Lemma apiFrame_refl (w : World) : apiFrame w w.
Proof. repeat split. Qed.

Lemma apiFrame_trans (w1 w2 w3 : World) :
  apiFrame w1 w2 -> apiFrame w2 w3 -> apiFrame w1 w3.
Proof.
  unfold apiFrame. intros (H1 & H2 & H3) (H4 & H5 & H6).
  repeat split; congruence.
Qed.

Lemma sendAttempts_logFetch (w : World) (r : Request) :
  sendAttempts (logFetch w r)
  = (sendAttempts w + if isSendRequest r then 1 else 0)%nat.
Proof.
  unfold sendAttempts, logFetch; simpl.
  rewrite filter_app, length_app. simpl.
  destruct (isSendRequest r); reflexivity.
Qed.

Lemma tokenCalls_logFetch (w : World) (r : Request) :
  tokenCalls (logFetch w r)
  = (tokenCalls w + if isTokenRequest r then 1 else 0)%nat.
Proof.
  unfold tokenCalls, logFetch; simpl.
  rewrite filter_app, length_app. simpl.
  destruct (isTokenRequest r); reflexivity.
Qed.

Lemma apiFrame_logFetch_token (w : World) (cid sec : string) :
  apiFrame w (logFetch w (ReqGetToken cid sec)).
Proof.
  unfold apiFrame. rewrite sendAttempts_logFetch. simpl.
  repeat split. lia.
Qed.

Section ApiFrame.

Variable env : Env.
Variable config : WeComConfig.

Lemma refreshBody_frame (again : Prog unit) :
  (forall w, apiFrame w (snd (run env again w))) ->
  forall w, apiFrame w (snd (run env (ApiClient.refreshBody config again) w)).
Proof.
  intros Hagain w. unfold ApiClient.refreshBody.
  destruct (Js.truthyOpt (corpId config) && Js.truthyOpt (corpSecret config));
    [|apply apiFrame_refl].
  rewrite run_bind, run_request.
  set (rq := ReqGetToken _ _).
  pose proof (apiFrame_logFetch_token w (Js.orElse (corpId config) "")
                (Js.orElse (corpSecret config) "")) as Hlog.
  fold rq in Hlog.
  destruct (fetch_reply env (length (fetchLog w)) rq) as [n m|st txt|n m|data];
    simpl; auto.
  destruct ((errcode data =? 40014) || (errcode data =? 42001)) eqn:Hauth.
  - specialize (Hagain (logFetch w rq)).
    destruct (run env again (logFetch w rq)) as [[a|e|] w1]; simpl in *;
      try (eapply apiFrame_trans; eassumption).
    destruct ((errcode data =? 0) && Js.truthyOpt (access_token data)); simpl;
      eapply apiFrame_trans; eauto.
  - simpl.
    destruct ((errcode data =? 0) && Js.truthyOpt (access_token data)); simpl;
      auto.
Qed.

Lemma refreshAccessToken_frame (depth : nat) :
  forall w,
    apiFrame w (snd (run env (ApiClient.refreshAccessToken config depth) w)).
Proof.
  induction depth as [|depth IH]; intros w; rewrite refreshAccessToken_unfold;
    apply refreshBody_frame; auto.
  intros w'. apply apiFrame_refl.
Qed.

End ApiFrame.

Section SenderSteps.

Variable env : Env.
Variable config : WeComConfig.

Lemma run_getAccessToken (depth : nat) (w : World) :
  run env (ApiClient.getAccessToken config depth) w =
  andThen
    (match accessToken w with
     | None => run env (ApiClient.refreshAccessToken config depth) w
     | Some t =>
         if ApiClient.tokenExpired t (date_now env (nowReads w))
         then run env (ApiClient.refreshAccessToken config depth) (tickNow w)
         else (Returned tt, tickNow w)
     end)
    (fun _ w1 =>
       match accessToken w1 with
       | None => (Thrown (JsError "Error" "无法获取访问令牌"), w1)
       | Some t => (Returned (tok_access_token t), w1)
       end).
Proof.
  unfold ApiClient.getAccessToken. simpl.
  destruct (accessToken w) as [t|] eqn:Htok; simpl.
  - destruct (ApiClient.tokenExpired t (date_now env (nowReads w))); simpl.
    + rewrite run_bind.
      destruct (run env (ApiClient.refreshAccessToken config depth) (tickNow w))
        as [[a|e|] w1]; simpl; try reflexivity.
      destruct (accessToken w1); reflexivity.
    + rewrite Htok. reflexivity.
  - rewrite run_bind.
    destruct (run env (ApiClient.refreshAccessToken config depth) w)
      as [[a|e|] w1]; simpl; try reflexivity.
    destruct (accessToken w1); reflexivity.
Qed.

Lemma apiFrame_tickNow (w : World) : apiFrame w (tickNow w).
Proof. repeat split. Qed.

Lemma getAccessToken_frame (depth : nat) (w : World) :
  apiFrame w (snd (run env (ApiClient.getAccessToken config depth) w)).
Proof.
  rewrite run_getAccessToken.
  pose proof (refreshAccessToken_frame env config depth) as Hrefresh.
  assert (Hfirst : forall w0,
             apiFrame w w0 ->
             apiFrame w
               (snd (andThen
                       (run env (ApiClient.refreshAccessToken config depth) w0)
                       (fun _ w1 =>
                          match accessToken w1 with
                          | None =>
                              (Thrown (JsError "Error" "无法获取访问令牌"), w1)
                          | Some t => (Returned (tok_access_token t), w1)
                          end)))).
  { intros w0 H0. specialize (Hrefresh w0).
    destruct (run env (ApiClient.refreshAccessToken config depth) w0)
      as [[a|e|] w1]; simpl in *;
      try (eapply apiFrame_trans; eassumption).
    destruct (accessToken w1); simpl; eapply apiFrame_trans; eassumption. }
  destruct (accessToken w) as [t|] eqn:Htok.
  - destruct (ApiClient.tokenExpired t (date_now env (nowReads w))).
    + apply Hfirst, apiFrame_tickNow.
    + simpl. rewrite Htok. simpl. apply apiFrame_tickNow.
  - apply Hfirst, apiFrame_refl.
Qed.

(** [sendMessage] leaves the retry state alone and, when it returns a
    response, has made exactly one call to the send endpoint. *)
Lemma sendMessage_frame (depth : nat) (params : WeComSendMessageParams)
      (w : World) :
  let r := run env (ApiClient.sendMessage config depth params) w in
  retryCount (snd r) = retryCount w /\ sleepLog (snd r) = sleepLog w
  /\ (forall response, fst r = Returned response ->
                       sendAttempts (snd r) = S (sendAttempts w)).
Proof.
  unfold ApiClient.sendMessage. rewrite run_bind.
  pose proof (getAccessToken_frame depth w) as Hget.
  destruct (run env (ApiClient.getAccessToken config depth) w)
    as [[token|e|] w1]; cbn [andThen snd fst] in *;
    try (destruct Hget as (H1 & H2 & H3); repeat split; auto; discriminate).
  rewrite run_request.
  set (rq := ReqSendMessage token params).
  assert (Hlog : retryCount (logFetch w1 rq) = retryCount w
                 /\ sleepLog (logFetch w1 rq) = sleepLog w
                 /\ sendAttempts (logFetch w1 rq) = S (sendAttempts w)).
  { destruct Hget as (H1 & H2 & H3). rewrite sendAttempts_logFetch. simpl.
    repeat split; auto. lia. }
  destruct (fetch_reply env (length (fetchLog w1)) rq) as [n m|st txt|n m|data];
    cbn [snd fst];
    try (destruct Hlog as (H1 & H2 & H3); repeat split; auto; discriminate).
  destruct ((errcode data =? 40014) || (errcode data =? 42001)).
  - pose proof (refreshAccessToken_frame env config depth (logFetch w1 rq))
      as Href.
    destruct (run env (ApiClient.refreshAccessToken config depth)
                  (logFetch w1 rq)) as [[a|e|] w2]; cbn [snd fst] in *;
      destruct Hlog as (H1 & H2 & H3); destruct Href as (H4 & H5 & H6);
      repeat split; try congruence; discriminate.
  - cbn [snd fst]. destruct Hlog as (H1 & H2 & H3). repeat split; auto.
Qed.

Lemma run_retrySend (depth : nat) (resend : Prog SendResult) (errorCode : Z)
      (w1 : World) :
  run env (Sender.retrySend config depth resend errorCode) w1 =
  let w2 := logSleep (setRetryCount w1 (S (retryCount w1)))
                     (Sender.backoff (S (retryCount w1))) in
  andThen (if Sender.isAuthCode errorCode
           then run env (ApiClient.refreshAccessToken config depth) w2
           else (Returned tt, w2))
          (fun _ w3 => run env resend w3).
Proof.
  unfold Sender.retrySend.
  cbn [bind readRetryCount writeRetryCount sleep run retryCount setRetryCount].
  rewrite run_bind.
  destruct (Sender.isAuthCode errorCode); reflexivity.
Qed.

(** One call of [send], in terms of the calls it makes. *)
Lemma run_sendFuel (fuel depth : nat) (message : ChannelMessage) (w : World) :
  run env (Sender.sendFuel config fuel depth message) w =
  match run env (ApiClient.sendMessage config depth
                   (Sender.toWeComMessage config message)) w with
  | (Returned response, w1) =>
      if errcode response =? 0 then run env (Sender.sendSucceeded response) w1
      else if Sender.shouldRetry config (errcode response) (retryCount w1) then
        let w2 := logSleep (setRetryCount w1 (S (retryCount w1)))
                           (Sender.backoff (S (retryCount w1))) in
        match (if Sender.isAuthCode (errcode response)
               then run env (ApiClient.refreshAccessToken config depth) w2
               else (Returned tt, w2)) with
        | (Returned _, w3) =>
            orRethrow message
              (run env (match fuel with
                        | O => OutOfFuel
                        | S fuel' => Sender.sendFuel config fuel' depth message
                        end) w3)
        | (Thrown e, w3) => (Thrown (Sender.rethrown message e), w3)
        | (Exhausted, w3) => (Exhausted, w3)
        end
      else (Thrown (Sender.newWeComSendError (errmsg response)
                      (errcode response) message), w1)
  | (Thrown e, w1) => (Thrown (Sender.rethrown message e), w1)
  | (Exhausted, w1) => (Exhausted, w1)
  end.
Proof.
  rewrite sendFuel_unfold, run_tryCatch.
  unfold Sender.sendTry. rewrite run_bind.
  destruct (run env (ApiClient.sendMessage config depth
                       (Sender.toWeComMessage config message)) w)
    as [[response|e|] w1]; cbn [andThen orCatch]; try reflexivity.
  destruct (errcode response =? 0) eqn:Hzero.
  - unfold Sender.sendSucceeded. simpl.
    destruct (Js.truthyOpt (data_msgid response)); reflexivity.
  - cbn [bind readRetryCount run].
    destruct (Sender.shouldRetry config (errcode response) (retryCount w1));
      [|reflexivity].
    rewrite run_retrySend. cbv zeta.
    destruct (if Sender.isAuthCode (errcode response)
              then run env (ApiClient.refreshAccessToken config depth) _
              else _) as [[a|e|] w3]; reflexivity.
Qed.

End SenderSteps.

(** ** The retry counter *)

Section RetryCounter.

Variable env : Env.
Variable config : WeComConfig.

Lemma run_sendSucceeded (response : ApiJson) (w1 : World) :
  exists result w',
    run env (Sender.sendSucceeded response) w1 = (Returned result, w')
    /\ success result = true /\ retryCount w' = 0%nat
    /\ sleepLog w' = sleepLog w1 /\ fetchLog w' = fetchLog w1.
Proof.
  unfold Sender.sendSucceeded. simpl.
  destruct (Js.truthyOpt (data_msgid response)); simpl;
    eexists; eexists; repeat split.
Qed.

Lemma retries_logSleep (w : World) (ms : Z) :
  retries (logSleep w ms) = S (retries w).
Proof.
  unfold retries, logSleep; simpl. rewrite length_app. simpl. lia.
Qed.

(** After one call of [send]: a returned result is a success and leaves the
    counter at zero; otherwise the counter has grown by the number of
    retries made. *)
Lemma sendFuel_counter (fuel depth : nat) (message : ChannelMessage) :
  forall w,
    let r := run env (Sender.sendFuel config fuel depth message) w in
    (retries w <= retries (snd r))%nat
    /\ match fst r with
       | Returned result => success result = true /\ retryCount (snd r) = 0%nat
       | _ => retryCount (snd r)
              = (retryCount w + (retries (snd r) - retries w))%nat
       end.
Proof.
  induction fuel as [|fuel IH]; intros w; cbv zeta; rewrite run_sendFuel;
    pose proof (sendMessage_frame env config depth
                  (Sender.toWeComMessage config message) w) as Hframe;
    cbv zeta in Hframe;
    destruct (run env (ApiClient.sendMessage config depth
                         (Sender.toWeComMessage config message)) w)
      as [[response|e|] w1]; cbn [fst snd] in *;
    destruct Hframe as (Hrc & Hsl & _);
    try (unfold retries; rewrite Hsl, Hrc; split; lia).
  all: destruct (errcode response =? 0);
    [ destruct (run_sendSucceeded response w1)
        as (result & w' & Hrun & Hok & Hzero & Hsl' & _);
      rewrite Hrun; cbn [fst snd]; unfold retries; rewrite Hsl', Hsl;
      repeat split; auto | ].
  all: destruct (Sender.shouldRetry config (errcode response) (retryCount w1));
    [ | cbn [fst snd]; unfold retries; rewrite Hsl, Hrc; split; lia ].
  all: cbv zeta;
    set (w2 := logSleep (setRetryCount w1 (S (retryCount w1)))
                        (Sender.backoff (S (retryCount w1))));
    assert (Hw2 : retryCount w2 = S (retryCount w)
                  /\ retries w2 = S (retries w))
      by (unfold w2; rewrite retries_logSleep; unfold retries; simpl;
          rewrite Hrc, Hsl; auto);
    destruct Hw2 as (Hrc2 & Hre2);
    assert (Hw3 : forall w3, apiFrame w2 w3 ->
                             retryCount w3 = S (retryCount w)
                             /\ retries w3 = S (retries w))
      by (intros w3 (H1 & H2 & _); unfold retries in *; rewrite H1, H2; auto).
  - (* the nested call is out of fuel *)
    destruct (Sender.isAuthCode (errcode response)).
    + pose proof (refreshAccessToken_frame env config depth w2) as Href.
      destruct (run env (ApiClient.refreshAccessToken config depth) w2)
        as [[a|e|] w3]; cbn [fst snd orRethrow run] in *;
        destruct (Hw3 w3 Href) as (H1 & H2); rewrite H1, H2; split; lia.
    + cbn [fst snd orRethrow run]. rewrite Hrc2, Hre2. split; lia.
  - (* the nested call runs *)
    assert (Hnested : forall w3,
               retryCount w3 = S (retryCount w) ->
               retries w3 = S (retries w) ->
               let r := orRethrow message
                          (run env (Sender.sendFuel config fuel depth message)
                               w3) in
               (retries w <= retries (snd r))%nat
               /\ match fst r with
                  | Returned result =>
                      success result = true /\ retryCount (snd r) = 0%nat
                  | _ => retryCount (snd r)
                         = (retryCount w + (retries (snd r) - retries w))%nat
                  end).
    { intros w3 H1 H2. specialize (IH w3). cbv zeta in IH.
      destruct (run env (Sender.sendFuel config fuel depth message) w3)
        as [[a|e|] w4]; cbn [fst snd orRethrow] in *;
        destruct IH as (IHle & IHrc); split; try lia; auto. }
    destruct (Sender.isAuthCode (errcode response)).
    + pose proof (refreshAccessToken_frame env config depth w2) as Href.
      destruct (run env (ApiClient.refreshAccessToken config depth) w2)
        as [[a|e|] w3]; cbn [fst snd] in *;
        destruct (Hw3 w3 Href) as (H1 & H2);
        try (rewrite H1, H2; split; lia).
      apply Hnested; assumption.
    + apply Hnested; assumption.
Qed.

(** The fuel [send] gives itself is enough: once the fuel covers the retries
    that are left, more fuel does not change the run. *)
Lemma sendFuel_enough (depth : nat) (message : ChannelMessage) :
  forall fuel w,
    (Z.to_nat (Sender.maxRetriesOrDefault config - Z.of_nat (retryCount w))
     <= fuel)%nat ->
    run env (Sender.sendFuel config (S fuel) depth message) w
    = run env (Sender.sendFuel config fuel depth message) w.
Proof.
  induction fuel as [|fuel IH]; intros w Hfuel;
    rewrite (run_sendFuel env config (S _)), (run_sendFuel env config _);
    pose proof (sendMessage_frame env config depth
                  (Sender.toWeComMessage config message) w) as Hframe;
    cbv zeta in Hframe;
    destruct (run env (ApiClient.sendMessage config depth
                         (Sender.toWeComMessage config message)) w)
      as [[response|e|] w1]; cbn [fst snd] in Hframe; try reflexivity;
    destruct Hframe as (Hrc & Hsl & _);
    destruct (errcode response =? 0); try reflexivity;
    unfold Sender.shouldRetry;
    destruct (existsb (Z.eqb (errcode response)) Sender.retryableErrors);
    cbn [andb]; try reflexivity;
    destruct (Z.ltb_spec (Z.of_nat (retryCount w1))
                         (Sender.maxRetriesOrDefault config)) as [Hlt|Hge];
    try reflexivity; try (exfalso; lia).
  cbv zeta.
  set (w2 := logSleep (setRetryCount w1 (S (retryCount w1)))
                      (Sender.backoff (S (retryCount w1)))).
  assert (Hnested : forall w3,
             apiFrame w2 w3 ->
             run env (Sender.sendFuel config (S fuel) depth message) w3
             = run env (Sender.sendFuel config fuel depth message) w3).
  { intros w3 (H1 & _). apply IH. rewrite H1. unfold w2. simpl. lia. }
  destruct (Sender.isAuthCode (errcode response)).
  - pose proof (refreshAccessToken_frame env config depth w2) as Href.
    destruct (run env (ApiClient.refreshAccessToken config depth) w2)
      as [[a|e|] w3]; cbn [snd] in Href; try reflexivity.
    rewrite (Hnested w3 Href). reflexivity.
  - rewrite (Hnested w2 (apiFrame_refl w2)). reflexivity.
Qed.

End RetryCounter.

(** ** A vendor that keeps answering with a retryable error *)

Section RetryableVendor.

Variable env : Env.
Variable config : WeComConfig.
Variable response : ApiJson.

Hypothesis Hcredentials : hasCredentials config.
Hypothesis Htoken : tokenEndpointHealthy env.
Hypothesis Hsend : sendEndpointAnswers env response.

Lemma refresh_healthy (depth : nat) (w : World) :
  exists w',
    run env (ApiClient.refreshAccessToken config depth) w = (Returned tt, w')
    /\ apiFrame w w' /\ accessToken w' <> None.
Proof.
  pose proof (refreshAccessToken_frame env config depth w) as Hframe.
  rewrite refreshAccessToken_unfold in *. unfold ApiClient.refreshBody in *.
  destruct Hcredentials as (Hid & Hsecret). rewrite Hid, Hsecret in *.
  cbn [andb] in *. rewrite run_bind, run_request in *.
  destruct (Htoken (length (fetchLog w)) (Js.orElse (corpId config) "")
                   (Js.orElse (corpSecret config) ""))
    as (data & Hreply & Hcode & Htruthy).
  rewrite Hreply in Hframe |- *. rewrite Hcode in Hframe |- *.
  cbn [Z.eqb orb andThen] in Hframe |- *.
  rewrite Hcode, Htruthy in Hframe |- *. simpl in Hframe |- *.
  eexists. split; [reflexivity|]. split; [exact Hframe|discriminate].
Qed.

Lemma getAccessToken_healthy (depth : nat) (w : World) :
  exists token w',
    run env (ApiClient.getAccessToken config depth) w = (Returned token, w')
    /\ apiFrame w w'.
Proof.
  pose proof (getAccessToken_frame env config depth w) as Hframe.
  rewrite run_getAccessToken in *.
  destruct (accessToken w) as [t|] eqn:Htok.
  - destruct (ApiClient.tokenExpired t (date_now env (nowReads w))).
    + destruct (refresh_healthy depth (tickNow w)) as (w' & Hrun & _ & Hsome).
      rewrite Hrun in *. cbn [andThen] in *.
      destruct (accessToken w') as [t'|]; [|congruence].
      eexists; eexists; split; [reflexivity|exact Hframe].
    + cbn [andThen] in *. simpl in *. rewrite Htok in *.
      eexists; eexists; split; [reflexivity|exact Hframe].
  - destruct (refresh_healthy depth w) as (w' & Hrun & _ & Hsome).
    rewrite Hrun in *. cbn [andThen] in *.
    destruct (accessToken w') as [t'|]; [|congruence].
    eexists; eexists; split; [reflexivity|exact Hframe].
Qed.

Lemma sendMessage_answers (depth : nat) (params : WeComSendMessageParams)
      (w : World) :
  exists w1,
    run env (ApiClient.sendMessage config depth params) w
    = (Returned response, w1)
    /\ retryCount w1 = retryCount w /\ sleepLog w1 = sleepLog w
    /\ sendAttempts w1 = S (sendAttempts w).
Proof.
  pose proof (sendMessage_frame env config depth params w) as Hframe.
  cbv zeta in Hframe.
  assert (Hrun : exists w1,
             run env (ApiClient.sendMessage config depth params) w
             = (Returned response, w1)).
  { unfold ApiClient.sendMessage. rewrite run_bind.
    destruct (getAccessToken_healthy depth w) as (token & w0 & Hget & _).
    rewrite Hget. cbn [andThen]. rewrite run_request, Hsend.
    destruct ((errcode response =? 40014) || (errcode response =? 42001));
      [|eexists; reflexivity].
    destruct (refresh_healthy depth (logFetch w0 (ReqSendMessage token params)))
      as (w' & Hrefresh & _).
    rewrite Hrefresh. eexists; reflexivity. }
  destruct Hrun as (w1 & Hrun). rewrite Hrun in Hframe. cbn [fst snd] in Hframe.
  destruct Hframe as (H1 & H2 & H3).
  exists w1. repeat split; auto.
  apply (H3 response). reflexivity.
Qed.

Hypothesis Hretryable : In (errcode response) Sender.retryableErrors.

Lemma retryable_nonzero : (errcode response =? 0) = false.
Proof.
  apply Z.eqb_neq. intros Hzero. rewrite Hzero in Hretryable.
  simpl in Hretryable. intuition discriminate.
Qed.

Lemma retryable_existsb :
  existsb (Z.eqb (errcode response)) Sender.retryableErrors = true.
Proof.
  apply existsb_exists. exists (errcode response). split; [assumption|].
  apply Z.eqb_refl.
Qed.

(** With enough fuel for the retries that are left, [send] retries until
    the counter reaches the limit and then throws the vendor's error. *)
Lemma sendFuel_exhausts (depth : nat) (message : ChannelMessage) :
  forall fuel w,
    let left :=
      Z.to_nat (Sender.maxRetriesOrDefault config - Z.of_nat (retryCount w)) in
    (left <= fuel)%nat ->
    exists w',
      run env (Sender.sendFuel config fuel depth message) w
      = (Thrown (Sender.newWeComSendError (errmsg response) (errcode response)
                                          message), w')
      /\ retries w' = (retries w + left)%nat
      /\ sendAttempts w' = (sendAttempts w + left + 1)%nat
      /\ retryCount w' = (retryCount w + left)%nat.
Proof.
  induction fuel as [|fuel IH]; intros w left Hfuel; rewrite run_sendFuel;
    destruct (sendMessage_answers depth (Sender.toWeComMessage config message) w)
      as (w1 & Hrun & Hrc & Hsl & Hat);
    rewrite Hrun, retryable_nonzero; unfold Sender.shouldRetry;
    rewrite retryable_existsb, Hrc; cbn [andb];
    destruct (Z.ltb_spec (Z.of_nat (retryCount w))
                         (Sender.maxRetriesOrDefault config)) as [Hlt|Hge];
    try (exists w1; unfold retries; rewrite Hsl, Hat, Hrc;
         replace left with 0%nat by (unfold left; lia);
         repeat split; lia);
    try (exfalso; unfold left in Hfuel; lia).
  cbv zeta.
  set (w2 := logSleep (setRetryCount w1 (S (retryCount w)))
                      (Sender.backoff (S (retryCount w)))).
  assert (Hw2 : retryCount w2 = S (retryCount w)
                /\ retries w2 = S (retries w)
                /\ sendAttempts w2 = S (sendAttempts w)).
  { unfold w2. rewrite retries_logSleep. unfold retries. simpl.
    rewrite Hsl. repeat split. exact Hat. }
  assert (Hnested : forall w3,
             apiFrame w2 w3 ->
             exists w',
               orRethrow message
                 (run env (Sender.sendFuel config fuel depth message) w3)
               = (Thrown (Sender.newWeComSendError (errmsg response)
                            (errcode response) message), w')
               /\ retries w' = (retries w + left)%nat
               /\ sendAttempts w' = (sendAttempts w + left + 1)%nat
               /\ retryCount w' = (retryCount w + left)%nat).
  { intros w3 (H1 & H2 & H3). destruct Hw2 as (H4 & H5 & H6).
    destruct (IH w3) as (w' & Hrun' & Hre & Hat' & Hrc').
    { rewrite H1, H4. unfold left in Hfuel. lia. }
    exists w'. rewrite Hrun'. cbn [orRethrow Sender.rethrown].
    unfold retries in *. rewrite H1, H2, H3, H4, H5, H6 in *.
    unfold left. split; [reflexivity|]. repeat split; lia. }
  destruct (Sender.isAuthCode (errcode response)).
  - destruct (refresh_healthy depth w2) as (w3 & Hrefresh & Hframe & _).
    rewrite Hrefresh. apply Hnested. exact Hframe.
  - apply Hnested. apply apiFrame_refl.
Qed.

End RetryableVendor.

(** ** Claims about the sender *)

(** C1 (amended).  When every send attempt receives the same retryable vendor
    error and token refreshes succeed, [send] on a sender whose retry counter
    is [r] makes exactly [max 0 ((maxRetries || 3) - r)] retries, one send
    attempt more than that, and then throws a [WeComSendError] built from the
    vendor's code and message, whose [isRecoverable()] holds exactly for the
    codes 42001, 40014 and 45033; it never returns a result. *)
Theorem send_retryable_error_retries_then_throws
        (env : Env) (config : WeComConfig) (response : ApiJson) (depth : nat)
        (message : ChannelMessage) (w : World) :
  hasCredentials config ->
  tokenEndpointHealthy env ->
  sendEndpointAnswers env response ->
  In (errcode response) Sender.retryableErrors ->
  let left :=
    Z.to_nat (Sender.maxRetriesOrDefault config - Z.of_nat (retryCount w)) in
  exists w',
    run env (Sender.send config depth message) w
    = (Thrown (Sender.newWeComSendError (errmsg response) (errcode response)
                                        message), w')
    /\ retries w' = (retries w + left)%nat
    /\ sendAttempts w' = (sendAttempts w + left + 1)%nat
    /\ (Sender.isRecoverable (errcode response) = true
        <-> In (errcode response) [42001; 40014; 45033])
    /\ (forall result w'',
          run env (Sender.send config depth message) w <> (Returned result, w'')).
Proof.
  intros Hcred Htoken Hsend Hretryable left.
  destruct (sendFuel_exhausts env config response Hcred Htoken Hsend Hretryable
              depth message (Z.to_nat (Sender.maxRetriesOrDefault config)) w)
    as (w' & Hrun & Hre & Hat & _).
  { lia. }
  exists w'. unfold Sender.send. rewrite Hrun.
  repeat split; try assumption.
  - unfold Sender.isRecoverable. rewrite existsb_exists.
    intros (x & Hin & Heq). apply Z.eqb_eq in Heq. subst x. exact Hin.
  - intros Hin. unfold Sender.isRecoverable. rewrite existsb_exists.
    exists (errcode response). split; [exact Hin|apply Z.eqb_refl].
  - intros result w'' H. discriminate H.
Qed.

Lemma send_retryable_error_retries_then_throws_witness :
  exists w',
    run (vendorAnswering 45009 "api freq out of limit")
        (Sender.send sampleConfig 0 sampleMessage) freshWorld
    = (Thrown (Sender.newWeComSendError "api freq out of limit" 45009
                                        sampleMessage), w')
    /\ retries w' = 3%nat
    /\ sendAttempts w' = 4%nat.
Proof.
  destruct (send_retryable_error_retries_then_throws
              (vendorAnswering 45009 "api freq out of limit") sampleConfig
              (mkJson 45009 "api freq out of limit" None 0 None) 0 sampleMessage
              freshWorld)
    as (w' & Hrun & Hretries & Hattempts & _).
  - split; reflexivity.
  - intros i cid sec. eexists. repeat split.
  - intros i token params. reflexivity.
  - simpl. tauto.
  - exists w'. repeat split; assumption.
Defined.

(** C1, as stated, fails: after the retries [send] throws; it does not return
    a result with [success = false]. *)
Lemma send_returns_failed_result_counterexample :
  ~ (exists result w',
        run (vendorAnswering 45009 "api freq out of limit")
            (Sender.send sampleConfig 0 sampleMessage) freshWorld
        = (Returned result, w')
        /\ success result = false).
Proof.
  intros (result & w' & Hrun & _).
  vm_compute in Hrun. discriminate Hrun.
Qed.

(** What [send] does with a vendor error response that [sendMessage] has
    handed to it: with a retryable code and budget left it waits for the
    backoff delay, otherwise it throws the vendor's error at once. *)
Lemma send_on_error_response
      (env : Env) (config : WeComConfig) (depth : nat)
      (message : ChannelMessage) (w w1 : World) (response : ApiJson) :
  run env (ApiClient.sendMessage config depth
             (Sender.toWeComMessage config message)) w
  = (Returned response, w1) ->
  errcode response <> 0 ->
  let r := run env (Sender.send config depth message) w in
  (Sender.shouldRetry config (errcode response) (retryCount w) = true ->
   (retries w < retries (snd r))%nat)
  /\ (Sender.shouldRetry config (errcode response) (retryCount w) = false ->
      r = (Thrown (Sender.newWeComSendError (errmsg response) (errcode response)
                                            message), w1)
      /\ sendAttempts (snd r) = S (sendAttempts w)
      /\ retries (snd r) = retries w).
Proof.
  intros Hrun Hcode r.
  pose proof (sendMessage_frame env config depth
                (Sender.toWeComMessage config message) w) as Hframe.
  cbv zeta in Hframe. rewrite Hrun in Hframe. cbn [fst snd] in Hframe.
  destruct Hframe as (Hrc & Hsl & Hat). specialize (Hat response eq_refl).
  assert (Hr : r = run env (Sender.send config depth message) w) by reflexivity.
  unfold Sender.send in Hr. rewrite run_sendFuel, Hrun in Hr.
  apply Z.eqb_neq in Hcode. rewrite Hcode, Hrc in Hr.
  destruct (Sender.shouldRetry config (errcode response) (retryCount w)).
  - split; [intros _|discriminate].
    cbv zeta in Hr.
    set (w2 := logSleep (setRetryCount w1 (S (retryCount w)))
                        (Sender.backoff (S (retryCount w)))) in Hr.
    assert (Hw2 : retries w2 = S (retries w)).
    { unfold w2. rewrite retries_logSleep. unfold retries. simpl.
      rewrite Hsl. reflexivity. }
    assert (Hnested : forall w3,
               retries w3 = S (retries w) ->
               (retries w
                < retries
                    (snd (orRethrow message
                            (run env
                               match Z.to_nat (Sender.maxRetriesOrDefault config)
                               with
                               | O => OutOfFuel
                               | S fuel' =>
                                   Sender.sendFuel config fuel' depth message
                               end w3))))%nat).
    { intros w3 H3.
      destruct (Z.to_nat (Sender.maxRetriesOrDefault config)) as [|fuel'].
      - cbn [run orRethrow snd]. lia.
      - pose proof (sendFuel_counter env config fuel' depth message w3) as Hc.
        cbv zeta in Hc. destruct Hc as (Hle & _).
        destruct (run env (Sender.sendFuel config fuel' depth message) w3)
          as [[a|e|] w4]; cbn [orRethrow snd] in *; lia. }
    destruct (Sender.isAuthCode (errcode response)).
    + pose proof (refreshAccessToken_frame env config depth w2) as Href.
      destruct (run env (ApiClient.refreshAccessToken config depth) w2)
        as [[a|e|] w3]; cbn [snd] in Href; destruct Href as (_ & H2 & _);
        rewrite Hr; try (cbn [snd]; unfold retries in *; rewrite H2; lia).
      apply Hnested. unfold retries in *. rewrite H2. exact Hw2.
    + rewrite Hr. apply Hnested. exact Hw2.
  - split; [discriminate|intros _].
    rewrite Hr. cbn [snd]. unfold retries. rewrite Hsl.
    repeat split. exact Hat.
Qed.

(** The token operations of the API client throw plain errors only. *)
Lemma refreshBody_throws_plain (env : Env) (config : WeComConfig)
      (again : Prog unit) :
  (forall w e w', run env again w = (Thrown e, w') -> plainError e) ->
  forall w e w',
    run env (ApiClient.refreshBody config again) w = (Thrown e, w') ->
    plainError e.
Proof.
  intros Hagain w e w'. unfold ApiClient.refreshBody.
  destruct (Js.truthyOpt (corpId config) && Js.truthyOpt (corpSecret config));
    [|intros H; inversion H; reflexivity].
  rewrite run_bind, run_request.
  set (rq := ReqGetToken _ _).
  assert (Hrest : forall data w1,
             andThen (Returned data, w1)
               (fun a w2 =>
                  run env
                    (if (errcode a =? 0) && Js.truthyOpt (access_token a)
                     then now <- dateNow ;;
                          writeToken
                            (mkToken (Js.orElse (access_token a) "")
                                     (expires_in a)
                                     (now + (expires_in a - 300) * 1000))
                     else Throw (JsError "Error"
                                   ("获取访问令牌失败: " ++ errmsg a ++ " ("
                                    ++ Js.numToString (errcode a) ++ ")"))) w2)
             = (Thrown e, w') -> plainError e).
  { intros data w1. cbn [andThen].
    destruct ((errcode data =? 0) && Js.truthyOpt (access_token data)); cbn;
      intros H; inversion H; reflexivity. }
  destruct (fetch_reply env (length (fetchLog w)) rq) as [n m|st txt|n m|data].
  - cbn [andThen]. intros H; inversion H.
    destruct (n =? "AbortError")%string eqn:Hn; [reflexivity|exact Hn].
  - cbn [andThen]. intros H; inversion H. reflexivity.
  - cbn [andThen]. intros H; inversion H.
    destruct (n =? "AbortError")%string eqn:Hn; [reflexivity|exact Hn].
  - destruct ((errcode data =? 40014) || (errcode data =? 42001)).
    + destruct (run env again (logFetch w rq)) as [[a|e1|] w1] eqn:Hrun.
      * apply Hrest.
      * cbn [andThen]. intros H; inversion H.
        destruct (exn_name e1 =? "AbortError")%string; [reflexivity|].
        subst. exact (Hagain _ _ _ Hrun).
      * cbn [andThen]. discriminate.
    + apply Hrest.
Qed.

Lemma refreshAccessToken_throws_plain (env : Env) (config : WeComConfig)
      (depth : nat) :
  forall w e w',
    run env (ApiClient.refreshAccessToken config depth) w = (Thrown e, w') ->
    plainError e.
Proof.
  induction depth as [|depth IH]; intros w e w';
    rewrite refreshAccessToken_unfold; apply refreshBody_throws_plain.
  - intros w0 e0 w0'. cbn. discriminate.
  - exact IH.
Qed.

(** C3 (amended).  Take a vendor error response to the post of [send] (a
    token was obtained, the send endpoint answered with a code other than 0).
    [send] goes on to a retry exactly when the code is one of 42001, 40014,
    45033, 45009, 50001, the retry budget is not exhausted and, for 42001 and
    40014, the token refresh that [request] makes on such an answer
    succeeds.  For any other code, 60111 and 60123 among them, [send] stops
    after that one send attempt and throws the vendor's error, with no
    retry, whatever the budget.  A 42001 or 40014 answer whose refresh fails
    also ends the call after that one send attempt, with no retry: the error
    of the refresh is thrown as a [WeComSendError] with the code 500. *)
Theorem send_retries_iff_retryable_and_refreshed
        (env : Env) (config : WeComConfig) (depth : nat)
        (message : ChannelMessage) (w w0 : World) (token : string)
        (response : ApiJson) :
  run env (ApiClient.getAccessToken config depth) w = (Returned token, w0) ->
  let post := ReqSendMessage token (Sender.toWeComMessage config message) in
  fetch_reply env (length (fetchLog w0)) post = FetchJson response ->
  errcode response <> 0 ->
  let posted := logFetch w0 post in
  let refreshed := run env (ApiClient.refreshAccessToken config depth) posted in
  let r := run env (Sender.send config depth message) w in
  ((retries w < retries (snd r))%nat
   <-> In (errcode response) [42001; 40014; 45009; 45033; 50001]
       /\ Z.of_nat (retryCount w) < Sender.maxRetriesOrDefault config
       /\ (Sender.isAuthCode (errcode response) = true ->
           exists w', refreshed = (Returned tt, w')))
  /\ (~ In (errcode response) [42001; 40014; 45009; 45033; 50001] ->
      r = (Thrown (Sender.newWeComSendError (errmsg response) (errcode response)
                                            message), posted)
      /\ sendAttempts (snd r) = S (sendAttempts w)
      /\ retries (snd r) = retries w)
  /\ (Sender.isAuthCode (errcode response) = true ->
      forall e w',
        refreshed = (Thrown e, w') ->
        r = (Thrown (Sender.newWeComSendError (exn_message e) 500 message), w')
        /\ sendAttempts (snd r) = S (sendAttempts w)
        /\ retries (snd r) = retries w)
  /\ ~ In 60111 [42001; 40014; 45009; 45033; 50001]
  /\ ~ In 60123 [42001; 40014; 45009; 45033; 50001].
Proof.
  intros Hget post Hreply Hcode posted refreshed r.
  assert (Hset : existsb (Z.eqb (errcode response)) Sender.retryableErrors = true
                 <-> In (errcode response) [42001; 40014; 45009; 45033; 50001]).
  { rewrite existsb_exists. split.
    - intros (x & Hin & Heq). apply Z.eqb_eq in Heq. subst x.
      simpl in Hin |- *. tauto.
    - intros Hin. exists (errcode response). split; [|apply Z.eqb_refl].
      simpl in Hin |- *. tauto. }
  assert (Hauthin : Sender.isAuthCode (errcode response) = true ->
                    In (errcode response) [42001; 40014; 45009; 45033; 50001]).
  { unfold Sender.isAuthCode. intros H. apply orb_true_iff in H.
    destruct H as [H|H]; apply Z.eqb_eq in H; rewrite H; simpl; tauto. }
  assert (Hretry : Sender.shouldRetry config (errcode response) (retryCount w)
                   = true
                   <-> In (errcode response) [42001; 40014; 45009; 45033; 50001]
                       /\ Z.of_nat (retryCount w)
                          < Sender.maxRetriesOrDefault config).
  { unfold Sender.shouldRetry. rewrite andb_true_iff, Hset, Z.ltb_lt. tauto. }
  pose proof (getAccessToken_frame env config depth w) as Hgetframe.
  rewrite Hget in Hgetframe. cbn [snd] in Hgetframe.
  destruct Hgetframe as (Hrc0 & Hsl0 & Hat0).
  assert (Hposted : retryCount posted = retryCount w
                    /\ sleepLog posted = sleepLog w
                    /\ sendAttempts posted = S (sendAttempts w)).
  { unfold posted. rewrite sendAttempts_logFetch. cbn.
    repeat split; auto. lia. }
  destruct Hposted as (Hrc1 & Hsl1 & Hat1).
  assert (Hsent : run env (ApiClient.sendMessage config depth
                             (Sender.toWeComMessage config message)) w
                  = if Sender.isAuthCode (errcode response)
                    then match refreshed with
                         | (Returned _, w') => (Returned response, w')
                         | (Thrown e, w') =>
                             (Thrown (if (exn_name e =? "AbortError")%string
                                      then JsError "Error" "请求超时" else e),
                              w')
                         | (Exhausted, w') => (Exhausted, w')
                         end
                    else (Returned response, posted)).
  { unfold ApiClient.sendMessage. rewrite run_bind, Hget. cbn [andThen].
    rewrite run_request. fold post. rewrite Hreply.
    unfold Sender.isAuthCode. rewrite (orb_comm (errcode response =? 42001)).
    reflexivity. }
  assert (Hnots : ~ In 60111 [42001; 40014; 45009; 45033; 50001]
                  /\ ~ In 60123 [42001; 40014; 45009; 45033; 50001])
    by (split; simpl; intuition discriminate).
  destruct (Sender.isAuthCode (errcode response)) eqn:Hauth.
  - (* 42001 or 40014: [request] has refreshed the token first *)
    pose proof (refreshAccessToken_frame env config depth posted) as Href.
    fold refreshed in Href.
    pose proof (refreshAccessToken_throws_plain env config depth posted)
      as Hplain.
    fold refreshed in Hplain.
    destruct refreshed as [[[]|e|] w'] eqn:Hrefreshed; cbn [snd] in Href;
      destruct Href as (Hrc2 & Hsl2 & Hat2).
    + (* the refresh succeeded: [send] has the response in hand *)
      destruct (send_on_error_response env config depth message w w' response
                  Hsent Hcode) as (Hyes & Hno).
      fold r in Hyes, Hno.
      split; [|split; [|split; [|exact Hnots]]].
      * split.
        -- intros Hgrow.
           destruct (Sender.shouldRetry config (errcode response) (retryCount w))
             eqn:Hshould.
           ++ destruct (proj1 Hretry eq_refl) as (Hin & Hbudget).
              split; [exact Hin|]. split; [exact Hbudget|].
              intros _. exists w'. reflexivity.
           ++ destruct (Hno eq_refl) as (_ & _ & Hsame). lia.
        -- intros (Hin & Hbudget & _). apply Hyes. apply Hretry. tauto.
      * intros Hnotin. exfalso. apply Hnotin. apply Hauthin. reflexivity.
      * intros _ e0 w0' H. discriminate H.
    + (* the refresh failed: its error leaves [send] with the code 500 *)
      specialize (Hplain e w' eq_refl).
      assert (Hr : r = (Thrown (Sender.newWeComSendError (exn_message e) 500
                                                         message), w')).
      { unfold r, Sender.send. rewrite run_sendFuel, Hsent.
        destruct e as [n m|m c o]; [|contradiction].
        cbn [exn_name exn_message plainError] in Hplain |- *.
        rewrite Hplain. reflexivity. }
      assert (Hsame : retries (snd r) = retries w
                      /\ sendAttempts (snd r) = S (sendAttempts w)).
      { rewrite Hr. cbn [snd]. unfold retries. rewrite Hsl2, Hsl1, Hat2, Hat1.
        split; reflexivity. }
      destruct Hsame as (Hre & Hat).
      split; [|split; [|split; [|exact Hnots]]].
      * split; [lia|]. intros (_ & _ & Hok).
        destruct (Hok eq_refl) as (w'' & H). discriminate H.
      * intros Hnotin. exfalso. apply Hnotin. apply Hauthin. reflexivity.
      * intros _ e0 w0' H. inversion H; subst e0 w0'.
        split; [exact Hr|]. split; assumption.
    + (* the refresh does not complete *)
      assert (Hr : r = (Exhausted, w')).
      { unfold r, Sender.send. rewrite run_sendFuel, Hsent. reflexivity. }
      assert (Hre : retries (snd r) = retries w).
      { rewrite Hr. cbn [snd]. unfold retries. rewrite Hsl2, Hsl1.
        reflexivity. }
      split; [|split; [|split; [|exact Hnots]]].
      * split; [lia|]. intros (_ & _ & Hok).
        destruct (Hok eq_refl) as (w'' & H). discriminate H.
      * intros Hnotin. exfalso. apply Hnotin. apply Hauthin. reflexivity.
      * intros _ e0 w0' H. discriminate H.
  - (* any other code: [send] has the response in hand *)
    destruct (send_on_error_response env config depth message w posted response
                Hsent Hcode) as (Hyes & Hno).
    fold r in Hyes, Hno.
    split; [|split; [|split; [|exact Hnots]]].
    + split.
      * intros Hgrow.
        destruct (Sender.shouldRetry config (errcode response) (retryCount w))
          eqn:Hshould.
        -- destruct (proj1 Hretry eq_refl) as (Hin & Hbudget).
           split; [exact Hin|]. split; [exact Hbudget|]. discriminate.
        -- destruct (Hno eq_refl) as (_ & _ & Hsame). lia.
      * intros (Hin & Hbudget & _). apply Hyes. apply Hretry. tauto.
    + intros Hnotin.
      apply Hno. destruct (Sender.shouldRetry config (errcode response)
                             (retryCount w)) eqn:Hshould; [|reflexivity].
      destruct (proj1 Hretry eq_refl) as (Hin & _). contradiction.
    + discriminate.
Qed.

Lemma send_retries_iff_retryable_and_refreshed_witness :
  let env := vendorAnswering 60111 "userid not found" in
  let r := run env (Sender.send sampleConfig 0 sampleMessage) freshWorld in
  fst r = Thrown (Sender.newWeComSendError "userid not found" 60111 sampleMessage)
  /\ sendAttempts (snd r) = 1%nat /\ retries (snd r) = 0%nat.
Proof.
  intros env r.
  destruct (send_retries_iff_retryable_and_refreshed
              env sampleConfig 0 sampleMessage freshWorld
              (snd (run env (ApiClient.getAccessToken sampleConfig 0) freshWorld))
              "TOKEN" (mkJson 60111 "userid not found" None 0 None))
    as (_ & Hother & _).
  - vm_compute. reflexivity.
  - reflexivity.
  - simpl. discriminate.
  - destruct Hother as (Hr & Hat & Hre).
    + simpl. intuition discriminate.
    + fold r in Hr, Hat, Hre. rewrite Hr at 1. repeat split; assumption.
Defined.

(** C3, as stated, fails.  The send endpoint answers the post with 42001, a
    code of the retryable set, on a fresh sender with all its budget, while
    the token endpoint is down: the refresh that [request] makes on this
    answer throws, and [send] ends after that one send attempt with no retry
    and a [WeComSendError] whose code is 500. *)
Lemma send_retryable_code_without_retry_counterexample :
  let message := Sender.toWeComMessage sampleConfig sampleMessage in
  let r := run vendorExpiredTokenDown
               (Sender.send sampleConfig 0 sampleMessage) worldWithToken in
  fetch_reply vendorExpiredTokenDown 0 (ReqSendMessage "CACHED" message)
  = FetchJson (mkJson 42001 "access_token expired" None 0 None)
  /\ In 42001 Sender.retryableErrors
  /\ Z.of_nat (retryCount worldWithToken) < Sender.maxRetriesOrDefault sampleConfig
  /\ fetchLog (snd r)
     = [ReqSendMessage "CACHED" message; tokenRequest sampleConfig]
  /\ retries (snd r) = retries worldWithToken
  /\ fst r = Thrown (Sender.newWeComSendError "fetch failed" 500 sampleMessage).
Proof.
  vm_compute. repeat split; auto.
Qed.







(** ** Claims about the API client *)



Section ConcurrentCallers.

Variable env : Env.
Variable config : WeComConfig.
Variable depth : nat.

Hypothesis Hcredentials : hasCredentials config.

(** A call of [getAccessToken] that finds the token stale issues its own
    request to the token endpoint and is suspended on it; the token field
    is not touched before the answer. *)
Lemma call_getAccessToken_stale (w : World) :
  tokenStale env w ->
  exists r k w',
    Loop.runSync env (ApiClient.getAccessToken config depth) w
    = (Loop.AwaitFetch r k, w')
    /\ isTokenRequest r = true
    /\ tokenCalls w' = S (tokenCalls w)
    /\ accessToken w' = accessToken w.
Proof.
  intros Hstale. destruct Hcredentials as (Hid & Hsecret).
  unfold ApiClient.getAccessToken, tokenStale in *.
  cbn [bind readToken Loop.runSync].
  destruct (accessToken w) as [t|] eqn:Htok.
  - cbn [bind dateNow Loop.runSync]. rewrite Hstale.
    rewrite refreshAccessToken_unfold. unfold ApiClient.refreshBody.
    rewrite Hid, Hsecret. cbn.
    eexists; eexists; eexists. split; [reflexivity|].
    rewrite tokenCalls_logFetch. cbn. repeat split; auto.
    unfold tokenCalls. cbn. lia.
  - rewrite refreshAccessToken_unfold. unfold ApiClient.refreshBody.
    rewrite Hid, Hsecret. cbn.
    eexists; eexists; eexists. split; [reflexivity|].
    rewrite tokenCalls_logFetch. cbn. repeat split; auto. lia.
Qed.

Lemma inFlight_app (l1 l2 : list (Loop.Task string)) :
  length (filter Loop.inFlight (l1 ++ l2))
  = (length (filter Loop.inFlight l1) + length (filter Loop.inFlight l2))%nat.
Proof.
  rewrite filter_app, length_app. reflexivity.
Qed.

Lemma steps_cons (s : Loop.State string) (ev : Loop.Event string)
      (evs : list (Loop.Event string)) :
  Loop.steps env s (ev :: evs) = Loop.steps env (Loop.step env s ev) evs.
Proof. reflexivity. Qed.

Lemma calls_getAccessToken_stale (n : nat) :
  forall s : Loop.State string,
    tokenStale env (Loop.world s) ->
    let s' := Loop.steps env s
                (repeat (Loop.Call (ApiClient.getAccessToken config depth)) n) in
    tokenCalls (Loop.world s') = (tokenCalls (Loop.world s) + n)%nat
    /\ length (filter Loop.inFlight (Loop.tasks s'))
       = (length (filter Loop.inFlight (Loop.tasks s)) + n)%nat
    /\ accessToken (Loop.world s') = accessToken (Loop.world s).
Proof.
  induction n as [|n IH]; intros s Hstale; cbv zeta.
  - cbn. repeat split; lia.
  - cbn [repeat]. rewrite steps_cons.
    destruct (call_getAccessToken_stale (Loop.world s) Hstale)
      as (r & k & w' & Hrun & Hreq & Hcalls & Htok).
    cbn [Loop.step]. rewrite Hrun.
    set (s1 := Loop.mkState w' (Loop.tasks s ++ [Loop.AwaitFetch r k])).
    assert (Hstale1 : tokenStale env (Loop.world s1)).
    { unfold tokenStale in *. cbn [s1 Loop.world]. rewrite Htok. exact Hstale. }
    destruct (IH s1 Hstale1) as (H1 & H2 & H3).
    rewrite H1, H2, H3.
    cbn [s1 Loop.world Loop.tasks]. rewrite inFlight_app.
    cbn [filter Loop.inFlight]. rewrite Hreq. cbn [length].
    repeat split; try lia. exact Htok.
Qed.

End ConcurrentCallers.

(** C2 (amended).  Callers of [getAccessToken] that arrive while the token is
    absent or expired, before any refresh has completed, each start a refresh
    of their own: [n] such calls make [n] network calls to the token endpoint
    and leave [n] more refreshes in flight.  No pending refresh is shared. *)
Theorem concurrent_getAccessToken_calls_each_refresh
        (env : Env) (config : WeComConfig) (depth n : nat)
        (s : Loop.State string) :
  hasCredentials config ->
  tokenStale env (Loop.world s) ->
  let s' := Loop.steps env s
              (repeat (Loop.Call (ApiClient.getAccessToken config depth)) n) in
  tokenCalls (Loop.world s') = (tokenCalls (Loop.world s) + n)%nat
  /\ length (filter Loop.inFlight (Loop.tasks s'))
     = (length (filter Loop.inFlight (Loop.tasks s)) + n)%nat.
Proof.
  intros Hcred Hstale s'.
  destruct (calls_getAccessToken_stale env config depth Hcred n s Hstale)
    as (H1 & H2 & _).
  split; assumption.
Qed.

Lemma concurrent_getAccessToken_calls_each_refresh_witness :
  let s' := Loop.steps (vendorAnswering 0 "ok") (Loop.mkState freshWorld [])
              (repeat (Loop.Call (ApiClient.getAccessToken sampleConfig 0)) 5) in
  tokenCalls (Loop.world s') = 5%nat
  /\ length (filter Loop.inFlight (Loop.tasks s')) = 5%nat.
Proof.
  apply (concurrent_getAccessToken_calls_each_refresh
           (vendorAnswering 0 "ok") sampleConfig 0 5
           (Loop.mkState freshWorld [])).
  - split; reflexivity.
  - exact I.
Defined.

(** C2, as stated, fails: two calls made while no token is cached make two
    network calls to the token endpoint. *)
Lemma concurrent_getAccessToken_single_call_counterexample :
  ~ (tokenCalls
       (Loop.world
          (Loop.steps (vendorAnswering 0 "ok") (Loop.mkState freshWorld [])
                      [Loop.Call (ApiClient.getAccessToken sampleConfig 0);
                       Loop.Call (ApiClient.getAccessToken sampleConfig 0)]))
     <= 1)%nat.
Proof.
  vm_compute. intros H. inversion H as [|m H1]. inversion H1.
Qed.

(** ** Claims about the adapter *)

Lemma execLoop_step (text : string) :
  Adapter.execLoop text
  = match Adapter.mentionExec text with
    | Some (m, rest) => m :: Adapter.execLoop rest
    | None => []
    end.
Proof.
  funelim (Adapter.execLoop text);
    match goal with
    | Hexec : Adapter.mentionExec _ = _ |- _ => rewrite Hexec
    end; reflexivity.
Qed.

Lemma prefix_append (p t : string) : String.prefix p (p ++ t) = true.
Proof.
  induction p as [|c p IH]; simpl; [destruct t; reflexivity|].
  destruct (ascii_dec c c) as [_|Hneq]; [exact IH|congruence].
Qed.

Lemma applyPrefix_prefixed (prefix text : string) :
  Js.startsWith text prefix = true ->
  Adapter.applyPrefix (Some prefix) text = text.
Proof.
  intros Hstarts. unfold Adapter.applyPrefix. rewrite Hstarts.
  rewrite andb_false_r. reflexivity.
Qed.

Lemma applyPrefix_idempotent (messagePrefix : option string) (text : string) :
  Adapter.applyPrefix messagePrefix (Adapter.applyPrefix messagePrefix text)
  = Adapter.applyPrefix messagePrefix text.
Proof.
  destruct messagePrefix as [prefix|]; [|reflexivity].
  assert (Hstep : Adapter.applyPrefix (Some prefix) text
                  = if Js.truthy prefix && negb (Js.startsWith text prefix)
                    then prefix ++ text else text) by reflexivity.
  destruct (Js.truthy prefix && negb (Js.startsWith text prefix)) eqn:Hcond;
    rewrite Hstep.
  - apply applyPrefix_prefixed. unfold Js.startsWith. apply prefix_append.
  - unfold Adapter.applyPrefix. rewrite Hcond. reflexivity.
Qed.

(** C6.  Translating the direct message [{peer: {kind: dm, id: "u1"}, text:
    "hi"}] with the prefix ["[AI] "] gives an envelope whose text content is
    ["[AI] hi"]; a text that already starts with the prefix is left as it is;
    and applying the prefix step twice is the same as applying it once. *)
Theorem prefix_applied_once
        (agentId timestamp : Z) (name id channel accountId : string) :
  c_content
    (content
       (Adapter.toWeComMessage agentId (Some "[AI] ")
          (mkMessage (mkPeer dm "u1" name) (Some "hi") None None None timestamp
                     id channel accountId None None None)))
  = Some "[AI] hi"
  /\ (forall prefix text,
        Js.startsWith text prefix = true ->
        Adapter.applyPrefix (Some prefix) text = text)
  /\ (forall messagePrefix text,
        Adapter.applyPrefix messagePrefix
          (Adapter.applyPrefix messagePrefix text)
        = Adapter.applyPrefix messagePrefix text).
Proof.
  split; [reflexivity|]. split.
  - apply applyPrefix_prefixed.
  - apply applyPrefix_idempotent.
Qed.

Lemma prefix_applied_once_witness :
  Adapter.applyPrefix (Some "[AI] ") "[AI] hi" = "[AI] hi".
Proof.
  apply (proj1 (proj2 (prefix_applied_once 1000001 0 "u1" "msg-1" "wecom"
                                           "1000001"))).
  reflexivity.
Defined.

(** C7.  [extractMentionedUsers] on ["@zhangsan @lisi 请参加会议"] returns
    [["zhangsan"; "lisi"]], in the order of occurrence, and [buildMentionText]
    on [["a"; "b"]] and ["go"] returns ["@a @b"], a line feed, and ["go"]. *)
Theorem mention_utilities_examples :
  Adapter.extractMentionedUsers "@zhangsan @lisi 请参加会议"
  = ["zhangsan"; "lisi"]%string
  /\ Adapter.buildMentionText ["a"; "b"]%string "go"
     = "@a @b" ++ Js.nl ++ "go".
Proof.
  split; reflexivity.
Qed.

(** C9.  An envelope made by [toWeComMessage] sets exactly one of [touser],
    [toparty] and [totag]: for a [dm] peer only [touser], to the peer's id;
    for a [group] peer only [toparty], to the peer's id. *)
Theorem envelope_has_one_recipient
        (agentId : Z) (messagePrefix : option string) (msg : ChannelMessage) :
  let envelope := Adapter.toWeComMessage agentId messagePrefix msg in
  recipientsSet envelope = 1%nat
  /\ (peer_kind (msg_peer msg) = dm ->
      touser envelope = Some (peer_id (msg_peer msg))
      /\ toparty envelope = None /\ totag envelope = None)
  /\ (peer_kind (msg_peer msg) = group ->
      toparty envelope = Some (peer_id (msg_peer msg))
      /\ touser envelope = None /\ totag envelope = None).
Proof.
  cbv zeta. unfold Adapter.toWeComMessage.
  assert (Hmedia : forall media t p,
             touser (Adapter.createMediaMessage agentId media t p) = t
             /\ toparty (Adapter.createMediaMessage agentId media t p) = p
             /\ totag (Adapter.createMediaMessage agentId media t p) = None).
  { intros media t p. unfold Adapter.createMediaMessage.
    repeat match goal with
           | |- context [if ?b then _ else _] => destruct b
           end; repeat split. }
  destruct (msg_media msg) as [[|mediaItem rest]|];
    destruct (peer_kind (msg_peer msg)); unfold recipientsSet;
    try destruct (Hmedia mediaItem (Some (peer_id (msg_peer msg))) None)
      as (H1 & H2 & H3);
    try destruct (Hmedia mediaItem None (Some (peer_id (msg_peer msg))))
      as (H4 & H5 & H6);
    try rewrite H1, H2, H3; try rewrite H4, H5, H6;
    repeat split; intros; try discriminate; reflexivity.
Qed.

Lemma envelope_has_one_recipient_witness :
  touser (Adapter.toWeComMessage 1000001 (Some "[AI] ") sampleMessage) = Some "u1"
  /\ toparty (Adapter.toWeComMessage 1000001 (Some "[AI] ") sampleMessage) = None
  /\ totag (Adapter.toWeComMessage 1000001 (Some "[AI] ") sampleMessage) = None.
Proof.
  apply (proj1 (proj2 (envelope_has_one_recipient 1000001 (Some "[AI] ")
                                                  sampleMessage))).
  reflexivity.
Defined.

Lemma addContent_peer (msg : WeComReceivedMessage) (m : ChannelMessage) :
  msg_peer (Adapter.addContent msg m) = msg_peer m.
Proof.
  unfold Adapter.addContent.
  repeat match goal with
         | |- context [if ?b then _ else _] => destruct b
         | |- context [match Content msg with _ => _ end] =>
             destruct (Content msg)
         | |- context [match Adapter.mentionExec ?c with _ => _ end] =>
             destruct (Adapter.mentionExec c) as [[? ?]|]
         end; reflexivity.
Qed.

Lemma addEvent_peer (msg : WeComReceivedMessage) (m : ChannelMessage) :
  msg_peer (Adapter.addEvent msg m) = msg_peer m.
Proof.
  unfold Adapter.addEvent.
  destruct (Event msg) as [ev|]; [|reflexivity].
  repeat match goal with
         | |- context [if ?b then _ else _] => destruct b
         end; reflexivity.
Qed.

(** C10.  Whatever the vendor message, [fromWeComMessage] gives a peer of
    kind [dm] whose id and name are both [FromUserName]. *)
Theorem inbound_peer_is_dm (msg : WeComReceivedMessage) :
  msg_peer (Adapter.fromWeComMessage msg)
  = mkPeer dm (FromUserName msg) (FromUserName msg).
Proof.
  unfold Adapter.fromWeComMessage.
  rewrite addEvent_peer, addContent_peer. reflexivity.
Qed.

Lemma addEvent_mentions (msg : WeComReceivedMessage) (m : ChannelMessage) :
  msg_mentions (Adapter.addEvent msg m) = msg_mentions m.
Proof.
  unfold Adapter.addEvent.
  destruct (Event msg) as [ev|]; [|reflexivity].
  repeat match goal with
         | |- context [if ?b then _ else _] => destruct b
         end; reflexivity.
Qed.

Lemma addEvent_text (msg : WeComReceivedMessage) (m : ChannelMessage) :
  eventReplacesText (Event msg) = false ->
  msg_text (Adapter.addEvent msg m) = msg_text m.
Proof.
  unfold Adapter.addEvent, eventReplacesText.
  destruct (Event msg) as [ev|]; [|reflexivity].
  destruct (Js.truthy ev); [|reflexivity].
  cbn [andb].
  destruct (ev =? "subscribe")%string; [discriminate|].
  destruct (ev =? "unsubscribe")%string; [discriminate|].
  destruct (ev =? "enter_agent")%string; [discriminate|].
  reflexivity.
Qed.

Lemma addContent_text (msg : WeComReceivedMessage) (c : string)
      (m : ChannelMessage) :
  MsgType msg = "text" ->
  Content msg = Some c ->
  Js.truthy c = true ->
  Adapter.addContent msg m
  = match Adapter.mentionExec c with
    | Some (leftmost, _) =>
        Adapter.setMentions (Adapter.setText m c) [mkMention leftmost leftmost]
    | None => Adapter.setText m c
    end.
Proof.
  intros Htype Hcontent Htruthy. unfold Adapter.addContent.
  rewrite Htype, Hcontent, Htruthy. reflexivity.
Qed.

(** C8 (amended).  For an inbound message with [MsgType] [text] and a
    non-empty [Content]: unless the message also carries one of the events
    [subscribe], [unsubscribe] or [enter_agent], the translated text is the
    [Content] as it is; and the mentions list is absent when the [Content] has
    no [@token], and otherwise starts with the leftmost [@token] of the
    [Content]. *)
Theorem inbound_text_and_leftmost_mention
        (msg : WeComReceivedMessage) (c : string) :
  MsgType msg = "text" ->
  Content msg = Some c ->
  c <> "" ->
  let m := Adapter.fromWeComMessage msg in
  (eventReplacesText (Event msg) = false -> msg_text m = Some c)
  /\ match Adapter.extractMentionedUsers c with
     | [] => msg_mentions m = None
     | leftmost :: _ =>
         exists others,
           msg_mentions m = Some (mkMention leftmost leftmost :: others)
     end.
Proof.
  intros Htype Hcontent Hnonempty m.
  assert (Htruthy : Js.truthy c = true).
  { unfold Js.truthy. destruct (String.eqb_spec c ""); [contradiction|reflexivity]. }
  unfold m, Adapter.fromWeComMessage.
  rewrite addEvent_mentions.
  unfold Adapter.extractMentionedUsers. rewrite execLoop_step.
  split.
  - intros Hevent. rewrite addEvent_text by exact Hevent.
    rewrite (addContent_text msg c) by assumption.
    destruct (Adapter.mentionExec c) as [[leftmost rest]|]; reflexivity.
  - rewrite (addContent_text msg c) by assumption.
    destruct (Adapter.mentionExec c) as [[leftmost rest]|].
    + exists []. reflexivity.
    + reflexivity.
Qed.

Lemma inbound_text_and_leftmost_mention_witness :
  let m := Adapter.fromWeComMessage (sampleReceived "@a @b" None) in
  msg_text m = Some "@a @b"
  /\ exists others, msg_mentions m = Some (mkMention "a" "a" :: others).
Proof.
  intros m.
  destruct (inbound_text_and_leftmost_mention (sampleReceived "@a @b" None)
                                              "@a @b")
    as (Htext & Hmentions).
  - reflexivity.
  - reflexivity.
  - discriminate.
  - split; [apply Htext; reflexivity|exact Hmentions].
Defined.

(** C8, as stated, fails.  Of the two tokens of ["@a @b"] only the first is
    in the mentions list; and with the event [subscribe] the text is not the
    [Content]. *)
Lemma inbound_mentions_every_token_counterexample :
  msg_mentions (Adapter.fromWeComMessage (sampleReceived "@a @b" None))
  <> Some (map (fun u => mkMention u u) (Adapter.extractMentionedUsers "@a @b"))
  /\ msg_text (Adapter.fromWeComMessage (sampleReceived "hello" (Some "subscribe")))
     <> Some "hello".
Proof.
  split; vm_compute; discriminate.
Qed.

(** * Further properties *)

(** ** Mentions *)

Lemma takeWord_app (w rest : string) :
  allWordChars w = true ->
  match rest with
  | String c _ => Js.isWordChar c = false
  | EmptyString => True
  end ->
  Adapter.takeWord (w ++ rest) = (w, rest).
Proof.
  intros Hw Hrest. induction w as [|c w IH]; simpl in *.
  - destruct rest as [|c r]; [reflexivity|]. simpl. rewrite Hrest. reflexivity.
  - apply andb_true_iff in Hw. destruct Hw as (Hc & Hw).
    rewrite Hc, (IH Hw). reflexivity.
Qed.

Lemma mentionExec_at (w rest : string) :
  isWord w ->
  match rest with
  | String c _ => Js.isWordChar c = false
  | EmptyString => True
  end ->
  Adapter.mentionExec ("@" ++ w ++ rest) = Some (w, rest).
Proof.
  intros (Hne & Hw) Hrest. simpl.
  rewrite (takeWord_app w rest Hw Hrest).
  destruct w; [contradiction|reflexivity].
Qed.

Lemma execLoop_skip (c : ascii) (s : string) :
  (c =? "@")%char = false ->
  Adapter.execLoop (String c s) = Adapter.execLoop s.
Proof.
  intros Hc. rewrite (execLoop_step (String c s)), (execLoop_step s).
  simpl. rewrite Hc. reflexivity.
Qed.

Lemma string_app_assoc (a b c : string) : ((a ++ b) ++ c = a ++ (b ++ c))%string.
Proof.
  induction a as [|x a IH]; simpl; [reflexivity|]. rewrite IH. reflexivity.
Qed.

Lemma execLoop_mentions (userIds : list string) (tail : string) :
  Forall isWord userIds ->
  match tail with
  | String c _ => Js.isWordChar c = false
  | EmptyString => True
  end ->
  Adapter.execLoop (Js.join " " (map (fun id => "@" ++ id) userIds) ++ tail)
  = (userIds ++ Adapter.execLoop tail)%list.
Proof.
  intros Hwords Htail. induction Hwords as [|id rest Hid Hrest IH].
  - reflexivity.
  - destruct rest as [|id' rest'].
    + cbn [map Js.join]. rewrite execLoop_step.
      replace (("@" ++ id) ++ tail) with ("@" ++ id ++ tail) by reflexivity.
      rewrite (mentionExec_at id tail Hid Htail). reflexivity.
    + replace (Js.join " " (map (fun i => "@" ++ i) (id :: id' :: rest')) ++ tail)
        with ("@" ++ id ++ String " "
                (Js.join " " (map (fun i => "@" ++ i) (id' :: rest')) ++ tail)).
      * rewrite execLoop_step.
        rewrite (mentionExec_at id
                   (String " "
                      (Js.join " " (map (fun i => "@" ++ i) (id' :: rest'))
                       ++ tail)) Hid) by reflexivity.
        cbn [app]. f_equal.
        rewrite execLoop_skip by reflexivity. exact IH.
      * cbn [map Js.join]. rewrite !string_app_assoc. reflexivity.
Qed.

(** X1.  Reading back what [buildMentionText] wrote: for user ids made of
    word characters, [extractMentionedUsers] on the built text returns the
    ids, in order, followed by the mentions of the body. *)
Theorem extract_after_build (userIds : list string) (text : string) :
  Forall isWord userIds ->
  Adapter.extractMentionedUsers (Adapter.buildMentionText userIds text)
  = (userIds ++ Adapter.extractMentionedUsers text)%list.
Proof.
  intros Hwords. unfold Adapter.extractMentionedUsers, Adapter.buildMentionText.
  destruct userIds as [|id rest]; [reflexivity|].
  rewrite (execLoop_mentions (id :: rest) (Js.nl ++ text) Hwords)
    by reflexivity.
  f_equal. apply execLoop_skip. reflexivity.
Qed.

Lemma extract_after_build_witness :
  Adapter.extractMentionedUsers
    (Adapter.buildMentionText ["zhangsan"; "li_4"]%string "see @wangwu")
  = ["zhangsan"; "li_4"; "wangwu"]%string.
Proof.
  rewrite (extract_after_build ["zhangsan"; "li_4"]%string "see @wangwu").
  - reflexivity.
  - repeat constructor; discriminate.
Defined.

Lemma takeWord_word (s : string) : allWordChars (fst (Adapter.takeWord s)) = true.
Proof.
  induction s as [|c s IH]; simpl; [reflexivity|].
  destruct (Js.isWordChar c) eqn:Hc; [|reflexivity].
  destruct (Adapter.takeWord s) as [w rest]. simpl in *. rewrite Hc, IH.
  reflexivity.
Qed.

Lemma mentionExec_word (s m rest : string) :
  Adapter.mentionExec s = Some (m, rest) -> isWord m.
Proof.
  induction s as [|c s IH]; simpl; [discriminate|].
  destruct (c =? "@")%char; [|exact IH].
  pose proof (takeWord_word s) as Hw.
  destruct (Adapter.takeWord s) as [w r]. simpl in Hw.
  destruct w as [|x w]; [exact IH|].
  intros H. inversion H; subst. split; [discriminate|exact Hw].
Qed.

Lemma wordChar_not_at (c : ascii) :
  Js.isWordChar c = true -> (c =? "@")%char = false.
Proof.
  intros Hw. destruct (Ascii.eqb_spec c "@") as [->|]; [|reflexivity].
  discriminate Hw.
Qed.

Lemma takeWord_countAt (s : string) :
  countAt (snd (Adapter.takeWord s)) = countAt s.
Proof.
  induction s as [|c s IH]; simpl; [reflexivity|].
  destruct (Js.isWordChar c) eqn:Hc; [|reflexivity].
  rewrite (wordChar_not_at c Hc).
  destruct (Adapter.takeWord s) as [w rest]. exact IH.
Qed.

Lemma mentionExec_countAt (s m rest : string) :
  Adapter.mentionExec s = Some (m, rest) -> (countAt rest < countAt s)%nat.
Proof.
  induction s as [|c s IH]; simpl; [discriminate|].
  destruct (c =? "@")%char.
  - pose proof (takeWord_countAt s) as Hcount.
    destruct (Adapter.takeWord s) as [w r]. simpl in Hcount.
    destruct w as [|x w].
    + intros H. apply IH in H. lia.
    + intros H. inversion H; subst. lia.
  - exact IH.
Qed.

(** X2.  Every mention that [extractMentionedUsers] returns has at least one
    character and only word characters, and there are at most as many
    mentions as the text has [@] characters. *)
Theorem extracted_mentions_are_words (text : string) :
  Forall isWord (Adapter.extractMentionedUsers text)
  /\ (length (Adapter.extractMentionedUsers text) <= countAt text)%nat.
Proof.
  unfold Adapter.extractMentionedUsers.
  funelim (Adapter.execLoop text).
  - match goal with
    | Hexec : Adapter.mentionExec _ = Some _, IH : _ /\ _ |- _ =>
        destruct IH as (IHwords & IHcount);
        pose proof (mentionExec_word _ _ _ Hexec) as Hword;
        pose proof (mentionExec_countAt _ _ _ Hexec) as Hcount
    end.
    split; [constructor; assumption|simpl; lia].
  - split; [constructor|simpl; lia].
Qed.

(** ** Outbound envelopes *)

Lemma applyPrefix_starts (prefix text : string) :
  Js.truthy prefix = true ->
  Js.startsWith (Adapter.applyPrefix (Some prefix) text) prefix = true.
Proof.
  intros Htruthy. unfold Adapter.applyPrefix. rewrite Htruthy. cbn [andb].
  destruct (Js.startsWith text prefix) eqn:Hstarts; cbn [negb].
  - exact Hstarts.
  - unfold Js.startsWith. apply prefix_append.
Qed.

(** X3.  With a non-empty prefix configured, the text envelope of a message
    that has no attachment and is not a reply carries a content that starts
    with the prefix, whatever the text (none at all included). *)
Theorem text_envelope_starts_with_prefix
        (agentId : Z) (prefix : string) (msg : ChannelMessage) :
  prefix <> "" ->
  msg_media msg = None \/ msg_media msg = Some [] ->
  msg_replyTo msg = None ->
  let envelope := Adapter.toWeComMessage agentId (Some prefix) msg in
  msgtype envelope = mt_text
  /\ exists text,
       c_content (content envelope) = Some text
       /\ Js.startsWith text prefix = true.
Proof.
  intros Hprefix Hmedia Hreply envelope.
  assert (Htruthy : Js.truthy prefix = true).
  { unfold Js.truthy.
    destruct (String.eqb_spec prefix ""); [contradiction|reflexivity]. }
  unfold envelope, Adapter.toWeComMessage. rewrite Hreply.
  destruct Hmedia as [Hmedia|Hmedia]; rewrite Hmedia; cbn;
    (split; [reflexivity|]); eexists; (split; [reflexivity|]);
    apply applyPrefix_starts; exact Htruthy.
Qed.

Lemma text_envelope_starts_with_prefix_witness :
  exists text,
    c_content (content (Adapter.toWeComMessage 1000001 (Some "[AI] ")
                          sampleMessage)) = Some text
    /\ Js.startsWith text "[AI] " = true.
Proof.
  apply (text_envelope_starts_with_prefix 1000001 "[AI] " sampleMessage).
  - discriminate.
  - left. reflexivity.
  - reflexivity.
Defined.

(** X4.  When a message has attachments, the envelope is made from the peer
    and the first attachment alone: the text, the prefix, the reply
    attribution and the other attachments are not in it.  For the types
    [image], [video], [audio] and [file] the envelope has the vendor kind of
    the type and the attachment's [url] as [media_id]. *)
Theorem media_envelope_from_first_attachment
        (agentId : Z) (prefix1 prefix2 : option string)
        (msg1 msg2 : ChannelMessage) (item : ChannelMedia)
        (rest1 rest2 : list ChannelMedia) :
  msg_media msg1 = Some (item :: rest1) ->
  msg_media msg2 = Some (item :: rest2) ->
  msg_peer msg1 = msg_peer msg2 ->
  Adapter.toWeComMessage agentId prefix1 msg1
  = Adapter.toWeComMessage agentId prefix2 msg2
  /\ (forall kind,
        vendorKind (media_type item) = Some kind ->
        msgtype (Adapter.toWeComMessage agentId prefix1 msg1) = kind
        /\ c_media_id (content (Adapter.toWeComMessage agentId prefix1 msg1))
           = Some (media_url item)).
Proof.
  intros Hmedia1 Hmedia2 Hpeer.
  unfold Adapter.toWeComMessage. rewrite Hmedia1, Hmedia2, Hpeer.
  split; [reflexivity|].
  intros kind Hkind. unfold vendorKind in Hkind.
  unfold Adapter.createMediaMessage.
  destruct (media_type item =? "image")%string eqn:Himage;
    [|destruct (media_type item =? "video")%string eqn:Hvideo;
      [|destruct (media_type item =? "audio")%string eqn:Haudio;
        [|destruct (media_type item =? "file")%string eqn:Hfile;
          [|discriminate]]]];
    inversion Hkind; subst kind;
    repeat match goal with
           | |- context [if ?b then _ else _] => destruct b
           end; split; reflexivity.
Qed.

Lemma media_envelope_from_first_attachment_witness :
  let item := mkMedia "audio" "media-1" (Some "memo") in
  let msg1 := mkMessage samplePeer (Some "hi") (Some [item]) None None 0
                        "m1" "wecom" "1" None None None in
  let msg2 := mkMessage samplePeer None (Some [item; item]) (Some sampleMessage)
                        None 5 "m2" "wecom" "1" None None None in
  Adapter.toWeComMessage 7 (Some "[AI] ") msg1 = Adapter.toWeComMessage 7 None msg2
  /\ msgtype (Adapter.toWeComMessage 7 (Some "[AI] ") msg1) = mt_voice.
Proof.
  intros item msg1 msg2.
  destruct (media_envelope_from_first_attachment
              7 (Some "[AI] ") None msg1 msg2 item [] [item])
    as (Hsame & Hkind); try reflexivity.
  split; [exact Hsame|].
  apply (Hkind mt_voice). reflexivity.
Defined.

(** ** Inbound messages *)

Ltac split_ifs :=
  repeat match goal with
         | |- context [if ?b then _ else _] => destruct b
         | |- context [match ?o with Some _ => _ | None => _ end] =>
             destruct o
         end.

(** X5.  Whatever the kind and the event of a vendor message whose
    [CreateTime] in milliseconds and whose [AgentID] are safe integers, the
    translated message has the vendor's [CreateTime] in milliseconds as
    timestamp, its [MsgId] as id, the channel ["wecom"], the decimal
    [AgentID] as account id, and no reply reference. *)
Theorem inbound_header (msg : WeComReceivedMessage) :
  Z.abs (CreateTime msg) * 1000 <= maxSafeInteger ->
  Z.abs (AgentID msg) <= maxSafeInteger ->
  let m := Adapter.fromWeComMessage msg in
  msg_timestamp m = CreateTime msg * 1000
  /\ msg_id m = MsgId msg
  /\ msg_channel m = "wecom"
  /\ msg_accountId m = Js.numToString (AgentID msg)
  /\ msg_replyTo m = None.
Proof.
  intros _ _.
  cbv zeta. unfold Adapter.fromWeComMessage, Adapter.addEvent, Adapter.addContent.
  destruct (Event msg) as [ev|].
  - destruct (Js.truthy ev);
      [destruct (ev =? "subscribe")%string;
       [|destruct (ev =? "unsubscribe")%string;
         [|destruct (ev =? "enter_agent")%string]]|];
      destruct (MsgType msg =? "text")%string;
      try destruct (Content msg) as [c|];
      try destruct (Js.truthy c);
      try destruct (Adapter.mentionExec c) as [[x y]|];
      split_ifs; repeat split.
  - destruct (MsgType msg =? "text")%string;
      try destruct (Content msg) as [c|];
      try destruct (Js.truthy c);
      try destruct (Adapter.mentionExec c) as [[x y]|];
      split_ifs; repeat split.
Qed.

Lemma inbound_header_witness :
  let m := Adapter.fromWeComMessage (sampleReceived "hello" (Some "subscribe")) in
  msg_timestamp m = 1700000000000
  /\ msg_id m = "id-1"
  /\ msg_channel m = "wecom"
  /\ msg_accountId m = "1000001"
  /\ msg_replyTo m = None.
Proof.
  apply (inbound_header (sampleReceived "hello" (Some "subscribe"))).
  - vm_compute. discriminate.
  - vm_compute. discriminate.
Defined.

Lemma addEvent_media (msg : WeComReceivedMessage) (m : ChannelMessage) :
  msg_media (Adapter.addEvent msg m) = msg_media m.
Proof.
  unfold Adapter.addEvent.
  destruct (Event msg) as [ev|]; [|reflexivity].
  repeat match goal with
         | |- context [if ?b then _ else _] => destruct b
         end; reflexivity.
Qed.

(** X6.  A vendor message of kind [image], [voice], [video] or [file] with a
    [MediaId] is translated to exactly one attachment: its type is the
    channel's name of the kind ([voice] becomes [audio]), its [url] the
    [MediaId], its caption the [Content].  An [image] without [MediaId] takes
    the [PicUrl] instead. *)
Theorem inbound_media_single_attachment
        (msg : WeComReceivedMessage) (type : string) :
  channelMediaType (MsgType msg) = Some type ->
  let m := Adapter.fromWeComMessage msg in
  (forall mediaId,
      MediaId msg = Some mediaId -> mediaId <> "" ->
      msg_media m = Some [mkMedia type mediaId (Content msg)])
  /\ (forall picUrl,
         MsgType msg = "image" -> Js.truthyOpt (MediaId msg) = false ->
         PicUrl msg = Some picUrl -> picUrl <> "" ->
         msg_media m = Some [mkMedia "image" picUrl (Content msg)]).
Proof.
  intros Htype m. unfold m, Adapter.fromWeComMessage.
  rewrite addEvent_media. unfold Adapter.addContent.
  unfold channelMediaType in Htype. split.
  - intros mediaId Hid Hne.
    assert (Htruthy : Js.truthy mediaId = true).
    { unfold Js.truthy.
      destruct (String.eqb_spec mediaId ""); [contradiction|reflexivity]. }
    rewrite Hid. cbn [Js.truthyOpt Js.orElse]. rewrite Htruthy. cbn [orb].
    destruct (String.eqb_spec (MsgType msg) "image") as [Himage|_].
    { rewrite Himage. cbn. inversion Htype. reflexivity. }
    destruct (String.eqb_spec (MsgType msg) "voice") as [Hvoice|_].
    { rewrite Hvoice. cbn. inversion Htype. reflexivity. }
    destruct (String.eqb_spec (MsgType msg) "video") as [Hvideo|_].
    { rewrite Hvideo. cbn. inversion Htype. reflexivity. }
    destruct (String.eqb_spec (MsgType msg) "file") as [Hfile|_];
      [|discriminate].
    rewrite Hfile. cbn. inversion Htype. reflexivity.
  - intros picUrl Himage Hnoid Hpic Hne.
    assert (Htruthy : Js.truthy picUrl = true).
    { unfold Js.truthy.
      destruct (String.eqb_spec picUrl ""); [contradiction|reflexivity]. }
    rewrite Himage, Hnoid, Hpic. cbn. rewrite Htruthy. reflexivity.
Qed.

Lemma inbound_media_single_attachment_witness :
  msg_media
    (Adapter.fromWeComMessage
       (mkReceived "ww1" "zhangsan" 1700000000 "voice" "id-9" 1000001 None
                   (Some "media-7") None None None None None None))
  = Some [mkMedia "audio" "media-7" None].
Proof.
  apply (proj1 (inbound_media_single_attachment
                  (mkReceived "ww1" "zhangsan" 1700000000 "voice" "id-9"
                              1000001 None (Some "media-7") None None None
                              None None None)
                  "audio" eq_refl) "media-7").
  - reflexivity.
  - discriminate.
Defined.

(** X7.  Content that is lost: a [text] message with an empty or missing
    [Content], a [voice], [video] or [file] message without [MediaId], and an
    [image] message with neither [MediaId] nor [PicUrl] are translated, when
    they carry no event, to a message with no text, no attachment and nothing
    else.  A message of any other kind always has a text. *)
Theorem inbound_content_can_be_lost (msg : WeComReceivedMessage) :
  Js.truthyOpt (Event msg) = false ->
  let m := Adapter.fromWeComMessage msg in
  (MsgType msg = "text" /\ Js.truthyOpt (Content msg) = false
   \/ (exists type, channelMediaType (MsgType msg) = Some type)
      /\ Js.truthyOpt (MediaId msg) = false
      /\ (MsgType msg = "image" -> Js.truthyOpt (PicUrl msg) = false) ->
   carriesNothing m)
  /\ ((MsgType msg =? "text")%string = false ->
      channelMediaType (MsgType msg) = None ->
      exists text, msg_text m = Some text /\ text <> "").
Proof.
  intros Hevent m.
  assert (Hnoevent : forall m0, Adapter.addEvent msg m0 = m0).
  { intros m0. unfold Adapter.addEvent.
    destruct (Event msg) as [ev|]; [|reflexivity].
    simpl in Hevent. rewrite Hevent. reflexivity. }
  unfold m, Adapter.fromWeComMessage. rewrite Hnoevent.
  unfold Adapter.addContent, carriesNothing. split.
  - intros [(Htext & Hcontent)|((type & Htype) & Hid & Hpic)].
    + rewrite Htext. cbn.
      destruct (Content msg) as [c|]; [|repeat split].
      simpl in Hcontent. rewrite Hcontent. repeat split.
    + unfold channelMediaType in Htype. rewrite Hid. cbn [orb].
      destruct (String.eqb_spec (MsgType msg) "image") as [Himage|_].
      { rewrite Himage, (Hpic Himage). cbn. repeat split. }
      destruct (String.eqb_spec (MsgType msg) "voice") as [Hvoice|_].
      { rewrite Hvoice. cbn. repeat split. }
      destruct (String.eqb_spec (MsgType msg) "video") as [Hvideo|_].
      { rewrite Hvideo. cbn. repeat split. }
      destruct (String.eqb_spec (MsgType msg) "file") as [Hfile|_];
        [|discriminate].
      rewrite Hfile. cbn. repeat split.
  - intros Hnottext Hnotmedia. unfold channelMediaType in Hnotmedia.
    rewrite Hnottext.
    destruct (MsgType msg =? "image")%string; [discriminate|].
    destruct (MsgType msg =? "voice")%string; [discriminate|].
    destruct (MsgType msg =? "video")%string; [discriminate|].
    destruct (MsgType msg =? "file")%string; [discriminate|].
    destruct (MsgType msg =? "location")%string; cbn;
      eexists; (split; [reflexivity|]); discriminate.
Qed.

Lemma inbound_content_can_be_lost_witness :
  carriesNothing
    (Adapter.fromWeComMessage
       (mkReceived "ww1" "zhangsan" 1700000000 "voice" "id-9" 1000001
                   (Some "hello") None None None None None None None)).
Proof.
  apply (inbound_content_can_be_lost
           (mkReceived "ww1" "zhangsan" 1700000000 "voice" "id-9" 1000001
                       (Some "hello") None None None None None None None)).
  - reflexivity.
  - right. split; [exists "audio"; reflexivity|].
    split; [reflexivity|discriminate].
Defined.

(** ** Token handling of the API client *)

Section TokenHandling.

Variable env : Env.
Variable config : WeComConfig.

Lemma getAccessToken_reuses_valid_token_run
      (depth : nat) (w : World) (t : WeComAccessToken) :
  accessToken w = Some t ->
  date_now env (nowReads w) < tok_expires_at t ->
  run env (ApiClient.getAccessToken config depth) w
  = (Returned (tok_access_token t), tickNow w).
Proof.
  intros Htok Hvalid. rewrite run_getAccessToken, Htok.
  unfold ApiClient.tokenExpired.
  destruct (Z.geb_spec (date_now env (nowReads w)) (tok_expires_at t)); [lia|].
  cbn. rewrite Htok. reflexivity.
Qed.

(** X8.  Token reuse: while the cached token has not reached its expiry,
    [getAccessToken] returns it as it is, makes no network call and leaves
    the token field alone. *)
Theorem getAccessToken_reuses_valid_token
        (depth : nat) (w : World) (t : WeComAccessToken) :
  accessToken w = Some t ->
  date_now env (nowReads w) < tok_expires_at t ->
  let r := run env (ApiClient.getAccessToken config depth) w in
  fst r = Returned (tok_access_token t)
  /\ fetchLog (snd r) = fetchLog w
  /\ accessToken (snd r) = Some t.
Proof.
  intros Htok Hvalid r. unfold r. rewrite run_getAccessToken, Htok.
  unfold ApiClient.tokenExpired.
  destruct (Z.geb_spec (date_now env (nowReads w)) (tok_expires_at t)); [lia|].
  cbn. rewrite Htok. repeat split. exact Htok.
Qed.

(** A refresh answered with code 0 and a token. *)
Lemma run_refresh_success (depth : nat) (w : World) (data : ApiJson)
      (token : string) :
  hasCredentials config ->
  fetch_reply env (length (fetchLog w)) (tokenRequest config) = FetchJson data ->
  errcode data = 0 ->
  access_token data = Some token ->
  token <> "" ->
  run env (ApiClient.refreshAccessToken config depth) w
  = (Returned tt,
     setToken (tickNow (logFetch w (tokenRequest config)))
              (mkToken token (expires_in data)
                       (date_now env (nowReads w)
                        + (expires_in data - 300) * 1000))).
Proof.
  intros (Hid & Hsecret) Hreply Hcode Htoken Hnonempty.
  assert (Htruthy : Js.truthy token = true).
  { unfold Js.truthy.
    destruct (String.eqb_spec token ""); [contradiction|reflexivity]. }
  unfold tokenRequest in *.
  rewrite refreshAccessToken_unfold. unfold ApiClient.refreshBody.
  rewrite Hid, Hsecret. cbn [andb]. rewrite run_bind, run_request, Hreply.
  rewrite Hcode. cbn [Z.eqb orb andThen]. rewrite Hcode, Htoken.
  cbn [Z.eqb andb Js.truthyOpt Js.orElse]. rewrite Htruthy.
  reflexivity.
Qed.

(** X9.  Proactive refresh: when no token is cached, or the cached one has
    reached its expiry, and the token endpoint answers with code 0 and a
    token, [getAccessToken] makes exactly one network call, to the token
    endpoint, stores the new token and returns it. *)
Theorem getAccessToken_refreshes_stale_token
        (depth : nat) (w : World) (data : ApiJson) (token : string) :
  hasCredentials config ->
  match accessToken w with
  | None => True
  | Some t => tok_expires_at t <= date_now env (nowReads w)
  end ->
  fetch_reply env (length (fetchLog w)) (tokenRequest config) = FetchJson data ->
  errcode data = 0 ->
  access_token data = Some token ->
  token <> "" ->
  let r := run env (ApiClient.getAccessToken config depth) w in
  fst r = Returned token
  /\ fetchLog (snd r) = (fetchLog w ++ [tokenRequest config])%list
  /\ exists expiresAt,
       accessToken (snd r) = Some (mkToken token (expires_in data) expiresAt).
Proof.
  intros Hcred Hstale Hreply Hcode Htoken Hnonempty r.
  unfold r. rewrite run_getAccessToken.
  destruct (accessToken w) as [t|] eqn:Htok.
  - unfold ApiClient.tokenExpired.
    destruct (Z.geb_spec (date_now env (nowReads w)) (tok_expires_at t));
      [|lia].
    rewrite (run_refresh_success depth (tickNow w) data token Hcred Hreply
               Hcode Htoken Hnonempty).
    cbn. repeat split. eexists. reflexivity.
  - rewrite (run_refresh_success depth w data token Hcred Hreply Hcode Htoken
               Hnonempty).
    cbn. repeat split. eexists. reflexivity.
Qed.

(** X10.  A refresh that fails leaves the cached token as it was: when the
    call to the token endpoint fails, or its answer has a code other than 0,
    40014 and 42001, or has code 0 and no token, [refreshAccessToken] throws
    after that one network call and the token field is unchanged. *)
Theorem failed_refresh_keeps_token (depth : nat) (w : World) :
  hasCredentials config ->
  refreshFails (fetch_reply env (length (fetchLog w)) (tokenRequest config)) ->
  let r := run env (ApiClient.refreshAccessToken config depth) w in
  (exists e, fst r = Thrown e)
  /\ accessToken (snd r) = accessToken w
  /\ fetchLog (snd r) = (fetchLog w ++ [tokenRequest config])%list.
Proof.
  intros (Hid & Hsecret) Hfails r. unfold r, tokenRequest in *.
  rewrite refreshAccessToken_unfold. unfold ApiClient.refreshBody.
  rewrite Hid, Hsecret. cbn [andb]. rewrite run_bind, run_request.
  destruct (fetch_reply env (length (fetchLog w))
              (ReqGetToken (Js.orElse (corpId config) "")
                           (Js.orElse (corpSecret config) "")))
    as [n m|st txt|n m|data]; cbn [andThen fst snd].
  - repeat split. eexists. reflexivity.
  - repeat split. eexists. reflexivity.
  - repeat split. eexists. reflexivity.
  - destruct Hfails as (Hauth & Hbad). unfold Sender.isAuthCode in Hauth.
    rewrite orb_comm in Hauth. rewrite Hauth. cbn [andThen]. rewrite Hbad.
    cbn. repeat split. eexists. reflexivity.
Qed.

(** X11.  A token endpoint that answers 42001 or 40014 makes [request]
    refresh again from inside the refresh: against an endpoint that keeps
    answering so, the refresh never completes.  Whatever bound [depth] is
    put on the nesting, the run reaches it, after [depth + 1] calls to the
    token endpoint, without having returned or thrown. *)
Theorem refresh_reenters_without_end (depth : nat) :
  hasCredentials config ->
  tokenEndpointRejects env ->
  forall w,
    let r := run env (ApiClient.refreshAccessToken config depth) w in
    fst r = Exhausted
    /\ tokenCalls (snd r) = (tokenCalls w + depth + 1)%nat
    /\ accessToken (snd r) = accessToken w.
Proof.
  intros (Hid & Hsecret) Hrejects.
  induction depth as [|depth IH]; intros w r; unfold r;
    rewrite refreshAccessToken_unfold; unfold ApiClient.refreshBody;
    rewrite Hid, Hsecret; cbn [andb]; rewrite run_bind, run_request;
    destruct (Hrejects (length (fetchLog w)) (Js.orElse (corpId config) "")
                       (Js.orElse (corpSecret config) ""))
      as (data & Hreply & Hauth);
    rewrite Hreply; unfold Sender.isAuthCode in Hauth;
    rewrite orb_comm in Hauth; rewrite Hauth.
  - cbn [run andThen fst snd]. rewrite tokenCalls_logFetch.
    cbn [isTokenRequest]. repeat split. lia.
  - specialize (IH (logFetch w (ReqGetToken (Js.orElse (corpId config) "")
                                            (Js.orElse (corpSecret config) "")))).
    cbv zeta in IH. destruct IH as (Hout & Hcalls & Htok).
    destruct (run env (ApiClient.refreshAccessToken config depth)
                  (logFetch w (ReqGetToken (Js.orElse (corpId config) "")
                                           (Js.orElse (corpSecret config) ""))))
      as [[a|e|] w']; cbn [fst snd andThen] in *; try discriminate.
    rewrite Hcalls, tokenCalls_logFetch, Htok. cbn [isTokenRequest].
    repeat split. lia.
Qed.

End TokenHandling.

Lemma getAccessToken_reuses_valid_token_witness :
  let r := run (vendorAnswering 0 "ok")
               (ApiClient.getAccessToken sampleConfig 0) worldWithToken in
  fst r = Returned "CACHED" /\ fetchLog (snd r) = [].
Proof.
  intros r.
  destruct (getAccessToken_reuses_valid_token
              (vendorAnswering 0 "ok") sampleConfig 0 worldWithToken
              (mkToken "CACHED" 7200 100000)) as (Hret & Hlog & _).
  - reflexivity.
  - reflexivity.
  - split; assumption.
Defined.

Lemma getAccessToken_refreshes_stale_token_witness :
  let r := run (vendorAnswering 0 "ok")
               (ApiClient.getAccessToken sampleConfig 0) freshWorld in
  fst r = Returned "TOKEN"
  /\ fetchLog (snd r) = [tokenRequest sampleConfig].
Proof.
  intros r.
  destruct (getAccessToken_refreshes_stale_token
              (vendorAnswering 0 "ok") sampleConfig 0 freshWorld
              (mkJson 0 "ok" (Some "TOKEN") 7200 None) "TOKEN")
    as (Hret & Hlog & _).
  - split; reflexivity.
  - exact I.
  - reflexivity.
  - reflexivity.
  - reflexivity.
  - discriminate.
  - split; assumption.
Defined.

Lemma failed_refresh_keeps_token_witness :
  let r := run networkDown (ApiClient.refreshAccessToken sampleConfig 0)
               worldWithToken in
  (exists e, fst r = Thrown e)
  /\ accessToken (snd r) = Some (mkToken "CACHED" 7200 100000).
Proof.
  intros r.
  destruct (failed_refresh_keeps_token networkDown sampleConfig 0 worldWithToken)
    as (Hthrown & Htoken & _).
  - split; reflexivity.
  - exact I.
  - split; assumption.
Defined.

Lemma refresh_reenters_without_end_witness :
  let r := run vendorExpired (ApiClient.refreshAccessToken sampleConfig 7)
               freshWorld in
  fst r = Exhausted /\ tokenCalls (snd r) = 8%nat.
Proof.
  intros r.
  destruct (refresh_reenters_without_end vendorExpired sampleConfig 7)
    with (w := freshWorld) as (Hout & Hcalls & _).
  - split; reflexivity.
  - intros i cid sec. eexists. split; reflexivity.
  - split; assumption.
Defined.

(** ** What one call of [send] does on the network and with its timers *)

Lemma logGrowsBy_same (P : Request -> Prop) (w w' : World) :
  fetchLog w' = fetchLog w -> logGrowsBy P w w'.
Proof.
  intros H. exists []. rewrite H, app_nil_r. split; [reflexivity|constructor].
Qed.

Lemma logGrowsBy_trans (P : Request -> Prop) (w1 w2 w3 : World) :
  logGrowsBy P w1 w2 -> logGrowsBy P w2 w3 -> logGrowsBy P w1 w3.
Proof.
  intros (n1 & H1 & F1) (n2 & H2 & F2). exists (n1 ++ n2)%list.
  rewrite H2, H1, app_assoc. split; [reflexivity|].
  apply Forall_app. split; assumption.
Qed.

Lemma logGrowsBy_logFetch (P : Request -> Prop) (w : World) (r : Request) :
  P r -> logGrowsBy P w (logFetch w r).
Proof.
  intros H. exists [r]. split; [reflexivity|]. constructor; [exact H|constructor].
Qed.

Section OwnRequests.

Variable env : Env.
Variable config : WeComConfig.
Variable P : Request -> Prop.

Hypothesis Ptoken : P (tokenRequest config).

Lemma refreshBody_log (again : Prog unit) :
  (forall w, logGrowsBy P w (snd (run env again w))) ->
  forall w, logGrowsBy P w (snd (run env (ApiClient.refreshBody config again) w)).
Proof.
  intros Hagain w. unfold ApiClient.refreshBody.
  destruct (Js.truthyOpt (corpId config) && Js.truthyOpt (corpSecret config));
    [|apply logGrowsBy_same; reflexivity].
  rewrite run_bind, run_request. fold (tokenRequest config).
  pose proof (logGrowsBy_logFetch P w (tokenRequest config) Ptoken) as Hlog.
  destruct (fetch_reply env (length (fetchLog w)) (tokenRequest config))
    as [n m|st txt|n m|data]; cbn [andThen snd]; auto.
  destruct ((errcode data =? 40014) || (errcode data =? 42001)).
  - specialize (Hagain (logFetch w (tokenRequest config))).
    destruct (run env again (logFetch w (tokenRequest config)))
      as [[a|e|] w1]; cbn [andThen snd] in *;
      try (eapply logGrowsBy_trans; eassumption).
    destruct ((errcode data =? 0) && Js.truthyOpt (access_token data));
      cbn; (eapply logGrowsBy_trans; [exact Hlog|]);
      (eapply logGrowsBy_trans; [exact Hagain|]);
      apply logGrowsBy_same; reflexivity.
  - cbn [andThen].
    destruct ((errcode data =? 0) && Js.truthyOpt (access_token data));
      cbn; (eapply logGrowsBy_trans; [exact Hlog|]);
      apply logGrowsBy_same; reflexivity.
Qed.

Lemma refreshAccessToken_log (depth : nat) :
  forall w,
    logGrowsBy P w (snd (run env (ApiClient.refreshAccessToken config depth) w)).
Proof.
  induction depth as [|depth IH]; intros w; rewrite refreshAccessToken_unfold;
    apply refreshBody_log; auto.
  intros w'. apply logGrowsBy_same. reflexivity.
Qed.

Lemma getAccessToken_log (depth : nat) (w : World) :
  logGrowsBy P w (snd (run env (ApiClient.getAccessToken config depth) w)).
Proof.
  rewrite run_getAccessToken.
  assert (Hfirst : forall w0,
             logGrowsBy P w w0 ->
             logGrowsBy P w
               (snd (andThen
                       (run env (ApiClient.refreshAccessToken config depth) w0)
                       (fun _ w1 =>
                          match accessToken w1 with
                          | None =>
                              (Thrown (JsError "Error" "无法获取访问令牌"), w1)
                          | Some t => (Returned (tok_access_token t), w1)
                          end)))).
  { intros w0 H0. pose proof (refreshAccessToken_log depth w0) as Hrefresh.
    destruct (run env (ApiClient.refreshAccessToken config depth) w0)
      as [[a|e|] w1]; cbn [andThen snd] in *;
      try (eapply logGrowsBy_trans; eassumption).
    destruct (accessToken w1); cbn [snd]; eapply logGrowsBy_trans; eassumption. }
  destruct (accessToken w) as [t|] eqn:Htok.
  - destruct (ApiClient.tokenExpired t (date_now env (nowReads w))).
    + apply Hfirst. apply logGrowsBy_same. reflexivity.
    + cbn. rewrite Htok. apply logGrowsBy_same. reflexivity.
  - apply Hfirst. apply logGrowsBy_same. reflexivity.
Qed.

Lemma sendMessage_log (depth : nat) (params : WeComSendMessageParams)
      (w : World) :
  (forall token, P (ReqSendMessage token params)) ->
  logGrowsBy P w (snd (run env (ApiClient.sendMessage config depth params) w)).
Proof.
  intros Psend. unfold ApiClient.sendMessage. rewrite run_bind.
  pose proof (getAccessToken_log depth w) as Hget.
  destruct (run env (ApiClient.getAccessToken config depth) w)
    as [[token|e|] w1]; cbn [andThen snd] in *; auto.
  rewrite run_request.
  assert (Hlog : logGrowsBy P w (logFetch w1 (ReqSendMessage token params))).
  { eapply logGrowsBy_trans; [exact Hget|].
    apply logGrowsBy_logFetch. apply Psend. }
  destruct (fetch_reply env (length (fetchLog w1)) (ReqSendMessage token params))
    as [n m|st txt|n m|data]; cbn [snd]; auto.
  destruct ((errcode data =? 40014) || (errcode data =? 42001)); cbn [snd]; auto.
  pose proof (refreshAccessToken_log depth
                (logFetch w1 (ReqSendMessage token params))) as Href.
  destruct (run env (ApiClient.refreshAccessToken config depth)
                (logFetch w1 (ReqSendMessage token params)))
    as [[a|e|] w2]; cbn [snd] in *; eapply logGrowsBy_trans; eassumption.
Qed.

End OwnRequests.

Section SendRuns.

Variable env : Env.
Variable config : WeComConfig.

Lemma ownRequest_token (message : ChannelMessage) :
  ownRequest config message (tokenRequest config).
Proof. reflexivity. Qed.

Lemma sendFuel_log (fuel depth : nat) (message : ChannelMessage) :
  forall w,
    logGrowsBy (ownRequest config message) w
               (snd (run env (Sender.sendFuel config fuel depth message) w)).
Proof.
  pose proof (ownRequest_token message) as Ptoken.
  induction fuel as [|fuel IH]; intros w; rewrite run_sendFuel;
    pose proof (sendMessage_log env config (ownRequest config message) Ptoken
                  depth (Sender.toWeComMessage config message) w
                  (fun _ => eq_refl)) as Hsend;
    destruct (run env (ApiClient.sendMessage config depth
                         (Sender.toWeComMessage config message)) w)
      as [[response|e|] w1]; cbn [snd] in *; auto.
  all: destruct (errcode response =? 0);
    [ destruct (run_sendSucceeded env response w1)
        as (result & w' & Hrun & _ & _ & _ & Hlog);
      rewrite Hrun; cbn [snd]; eapply logGrowsBy_trans; [exact Hsend|];
      apply logGrowsBy_same; exact Hlog | ].
  all: destruct (Sender.shouldRetry config (errcode response) (retryCount w1));
    [ | exact Hsend ].
  all: cbv zeta;
    set (w2 := logSleep (setRetryCount w1 (S (retryCount w1)))
                        (Sender.backoff (S (retryCount w1))));
    assert (Hw2 : logGrowsBy (ownRequest config message) w w2)
      by (eapply logGrowsBy_trans; [exact Hsend|];
          apply logGrowsBy_same; reflexivity).
  - destruct (Sender.isAuthCode (errcode response)).
    + pose proof (refreshAccessToken_log env config (ownRequest config message)
                    Ptoken depth w2) as Href.
      destruct (run env (ApiClient.refreshAccessToken config depth) w2)
        as [[a|e|] w3]; cbn [fst snd orRethrow run] in *;
        eapply logGrowsBy_trans; eassumption.
    + cbn [snd orRethrow run]. exact Hw2.
  - assert (Hnested : forall w3,
               logGrowsBy (ownRequest config message) w w3 ->
               logGrowsBy (ownRequest config message) w
                 (snd (orRethrow message
                         (run env (Sender.sendFuel config fuel depth message)
                              w3)))).
    { intros w3 H3. specialize (IH w3).
      destruct (run env (Sender.sendFuel config fuel depth message) w3)
        as [[a|e|] w4]; cbn [snd orRethrow] in *;
        eapply logGrowsBy_trans; eassumption. }
    destruct (Sender.isAuthCode (errcode response)).
    + pose proof (refreshAccessToken_log env config (ownRequest config message)
                    Ptoken depth w2) as Href.
      destruct (run env (ApiClient.refreshAccessToken config depth) w2)
        as [[a|e|] w3]; cbn [snd] in *;
        try (eapply logGrowsBy_trans; eassumption).
      apply Hnested. eapply logGrowsBy_trans; eassumption.
    + apply Hnested. exact Hw2.
Qed.

Lemma send_makes_own_requests (depth : nat) (message : ChannelMessage)
      (w : World) :
  exists new,
    fetchLog (snd (run env (Sender.send config depth message) w))
    = (fetchLog w ++ new)%list
    /\ Forall (ownRequest config message) new.
Proof.
  apply (sendFuel_log (Z.to_nat (Sender.maxRetriesOrDefault config)) depth
                      message w).
Qed.

(** X12.  One call of [send] talks to the vendor about this message only:
    every network call it makes is a token request with the configured
    credentials or a post of the translation of the message, so every retry
    posts the same envelope as the first attempt. *)
Theorem send_makes_own_requests_only
        (depth : nat) (message : ChannelMessage) (w : World) :
  exists new,
    fetchLog (snd (run env (Sender.send config depth message) w))
    = (fetchLog w ++ new)%list
    /\ Forall (fun r =>
                 match r with
                 | ReqGetToken cid sec =>
                     cid = Js.orElse (corpId config) ""
                     /\ sec = Js.orElse (corpSecret config) ""
                 | ReqSendMessage _ params =>
                     params = Sender.toWeComMessage config message
                 end) new.
Proof.
  destruct (sendFuel_log (Z.to_nat (Sender.maxRetriesOrDefault config)) depth
                         message w) as (new & Hlog & Hown).
  exists new. split; [exact Hlog|].
  eapply Forall_impl; [|exact Hown].
  intros [cid sec|token params] H; cbn in H |- *; [|exact H].
  unfold tokenRequest in H. inversion H. split; reflexivity.
Qed.

Lemma backoff_bounds (n : nat) :
  2000 <= Sender.backoff (S n) <= 10000.
Proof.
  unfold Sender.backoff.
  assert (H : 2 <= 2 ^ Z.of_nat (S n)).
  { rewrite Nat2Z.inj_succ, Z.pow_succ_r by lia.
    assert (0 < 2 ^ Z.of_nat n) by (apply Z.pow_pos_nonneg; lia). lia. }
  lia.
Qed.

Lemma sendFuel_schedule (fuel depth : nat) (message : ChannelMessage) :
  forall w,
  exists k,
    sleepLog (snd (run env (Sender.sendFuel config fuel depth message) w))
    = (sleepLog w ++ map Sender.backoff (seq (S (retryCount w)) k))%list
    /\ (k <= Z.to_nat (Sender.maxRetriesOrDefault config
                       - Z.of_nat (retryCount w)))%nat.
Proof.
  induction fuel as [|fuel IH]; intros w; rewrite run_sendFuel;
    pose proof (sendMessage_frame env config depth
                  (Sender.toWeComMessage config message) w) as Hframe;
    cbv zeta in Hframe;
    destruct (run env (ApiClient.sendMessage config depth
                         (Sender.toWeComMessage config message)) w)
      as [[response|e|] w1]; cbn [fst snd] in *;
    destruct Hframe as (Hrc & Hsl & _);
    try (exists 0%nat; cbn [seq map]; rewrite app_nil_r; split; [exact Hsl|lia]).
  all: destruct (errcode response =? 0);
    [ destruct (run_sendSucceeded env response w1)
        as (result & w' & Hrun & _ & _ & Hsl' & _);
      rewrite Hrun; cbn [snd]; exists 0%nat; cbn [seq map];
      rewrite app_nil_r; split; [congruence|lia] | ].
  all: unfold Sender.shouldRetry;
    destruct (existsb (Z.eqb (errcode response)) Sender.retryableErrors);
    cbn [andb];
    try (exists 0%nat; cbn [seq map snd]; rewrite app_nil_r;
         split; [exact Hsl|lia]);
    destruct (Z.ltb_spec (Z.of_nat (retryCount w1))
                         (Sender.maxRetriesOrDefault config)) as [Hlt|Hge];
    try (exists 0%nat; cbn [seq map snd]; rewrite app_nil_r;
         split; [exact Hsl|lia]).
  all: cbv zeta;
    set (w2 := logSleep (setRetryCount w1 (S (retryCount w1)))
                        (Sender.backoff (S (retryCount w1))));
    assert (Hw2 : retryCount w2 = S (retryCount w)
                  /\ sleepLog w2
                     = (sleepLog w ++ [Sender.backoff (S (retryCount w))])%list)
      by (unfold w2; simpl; rewrite Hrc, Hsl; auto);
    destruct Hw2 as (Hrc2 & Hsl2);
    assert (Hone : forall w3,
               sleepLog w3 = sleepLog w2 ->
               exists k,
                 sleepLog w3
                 = (sleepLog w
                    ++ map Sender.backoff (seq (S (retryCount w)) k))%list
                 /\ (k <= Z.to_nat (Sender.maxRetriesOrDefault config
                                    - Z.of_nat (retryCount w)))%nat)
      by (intros w3 H3; exists 1%nat; cbn [seq map]; rewrite H3, Hsl2;
          split; [reflexivity|lia]).
  - destruct (Sender.isAuthCode (errcode response)).
    + pose proof (refreshAccessToken_frame env config depth w2) as Href.
      destruct (run env (ApiClient.refreshAccessToken config depth) w2)
        as [[a|e|] w3]; cbn [fst snd orRethrow run] in *;
        destruct Href as (_ & H2 & _); apply Hone; exact H2.
    + cbn [snd orRethrow run]. apply Hone. reflexivity.
  - assert (Hnested : forall w3,
               retryCount w3 = retryCount w2 ->
               sleepLog w3 = sleepLog w2 ->
               exists k,
                 sleepLog
                   (snd (orRethrow message
                           (run env (Sender.sendFuel config fuel depth message)
                                w3)))
                 = (sleepLog w
                    ++ map Sender.backoff (seq (S (retryCount w)) k))%list
                 /\ (k <= Z.to_nat (Sender.maxRetriesOrDefault config
                                    - Z.of_nat (retryCount w)))%nat).
    { intros w3 H1 H2. destruct (IH w3) as (k & Hk & Hle).
      exists (S k). rewrite H1, Hrc2 in Hk, Hle. rewrite H2, Hsl2 in Hk.
      split; [|lia].
      destruct (run env (Sender.sendFuel config fuel depth message) w3)
        as [[a|e|] w4]; cbn [snd orRethrow] in *;
        rewrite Hk, <- app_assoc; reflexivity. }
    destruct (Sender.isAuthCode (errcode response)).
    + pose proof (refreshAccessToken_frame env config depth w2) as Href.
      destruct (run env (ApiClient.refreshAccessToken config depth) w2)
        as [[a|e|] w3]; cbn [fst snd] in *;
        destruct Href as (H1 & H2 & _);
        try (apply Hone; exact H2).
      apply Hnested; assumption.
    + apply Hnested; reflexivity.
Qed.

(** X13.  The retry bound and the backoff schedule, whatever the vendor
    answers: one call of [send] on a sender whose counter is [r] makes at
    most [max 0 ((maxRetries || 3) - r)] retries, and its [k]-th retry waits
    [min (1000 * 2 ^ (r + k)) 10000] milliseconds, which is between 2 and 10
    seconds. *)
Theorem send_retry_bound_and_backoff
        (depth : nat) (message : ChannelMessage) (w : World) :
  exists k,
    sleepLog (snd (run env (Sender.send config depth message) w))
    = (sleepLog w ++ map Sender.backoff (seq (S (retryCount w)) k))%list
    /\ (k <= Z.to_nat (Sender.maxRetriesOrDefault config
                       - Z.of_nat (retryCount w)))%nat
    /\ Forall (fun delay => 2000 <= delay <= 10000)
              (map Sender.backoff (seq (S (retryCount w)) k)).
Proof.
  destruct (sendFuel_schedule (Z.to_nat (Sender.maxRetriesOrDefault config))
                              depth message w) as (k & Hk & Hle).
  exists k. split; [exact Hk|]. split; [exact Hle|].
  apply Forall_forall. intros delay Hin.
  apply in_map_iff in Hin. destruct Hin as (n & Hn & Hseq).
  apply in_seq in Hseq. subst delay.
  destruct n as [|n]; [lia|]. apply backoff_bounds.
Qed.

End SendRuns.

(** ** Failures that [send] does not retry *)

(** X14.  A failed call to the send endpoint (the network fails, the request
    times out, the status is not ok, the body is not JSON) is not retried:
    [send] throws a [WeComSendError] with the code 500 and the message of the
    failure, after that one send attempt, and leaves the retry counter as it
    was. *)
Theorem send_transport_failure_not_retried
        (env : Env) (config : WeComConfig) (depth : nat)
        (message : ChannelMessage) (w w0 : World) (token : string) :
  run env (ApiClient.getAccessToken config depth) w = (Returned token, w0) ->
  let request := ReqSendMessage token (Sender.toWeComMessage config message) in
  let reply := fetch_reply env (length (fetchLog w0)) request in
  transportFailure reply ->
  run env (Sender.send config depth message) w
  = (Thrown (Sender.newWeComSendError (exn_message (transportError reply)) 500
                                      message),
     logFetch w0 request)
  /\ retryCount (logFetch w0 request) = retryCount w
  /\ retries (logFetch w0 request) = retries w.
Proof.
  intros Hget request reply Hfailure.
  pose proof (getAccessToken_frame env config depth w) as Hframe.
  rewrite Hget in Hframe. cbn [snd] in Hframe. destruct Hframe as (Hrc & Hsl & _).
  split; [|split; [exact Hrc|unfold retries; cbn; rewrite Hsl; reflexivity]].
  unfold Sender.send. rewrite run_sendFuel.
  unfold ApiClient.sendMessage. rewrite run_bind, Hget. cbn [andThen].
  rewrite run_request. fold request. fold reply.
  destruct reply as [n m|st txt|n m|data]; cbn [transportError];
    try contradiction.
  - destruct (n =? "AbortError")%string; reflexivity.
  - reflexivity.
  - destruct (n =? "AbortError")%string; reflexivity.
Qed.

Lemma send_transport_failure_not_retried_witness :
  run sendTimesOut (Sender.send sampleConfig 0 sampleMessage) worldWithToken
  = (Thrown (Sender.newWeComSendError "请求超时" 500 sampleMessage),
     logFetch (tickNow worldWithToken)
              (ReqSendMessage "CACHED"
                 (Sender.toWeComMessage sampleConfig sampleMessage))).
Proof.
  apply (send_transport_failure_not_retried
           sendTimesOut sampleConfig 0 sampleMessage worldWithToken
           (tickNow worldWithToken) "CACHED").
  - reflexivity.
  - exact I.
Defined.

(** X15.  Without [corpId] or [corpSecret] the sender cannot send: with no
    token cached, [send] throws a [WeComSendError] with the code 500 and the
    message of the missing configuration, makes no network call and no
    retry, whether or not a [webhookUrl] is configured. *)
Theorem send_without_credentials_fails
        (env : Env) (config : WeComConfig) (depth : nat)
        (message : ChannelMessage) (w : World) :
  Js.truthyOpt (corpId config) && Js.truthyOpt (corpSecret config) = false ->
  accessToken w = None ->
  run env (Sender.send config depth message) w
  = (Thrown (Sender.newWeComSendError "缺少corpId或corpSecret配置" 500 message),
     w).
Proof.
  intros Hmissing Htok.
  unfold Sender.send. rewrite run_sendFuel.
  unfold ApiClient.sendMessage. rewrite run_bind, run_getAccessToken, Htok.
  rewrite refreshAccessToken_unfold. unfold ApiClient.refreshBody.
  rewrite Hmissing. reflexivity.
Qed.

Lemma send_without_credentials_fails_witness :
  run networkDown
      (Sender.send (mkConfig None None None
                             (Some "https://example.invalid/hook?key=k")
                             None None None) 0 sampleMessage) freshWorld
  = (Thrown (Sender.newWeComSendError "缺少corpId或corpSecret配置" 500
                                      sampleMessage), freshWorld).
Proof.
  apply (send_without_credentials_fails
           networkDown
           (mkConfig None None None (Some "https://example.invalid/hook?key=k")
                     None None None) 0 sampleMessage freshWorld).
  - reflexivity.
  - reflexivity.
Defined.

(** X16.  A [maxRetries] of 0 does not switch retries off: it is taken as
    unset, so a fresh sender configured with 0 that keeps receiving a
    retryable error makes three retries, four send attempts in all, before
    it throws.  A negative [maxRetries] does switch them off. *)
Theorem maxRetries_zero_means_three
        (env : Env) (config : WeComConfig) (response : ApiJson) (depth : nat)
        (message : ChannelMessage) (w : World) :
  hasCredentials config ->
  tokenEndpointHealthy env ->
  sendEndpointAnswers env response ->
  In (errcode response) Sender.retryableErrors ->
  retryCount w = 0%nat ->
  let r := run env (Sender.send config depth message) w in
  (maxRetries config = Some 0 ->
   retries (snd r) = (retries w + 3)%nat
   /\ sendAttempts (snd r) = (sendAttempts w + 4)%nat)
  /\ (forall n, maxRetries config = Some n -> n < 0 ->
                retries (snd r) = retries w
                /\ sendAttempts (snd r) = (sendAttempts w + 1)%nat).
Proof.
  intros Hcred Htoken Hsend Hretryable Hfresh r.
  destruct (sendFuel_exhausts env config response Hcred Htoken Hsend Hretryable
              depth message (Z.to_nat (Sender.maxRetriesOrDefault config)) w)
    as (w' & Hrun & Hre & Hat & _).
  { lia. }
  unfold r, Sender.send. rewrite Hrun. cbn [snd]. rewrite Hre, Hat, Hfresh.
  unfold Sender.maxRetriesOrDefault. split.
  - intros Hzero. rewrite Hzero. cbn. split; lia.
  - intros n Hn Hneg. rewrite Hn.
    destruct (Z.eqb_spec n 0); [lia|].
    replace (Z.to_nat (n - Z.of_nat 0)) with 0%nat by lia. split; lia.
Qed.

Lemma maxRetries_zero_means_three_witness :
  let config := mkConfig (Some "ww0123456789") (Some "s3cret") (Some 1000001)
                         None None (Some 0) None in
  retries (snd (run (vendorAnswering 45009 "api freq out of limit")
                    (Sender.send config 0 sampleMessage) freshWorld))
  = 3%nat.
Proof.
  intros config.
  destruct (maxRetries_zero_means_three
              (vendorAnswering 45009 "api freq out of limit") config
              (mkJson 45009 "api freq out of limit" None 0 None) 0 sampleMessage
              freshWorld) as (Hzero & _).
  - split; reflexivity.
  - intros i cid sec. eexists. repeat split.
  - intros i token params. reflexivity.
  - simpl. tauto.
  - reflexivity.
  - destruct (Hzero eq_refl) as (Hretries & _). exact Hretries.
Defined.

(** X17.  The plain case: with a valid token cached and the vendor answering
    code 0, [send] makes exactly one network call, the post of the envelope
    with the cached token, resets the retry counter and returns a success
    whose [messageId] is the vendor's [msgid] when there is one and
    [wecom-] followed by the clock reading otherwise. *)
Theorem send_success_with_cached_token
        (env : Env) (config : WeComConfig) (depth : nat)
        (message : ChannelMessage) (w : World) (t : WeComAccessToken)
        (response : ApiJson) :
  accessToken w = Some t ->
  date_now env (nowReads w) < tok_expires_at t ->
  let request :=
    ReqSendMessage (tok_access_token t) (Sender.toWeComMessage config message) in
  fetch_reply env (length (fetchLog w)) request = FetchJson response ->
  errcode response = 0 ->
  let r := run env (Sender.send config depth message) w in
  exists result,
    fst r = Returned result
    /\ success result = true
    /\ messageId result
       = (if Js.truthyOpt (data_msgid response)
          then Js.orElse (data_msgid response) ""
          else "wecom-" ++ Js.numToString (date_now env (S (nowReads w))))
    /\ fetchLog (snd r) = (fetchLog w ++ [request])%list
    /\ retryCount (snd r) = 0%nat.
Proof.
  intros Htok Hvalid request Hreply Hzero r.
  pose proof (getAccessToken_reuses_valid_token_run env config depth w t Htok
                Hvalid) as Hget.
  unfold r, Sender.send. rewrite run_sendFuel.
  unfold ApiClient.sendMessage. rewrite run_bind, Hget. cbn [andThen].
  rewrite run_request. fold request. cbn [tickNow fetchLog].
  rewrite Hreply, Hzero. cbn [Z.eqb orb]. rewrite Hzero. cbn [Z.eqb].
  unfold Sender.sendSucceeded.
  destruct (Js.truthyOpt (data_msgid response)); cbn;
    eexists; repeat split.
Qed.

Lemma send_success_with_cached_token_witness :
  exists result,
    fst (run (vendorAnswering 0 "ok") (Sender.send sampleConfig 0 sampleMessage)
             worldWithToken) = Returned result
    /\ success result = true
    /\ messageId result = "wecom-1000".
Proof.
  destruct (send_success_with_cached_token
              (vendorAnswering 0 "ok") sampleConfig 0 sampleMessage
              worldWithToken (mkToken "CACHED" 7200 100000)
              (mkJson 0 "ok" None 0 None))
    as (result & Hret & Hok & Hid & _).
  - reflexivity.
  - reflexivity.
  - reflexivity.
  - reflexivity.
  - exists result. repeat split; assumption.
Defined.

(** ** The other entry points of the sender *)

(** X18.  [sendCard] has no retry and no part in the retry counter: whatever
    happens, the counter and the timers are as before the call (a success
    does not reset the counter either).  A vendor error, a retryable one
    included, is thrown at once as a [WeComSendError] with the vendor's code
    and message and the card's title as the text of the original message; an
    error of the client is thrown as it is, not wrapped.  The card's envelope
    sets exactly one recipient field. *)
Theorem sendCard_never_retries
        (env : Env) (config : WeComConfig) (depth : nat) (to : ChannelPeer)
        (title description url : string) (btntxt : option string) (w : World) :
  let envelope := SenderOps.cardEnvelope config to title description url btntxt in
  let sent := run env (ApiClient.sendMessage config depth envelope) w in
  let r := run env (SenderOps.sendCard config depth to title description url
                                       btntxt) w in
  recipientsSet envelope = 1%nat
  /\ retryCount (snd r) = retryCount w
  /\ retries (snd r) = retries w
  /\ (forall response,
        fst sent = Returned response -> errcode response <> 0 ->
        exists original,
          fst r = Thrown (Sender.newWeComSendError (errmsg response)
                            (errcode response) original)
          /\ msg_peer original = to /\ msg_text original = Some title
          /\ fetchLog (snd r) = fetchLog (snd sent))
  /\ (forall e, fst sent = Thrown e -> r = (Thrown e, snd sent)).
Proof.
  intros envelope sent r.
  pose proof (sendMessage_frame env config depth envelope w) as Hframe.
  cbv zeta in Hframe. fold sent in Hframe. destruct Hframe as (Hrc & Hsl & _).
  assert (Hr : r = andThen sent
                     (fun response w1 =>
                        run env
                          (if errcode response =? 0 then
                             messageId <-
                               (if Js.truthyOpt (data_msgid response)
                                then Return (Js.orElse (data_msgid response) "")
                                else now <- dateNow ;;
                                     Return ("card-" ++ Js.numToString now)) ;;
                             now <- dateNow ;;
                             Return (mkResult true messageId now None)
                           else
                             timestamp <- dateNow ;;
                             idNow <- dateNow ;;
                             Throw (Sender.newWeComSendError
                                      (errmsg response) (errcode response)
                                      (mkMessage to (Some title) None None None
                                         timestamp
                                         ("temp-" ++ Js.numToString idNow)
                                         "wecom" (SenderOps.accountId config)
                                         None None None))) w1)).
  { unfold r, SenderOps.sendCard. rewrite run_bind. reflexivity. }
  split.
  { unfold envelope, SenderOps.cardEnvelope, Builders.buildCardMessage,
      recipientsSet. destruct (peer_kind to); reflexivity. }
  rewrite Hr. destruct sent as [[response|e|] w1]; cbn [andThen fst snd] in *.
  - destruct (errcode response =? 0) eqn:Hzero.
    + assert (Hrun : exists result,
                 run env
                   (messageId <-
                      (if Js.truthyOpt (data_msgid response)
                       then Return (Js.orElse (data_msgid response) "")
                       else now <- dateNow ;;
                            Return ("card-" ++ Js.numToString now)) ;;
                    now <- dateNow ;;
                    Return (mkResult true messageId now None)) w1
                 = (Returned result,
                    if Js.truthyOpt (data_msgid response)
                    then tickNow w1 else tickNow (tickNow w1))).
      { destruct (Js.truthyOpt (data_msgid response)); cbn; eexists;
          reflexivity. }
      destruct Hrun as (result & Hrun). rewrite Hrun. cbn [fst snd].
      assert (Hsame : retryCount (if Js.truthyOpt (data_msgid response)
                                  then tickNow w1 else tickNow (tickNow w1))
                      = retryCount w1
                      /\ sleepLog (if Js.truthyOpt (data_msgid response)
                                   then tickNow w1 else tickNow (tickNow w1))
                         = sleepLog w1).
      { destruct (Js.truthyOpt (data_msgid response)); split; reflexivity. }
      destruct Hsame as (H1 & H2). unfold retries. rewrite H1, H2, Hrc, Hsl.
      split; [reflexivity|]. split; [reflexivity|]. split.
      * intros response' Heq Hne. inversion Heq; subst response'.
        apply Z.eqb_eq in Hzero. contradiction.
      * intros e He. discriminate He.
    + cbn. unfold retries. cbn. rewrite Hrc, Hsl.
      split; [reflexivity|]. split; [reflexivity|]. split.
      * intros response' Heq Hne. inversion Heq; subst response'.
        eexists. repeat split.
      * intros e He. discriminate He.
  - unfold retries. rewrite Hrc, Hsl.
    split; [reflexivity|]. split; [reflexivity|]. split.
    + intros response' Heq. discriminate Heq.
    + intros e' He. inversion He. reflexivity.
  - unfold retries. rewrite Hrc, Hsl.
    split; [reflexivity|]. split; [reflexivity|]. split.
    + intros response' Heq. discriminate Heq.
    + intros e' He. discriminate He.
Qed.

Lemma sendCard_never_retries_witness :
  exists original,
    fst (run (vendorAnswering 45009 "api freq out of limit")
             (SenderOps.sendCard sampleConfig 0 samplePeer "Done" "All done"
                                 "https://example.invalid/1" None)
             worldWithToken)
    = Thrown (Sender.newWeComSendError "api freq out of limit" 45009 original)
    /\ msg_text original = Some "Done".
Proof.
  destruct (sendCard_never_retries
              (vendorAnswering 45009 "api freq out of limit") sampleConfig 0
              samplePeer "Done" "All done" "https://example.invalid/1" None
              worldWithToken) as (_ & _ & _ & Herror & _).
  destruct (Herror (mkJson 45009 "api freq out of limit" None 0 None))
    as (original & Hthrown & _ & Htext & _).
  - reflexivity.
  - discriminate.
  - exists original. split; assumption.
Defined.

Lemma orElse_some_empty (text : string) : Js.orElse (Some text) "" = text.
Proof.
  unfold Js.orElse, Js.truthy.
  destruct (String.eqb_spec text ""); [subst; reflexivity|reflexivity].
Qed.

(** X19.  [sendToDepartment] addresses the department alone: for a
    department id that is a safe integer, every post it makes, the retries
    included, carries the decimal department id as [toparty], no [touser]
    and no [totag], the kind [text] and the text with the configured prefix
    in front. *)
Theorem sendToDepartment_addresses_department
        (env : Env) (config : WeComConfig) (depth : nat) (departmentId : Z)
        (text : string) (w : World) :
  Z.abs departmentId <= maxSafeInteger ->
  exists new,
    fetchLog (snd (run env (SenderOps.sendToDepartment config depth departmentId
                                                       text) w))
    = (fetchLog w ++ new)%list
    /\ Forall (fun r =>
                 match r with
                 | ReqGetToken _ _ => True
                 | ReqSendMessage _ params =>
                     params
                     = mkParams None (Some (Js.numToString departmentId)) None
                                mt_text
                                (match agentId config with
                                 | Some a => a
                                 | None => 0
                                 end)
                                (Adapter.setContent emptyContent
                                   (Adapter.applyPrefix (messagePrefix config)
                                                        text))
                 end) new.
Proof.
  intros _.
  unfold SenderOps.sendToDepartment. cbn [bind dateNow run].
  set (message := SenderOps.departmentMessage config departmentId text _ _).
  destruct (send_makes_own_requests env config depth message
                                    (tickNow (tickNow w)))
    as (new & Hlog & Hown).
  exists new. split; [exact Hlog|].
  eapply Forall_impl; [|exact Hown].
  intros [cid sec|token params] H; [exact I|].
  cbn in H. rewrite H. unfold Sender.toWeComMessage, Adapter.toWeComMessage.
  unfold message, SenderOps.departmentMessage.
  cbn [msg_peer msg_text msg_media msg_replyTo peer_kind peer_id
       Adapter.applyReply].
  change (if Js.truthy text then text else "") with (Js.orElse (Some text) "").
  rewrite orElse_some_empty. reflexivity.
Qed.

Lemma sendToDepartment_addresses_department_witness :
  exists new,
    fetchLog (snd (run (vendorAnswering 45009 "api freq out of limit")
                       (SenderOps.sendToDepartment sampleConfig 0 42 "standup")
                       worldWithToken))
    = (fetchLog worldWithToken ++ new)%list
    /\ Forall (fun r =>
                 match r with
                 | ReqGetToken _ _ => True
                 | ReqSendMessage _ params =>
                     params
                     = mkParams None (Some "42") None mt_text 1000001
                                (Adapter.setContent emptyContent "[AI] standup")
                 end) new.
Proof.
  apply (sendToDepartment_addresses_department
           (vendorAnswering 45009 "api freq out of limit") sampleConfig 0 42
           "standup" worldWithToken).
  vm_compute. discriminate.
Defined.

(** X28.  [sendText] posts the text with the prefix applied and, for a
    reply, the attribution line in front of it: every post it makes, the
    retries included, is a [text] envelope with one recipient field whose
    content is the prefixed text, preceded for a reply by the line naming the
    sender of the message replied to ([用户] when it has no sender name).
    The text of the message replied to is not quoted. *)
Theorem sendText_posts_attribution_then_prefixed_text
        (env : Env) (config : WeComConfig) (depth : nat) (to : ChannelPeer)
        (text : string) (replyTo : option ChannelMessage) (w : World) :
  let body := Adapter.applyPrefix (messagePrefix config) text in
  exists new,
    fetchLog (snd (run env (SenderOps.sendText config depth to text replyTo) w))
    = (fetchLog w ++ new)%list
    /\ Forall (fun r =>
                 match r with
                 | ReqGetToken _ _ => True
                 | ReqSendMessage _ params =>
                     msgtype params = mt_text
                     /\ recipientsSet params = 1%nat
                     /\ c_content (content params)
                        = Some (match replyTo with
                                | Some replied =>
                                    "回复 "
                                    ++ Js.orElse (msg_senderName replied) "用户"
                                    ++ ":" ++ Js.nl ++ body
                                | None => body
                                end)
                 end) new.
Proof.
  intros body. unfold SenderOps.sendText. cbn [bind dateNow run].
  set (message := SenderOps.textMessage config to text replyTo _ _).
  destruct (send_makes_own_requests env config depth message
                                    (tickNow (tickNow w)))
    as (new & Hlog & Hown).
  exists new. split; [exact Hlog|].
  eapply Forall_impl; [|exact Hown].
  intros [cid sec|token params] H; [exact I|].
  cbn in H. rewrite H. unfold Sender.toWeComMessage, Adapter.toWeComMessage.
  unfold message, SenderOps.textMessage.
  cbn [msg_peer msg_text msg_media msg_replyTo].
  change (if Js.truthy text then text else "") with (Js.orElse (Some text) "").
  rewrite orElse_some_empty. fold body.
  split; [reflexivity|]. split.
  - unfold recipientsSet. destruct (peer_kind to); reflexivity.
  - destruct replyTo as [replied|]; reflexivity.
Qed.

(** X30.  The tables of the sender's error agree with the retry rule: every
    code that [isRecoverable] accepts is a code that [send] retries, every
    code that [send] retries has a description of its own in
    [getDescription], and [getDescription] never returns an empty text (a
    code outside the table gets the text for unknown errors). *)
Theorem retried_codes_are_described (errorCode : Z) :
  (Sender.isRecoverable errorCode = true -> In errorCode Sender.retryableErrors)
  /\ (In errorCode Sender.retryableErrors ->
      Sender.getDescription errorCode <> "未知错误")
  /\ Sender.getDescription errorCode <> ""
  /\ (~ In errorCode (map fst Sender.errorDescriptions) ->
      Sender.getDescription errorCode = "未知错误").
Proof.
  split; [|split; [|split]].
  - unfold Sender.isRecoverable. intros H. apply existsb_exists in H.
    destruct H as (x & Hin & Heq). apply Z.eqb_eq in Heq. subst x.
    cbn in Hin |- *. tauto.
  - intros Hin. cbn in Hin.
    destruct Hin as [H|[H|[H|[H|[H|[]]]]]]; subst errorCode;
      vm_compute; discriminate.
  - unfold Sender.getDescription, Sender.errorDescriptions. cbn [find fst].
    repeat match goal with
           | |- context [if ?b then _ else _] => destruct b
           end; discriminate.
  - intros Hnotin. unfold Sender.getDescription.
    destruct (find (fun entry => fst entry =? errorCode)
                   Sender.errorDescriptions) as [[code description]|] eqn:Hfind;
      [|reflexivity].
    exfalso. apply Hnotin. apply find_some in Hfind.
    destruct Hfind as (Hin & Heq). cbn [fst] in Heq. apply Z.eqb_eq in Heq.
    subst code. apply in_map_iff. exists (errorCode, description).
    split; [reflexivity|exact Hin].
Qed.

Lemma retried_codes_are_described_witness :
  In 45033 Sender.retryableErrors
  /\ Sender.getDescription 45033 <> "未知错误".
Proof.
  destruct (retried_codes_are_described 45033) as (Hretried & Hdescribed & _).
  split; [apply Hretried; reflexivity|].
  apply Hdescribed. apply Hretried. reflexivity.
Defined.

(** ** The channel plugin *)

Lemma run_log_grows {A : Type} (env : Env) (p : Prog A) :
  forall w, exists new, fetchLog (snd (run env p w)) = (fetchLog w ++ new)%list.
Proof.
  induction p as [a|e| |r k IH|k IH|ms k IH|k IH|t k IH|k IH|n k IH];
    intros w; cbn [run].
  - exists []. cbn. rewrite app_nil_r. reflexivity.
  - exists []. cbn. rewrite app_nil_r. reflexivity.
  - exists []. cbn. rewrite app_nil_r. reflexivity.
  - destruct (IH (fetch_reply env (length (fetchLog w)) r) (logFetch w r))
      as (new & Hnew).
    exists (r :: new). rewrite Hnew. cbn. rewrite <- app_assoc. reflexivity.
  - apply (IH (date_now env (nowReads w)) (tickNow w)).
  - apply (IH (logSleep w ms)).
  - apply (IH (accessToken w) w).
  - apply (IH (setToken w t)).
  - apply (IH (retryCount w) w).
  - apply (IH (setRetryCount w n)).
Qed.

(** X20.  The plugin's [send] never throws, and its result follows what the
    API client's [sendMessage] gave: a response with code 0 comes back as
    [{success: true, messageId}], the id being the vendor's [msgid] when
    there is one; a response with any other code comes back as
    [{success: false, error}] with the vendor's message and code in the
    error text; an error thrown by the client comes back as
    [{success: false, error}] with that error's message.  It makes no
    retry.  As each call creates its own API client, a call with credentials
    configured always starts with a request to the token endpoint: no token
    is reused from one call to the next. *)
Theorem plugin_send_never_throws
        (env : Env) (config : WeComConfig) (depth : nat)
        (message : ChannelMessage) (w : World) :
  let envelope :=
    Adapter.toWeComMessage
      (match agentId config with Some a => a | None => 0 end)
      (messagePrefix config) message in
  let sent := run env (ApiClient.sendMessage config depth envelope)
                  (Channel.newClient w) in
  let r := Channel.send env config depth message w in
  (forall e, fst r <> Thrown e)
  /\ (forall result,
        fst r = Returned result ->
        cs_success result = true
        /\ (exists id, cs_messageId result = Some id) /\ cs_error result = None
        \/ cs_success result = false
           /\ cs_messageId result = None /\ exists m, cs_error result = Some m)
  /\ retries (snd r) = retries w
  /\ (hasCredentials config ->
      exists new,
        fetchLog (snd r) = (fetchLog w ++ tokenRequest config :: new)%list)
  /\ (forall response,
        fst sent = Returned response -> errcode response = 0 ->
        exists id,
          fst r = Returned (mkChannelResult true (Some id) None)
          /\ (forall msgid, data_msgid response = Some msgid -> msgid <> "" ->
                            id = msgid))
  /\ (forall response,
        fst sent = Returned response -> errcode response <> 0 ->
        Z.abs (errcode response) <= maxSafeInteger ->
        r = (Returned (mkChannelResult false None
                         (Some ("发送失败: " ++ errmsg response ++ " ("
                                ++ Js.numToString (errcode response) ++ ")"))),
             snd sent))
  /\ (forall e,
        fst sent = Thrown e ->
        r = (Returned (mkChannelResult false None (Some (exn_message e))),
             snd sent)).
Proof.
  intros envelope sent r.
  pose proof (sendMessage_frame env config depth envelope (Channel.newClient w))
    as Hframe.
  cbv zeta in Hframe. fold sent in Hframe. destruct Hframe as (_ & Hsl & _).
  assert (Hr : r = orCatch
                     (andThen sent
                        (fun response w1 =>
                           run env
                             (if negb (errcode response =? 0) then
                                Throw (JsError "Error"
                                         ("发送失败: " ++ errmsg response ++ " ("
                                          ++ Js.numToString (errcode response)
                                          ++ ")"))
                              else
                                messageId <-
                                  (if Js.truthyOpt (data_msgid response)
                                   then Return (Js.orElse (data_msgid response)
                                                          "")
                                   else now <- dateNow ;;
                                        Return ("wecom-" ++ Js.numToString now)) ;;
                                Return (mkChannelResult true (Some messageId)
                                                        None)) w1))
                     (fun e w' =>
                        (Returned (mkChannelResult false None
                                                   (Some (exn_message e))), w'))).
  { unfold r, Channel.send, Channel.sendProg.
    rewrite run_tryCatch, run_bind. reflexivity. }
  split; [|split; [|split; [|split; [|split; [|split]]]]].
  - intros e. rewrite Hr.
    destruct sent as [[response|e'|] w1];
      cbn [andThen orCatch fst]; try discriminate.
    destruct (errcode response =? 0); cbn; [|discriminate].
    destruct (Js.truthyOpt (data_msgid response)); discriminate.
  - intros result. rewrite Hr.
    destruct sent as [[response|e'|] w1];
      cbn [andThen orCatch fst]; try discriminate.
    + destruct (errcode response =? 0); cbn.
      * destruct (Js.truthyOpt (data_msgid response)); cbn;
          intros H; inversion H; left; cbn; repeat split; eexists; reflexivity.
      * intros H; inversion H. right. cbn. repeat split. eexists. reflexivity.
    + intros H; inversion H. right. cbn. repeat split. eexists. reflexivity.
  - rewrite Hr. unfold retries.
    destruct sent as [[response|e'|] w1];
      cbn [andThen orCatch fst snd] in *; try (rewrite Hsl; reflexivity).
    destruct (errcode response =? 0); cbn; [|rewrite Hsl; reflexivity].
    destruct (Js.truthyOpt (data_msgid response)); cbn; rewrite Hsl; reflexivity.
  - intros (Hid & Hsecret).
    assert (Hsync : exists k,
               Loop.runSync env (Channel.sendProg config depth message)
                            (Channel.newClient w)
               = (Loop.AwaitFetch (tokenRequest config) k,
                  logFetch (Channel.newClient w) (tokenRequest config))).
    { unfold Channel.sendProg, ApiClient.sendMessage, ApiClient.getAccessToken.
      cbn [bind tryCatch readToken Loop.runSync Channel.newClient accessToken].
      rewrite refreshAccessToken_unfold. unfold ApiClient.refreshBody.
      rewrite Hid, Hsecret. cbn. eexists. reflexivity. }
    destruct Hsync as (k & Hsync).
    unfold r, Channel.send. rewrite run_runSync, Hsync.
    destruct (run_log_grows env
                (k (fetch_reply env
                      (pred (length (fetchLog (logFetch (Channel.newClient w)
                                                        (tokenRequest config)))))
                      (tokenRequest config)))
                (logFetch (Channel.newClient w) (tokenRequest config)))
      as (new & Hnew).
    exists new. rewrite Hnew. cbn. rewrite <- app_assoc. reflexivity.
  - intros response Hsent Hzero. rewrite Hr.
    destruct sent as [[response'|e'|] w1]; cbn [fst] in Hsent;
      inversion Hsent; subst response'.
    cbn [andThen orCatch]. rewrite Hzero. cbn [Z.eqb negb].
    destruct (data_msgid response) as [msgid|] eqn:Hmsgid;
      cbn [Js.truthyOpt Js.orElse].
    + destruct (Js.truthy msgid) eqn:Htruthy; cbn; eexists;
        (split; [reflexivity|]); intros msgid' Heq Hne;
        inversion Heq; subst msgid'; [reflexivity|].
      unfold Js.truthy in Htruthy. apply negb_false_iff in Htruthy.
      apply String.eqb_eq in Htruthy. contradiction.
    + cbn. eexists. split; [reflexivity|]. intros msgid' Heq. discriminate Heq.
  - intros response Hsent Hcode _. rewrite Hr.
    destruct sent as [[response'|e'|] w1]; cbn [fst] in Hsent;
      inversion Hsent; subst response'.
    cbn [andThen orCatch snd]. apply Z.eqb_neq in Hcode. rewrite Hcode.
    reflexivity.
  - intros e Hsent. rewrite Hr.
    destruct sent as [[response'|e'|] w1]; cbn [fst] in Hsent;
      inversion Hsent; subst e'.
    reflexivity.
Qed.

Lemma plugin_send_never_throws_witness :
  Channel.send (vendorAnswering 60111 "userid not found") sampleConfig 0
               sampleMessage worldWithToken
  = (Returned (mkChannelResult false None
                               (Some "发送失败: userid not found (60111)")),
     snd (run (vendorAnswering 60111 "userid not found")
              (ApiClient.sendMessage sampleConfig 0
                 (Sender.toWeComMessage sampleConfig sampleMessage))
              (Channel.newClient worldWithToken))).
Proof.
  destruct (plugin_send_never_throws
              (vendorAnswering 60111 "userid not found") sampleConfig 0
              sampleMessage worldWithToken)
    as (_ & _ & _ & _ & _ & Herror & _).
  apply (Herror (mkJson 60111 "userid not found" None 0 None)).
  - reflexivity.
  - discriminate.
  - vm_compute. discriminate.
Defined.

(** X21.  [checkPermission] refuses in one case only: the allow list has
    neither ["*"] nor the peer's id, the policy is [pairing] and the peer is
    a group.  Under [pairing] every direct peer is let in, listed or not. *)
Theorem checkPermission_refuses_only_unlisted_groups_under_pairing
        (peer : ChannelPeer) (dmPolicy : DmPolicy) (allowFrom : list string) :
  Channel.checkPermission peer dmPolicy allowFrom = false
  <-> ~ In "*" allowFrom /\ ~ In (peer_id peer) allowFrom
      /\ dmPolicy = pairing /\ peer_kind peer = group.
Proof.
  assert (Hin : forall x, existsb (String.eqb x) allowFrom = true
                          <-> In x allowFrom).
  { intros x. rewrite existsb_exists. split.
    - intros (y & Hy & Heq). apply String.eqb_eq in Heq. subst y. exact Hy.
    - intros Hx. exists x. split; [exact Hx|apply String.eqb_refl]. }
  unfold Channel.checkPermission.
  destruct (existsb (String.eqb "*") allowFrom) eqn:Hstar.
  { split; [discriminate|]. intros (Hno & _). apply Hin in Hstar. contradiction. }
  destruct (existsb (String.eqb (peer_id peer)) allowFrom) eqn:Hlisted.
  { split; [discriminate|]. intros (_ & Hno & _). apply Hin in Hlisted.
    contradiction. }
  assert (Hnostar : ~ In "*" allowFrom).
  { intros H. apply Hin in H. congruence. }
  assert (Hnolisted : ~ In (peer_id peer) allowFrom).
  { intros H. apply Hin in H. congruence. }
  destruct dmPolicy, (peer_kind peer); split; intros H;
    try discriminate; try (repeat split; assumption);
    destruct H as (_ & _ & Hp & Hk); discriminate.
Qed.

(** ** Configuration validation *)

(** X22.  [validateWeComConfig] reports nothing for a config that is not
    enabled, whatever else it holds.  For an enabled config it reports
    nothing exactly when one of the two modes is configured and not the
    other, and, for the API mode, [corpId] and [corpSecret] are not blank and
    [agentId] is positive, and, for the webhook mode, the URL starts with
    [http].  With both modes configured the mixed-mode error is reported,
    with neither the missing-mode error alone. *)
Theorem validateWeComConfig_accepts
        (trim : string -> string) (enabled : option bool) (config : WeComConfig) :
  let errors := ConfigSchema.validateWeComConfig trim enabled config in
  let api := ConfigSchema.hasApiConfig config in
  let webhook := ConfigSchema.hasWebhookConfig config in
  (enabled <> Some true -> errors = [])
  /\ (enabled = Some true ->
      (errors = []
       <-> xorb api webhook = true
           /\ (api = true ->
               ConfigSchema.blank trim (corpId config) = false
               /\ ConfigSchema.blank trim (corpSecret config) = false
               /\ exists a, agentId config = Some a /\ 0 < a)
           /\ (webhook = true ->
               Js.startsWith (Js.orElse (webhookUrl config) "") "http" = true))
      /\ (api = true -> webhook = true ->
          In ConfigSchema.errBothModes errors)
      /\ (api = false -> webhook = false ->
          errors = [ConfigSchema.errNoMode])).
Proof.
  intros errors api webhook. unfold errors, ConfigSchema.validateWeComConfig.
  split.
  { intros Hoff. destruct enabled as [[|]|]; congruence. }
  intros Hon. rewrite Hon. fold api webhook.
  destruct api eqn:Hapi, webhook eqn:Hwebhook; cbn [negb andb orb xorb app].
  - (* both modes *)
    split; [|split].
    + split; [discriminate|]. intros (Hx & _). discriminate Hx.
    + intros _ _. left. reflexivity.
    + discriminate.
  - (* the API mode alone *)
    unfold ConfigSchema.hasApiConfig in Hapi.
    apply andb_true_iff in Hapi. destruct Hapi as (_ & Hagent).
    rewrite Hagent. cbn [negb orb].
    destruct (agentId config) as [a|] eqn:Ha; [|discriminate Hagent].
    split; [|split; discriminate].
    destruct (ConfigSchema.blank trim (corpId config)); [split;
      [discriminate|intros (_ & H & _); destruct (H eq_refl); discriminate]|].
    destruct (ConfigSchema.blank trim (corpSecret config)); [split;
      [discriminate
      |intros (_ & H & _); destruct (H eq_refl) as (_ & H' & _); discriminate]|].
    destruct (Z.leb_spec a 0) as [Hle|Hgt]; cbn [app].
    + split; [discriminate|].
      intros (_ & H & _). destruct (H eq_refl) as (_ & _ & a' & Ha' & Hpos).
      inversion Ha'. lia.
    + split; [|reflexivity]. intros _.
      split; [reflexivity|]. split; [|discriminate].
      intros _. repeat split. exists a. split; [reflexivity|exact Hgt].
  - (* the webhook mode alone *)
    split; [|split; discriminate].
    destruct (Js.startsWith (Js.orElse (webhookUrl config) "") "http");
      cbn [negb app].
    + split; [|reflexivity]. intros _. split; [reflexivity|].
      split; [discriminate|reflexivity].
    + split; [discriminate|]. intros (_ & _ & H). discriminate (H eq_refl).
  - (* no mode *)
    split; [|split].
    + split; [discriminate|]. intros (Hx & _). discriminate Hx.
    + discriminate.
    + reflexivity.
Qed.

Lemma validateWeComConfig_accepts_witness :
  ConfigSchema.validateWeComConfig (fun s => s) (Some false)
    (mkConfig (Some "ww1") (Some "s") (Some (-1)) (Some "not-a-url") None None
              None)
  = [].
Proof.
  apply (proj1 (validateWeComConfig_accepts
                  (fun s => s) (Some false)
                  (mkConfig (Some "ww1") (Some "s") (Some (-1))
                            (Some "not-a-url") None None None))).
  discriminate.
Defined.

(** ** The account manager *)

Section AccountProperties.

Variable Metadata : Type.

Local Abbreviation AccountInfo := (Accounts.AccountInfo Metadata).
Local Abbreviation AccountMap := (Accounts.AccountMap Metadata).
Local Abbreviation mapGet := (Accounts.mapGet Metadata).
Local Abbreviation mapSet := (Accounts.mapSet Metadata).
Local Abbreviation mapDelete := (Accounts.mapDelete Metadata).
Local Abbreviation acc_id := (Accounts.acc_id Metadata).
Local Abbreviation acc_lastActive := (Accounts.acc_lastActive Metadata).

Lemma mapGet_mapSet_same (m : AccountMap) (u : string) (a : AccountInfo) :
  mapGet (mapSet m u a) u = Some a.
Proof.
  induction m as [|[k v] m IH]; simpl.
  - rewrite String.eqb_refl. reflexivity.
  - destruct (String.eqb_spec k u) as [Heq|Hne]; simpl.
    + subst k. rewrite String.eqb_refl. reflexivity.
    + destruct (String.eqb_spec k u); [contradiction|exact IH].
Qed.

Lemma mapGet_mapSet_other (m : AccountMap) (u v : string) (a : AccountInfo) :
  v <> u -> mapGet (mapSet m u a) v = mapGet m v.
Proof.
  intros Hne. induction m as [|[k x] m IH]; simpl.
  - destruct (String.eqb_spec u v); [congruence|reflexivity].
  - destruct (String.eqb_spec k u) as [Heq|Hku]; simpl.
    + subst k. destruct (String.eqb_spec u v); [congruence|reflexivity].
    + destruct (String.eqb_spec k v); [reflexivity|exact IH].
Qed.

Lemma mapGet_none_notin (m : AccountMap) (u : string) :
  mapGet m u = None <-> ~ In u (map fst m).
Proof.
  induction m as [|[k v] m IH]; simpl.
  - tauto.
  - destruct (String.eqb_spec k u) as [Heq|Hne].
    + split; [discriminate|]. intros H. exfalso. apply H. left. exact Heq.
    + rewrite IH. tauto.
Qed.

Lemma mapSet_keys (m : AccountMap) (u : string) (a : AccountInfo) :
  map fst (mapSet m u a)
  = if existsb (String.eqb u) (map fst m) then map fst m
    else (map fst m ++ [u])%list.
Proof.
  induction m as [|[k v] m IH]; simpl; [reflexivity|].
  rewrite (String.eqb_sym u k).
  destruct (String.eqb_spec k u) as [Heq|Hne]; simpl; [reflexivity|].
  rewrite IH. destruct (existsb (String.eqb u) (map fst m)); reflexivity.
Qed.

Lemma mapSet_fresh (m : AccountMap) (u : string) (a : AccountInfo) :
  ~ In u (map fst m) -> mapSet m u a = (m ++ [(u, a)])%list.
Proof.
  induction m as [|[k v] m IH]; simpl; intros Hnotin; [reflexivity|].
  destruct (String.eqb_spec k u) as [Heq|Hne]; [tauto|].
  rewrite IH by tauto. reflexivity.
Qed.

Lemma updateAccount_changes_one_entry_found
      (accounts : AccountMap) (userId : string)
      (updates : Accounts.AccountUpdates Metadata) (now : Z) :
  Accounts.getAccount Metadata
    (Accounts.updateAccount Metadata accounts userId updates now) userId
  = Some (match Accounts.getAccount Metadata accounts userId with
          | Some existing => Accounts.spread Metadata existing updates
          | None => Accounts.created Metadata userId updates now
          end).
Proof.
  unfold Accounts.updateAccount, Accounts.getAccount.
  destruct (mapGet accounts userId); apply mapGet_mapSet_same.
Qed.

(** X23.  [updateAccount] changes the entry of that user alone.  Afterwards
    [getAccount] finds the user: for a known user the old account with the
    given properties laid over it, [lastActive] not refreshed; for a new
    user an account whose name falls back to the user id, whose department
    falls back to the empty string and whose [lastActive] is the time of the
    call, whatever the updates say.  Every other user is found as before. *)
Theorem updateAccount_changes_one_entry
        (accounts : AccountMap) (userId : string)
        (updates : Accounts.AccountUpdates Metadata) (now : Z) :
  let after := Accounts.updateAccount Metadata accounts userId updates now in
  Accounts.getAccount Metadata after userId
  = Some (match Accounts.getAccount Metadata accounts userId with
          | Some existing => Accounts.spread Metadata existing updates
          | None => Accounts.created Metadata userId updates now
          end)
  /\ (forall other, other <> userId ->
                    Accounts.getAccount Metadata after other
                    = Accounts.getAccount Metadata accounts other)
  /\ (Accounts.getAccount Metadata accounts userId = None ->
      exists a,
        Accounts.getAccount Metadata after userId = Some a
        /\ acc_lastActive a = now
        /\ (Accounts.upd_name Metadata updates = None ->
            Accounts.acc_name Metadata a = userId)
        /\ (Accounts.upd_department Metadata updates = None ->
            Accounts.acc_department Metadata a = "")).
Proof.
  cbv zeta. unfold Accounts.updateAccount, Accounts.getAccount.
  destruct (mapGet accounts userId) as [existing|] eqn:Hget.
  - rewrite mapGet_mapSet_same. split; [reflexivity|].
    split; [|discriminate].
    intros other Hother. apply mapGet_mapSet_other. exact Hother.
  - rewrite mapGet_mapSet_same. split; [reflexivity|]. split.
    + intros other Hother. apply mapGet_mapSet_other. exact Hother.
    + intros _. eexists. split; [reflexivity|]. cbn.
      split; [reflexivity|]. split; intros Hnone; rewrite Hnone; reflexivity.
Qed.

Lemma mapDelete_filter (m : AccountMap) (u : string) :
  NoDup (map fst m) ->
  mapDelete m u = filter (fun entry => negb (fst entry =? u)%string) m.
Proof.
  induction m as [|[k v] m IH]; simpl; intros Hnodup; [reflexivity|].
  inversion Hnodup as [|k' keys Hnotin Hrest]; subst.
  destruct (String.eqb_spec k u) as [Heq|Hne]; simpl.
  - subst k. symmetry. apply forallb_filter_id.
    apply forallb_forall. intros [k' v'] Hin. simpl.
    destruct (String.eqb_spec k' u) as [Heq|]; [|reflexivity].
    subst k'. exfalso. apply Hnotin. apply in_map_iff.
    exists (u, v'). split; [reflexivity|exact Hin].
  - rewrite (IH Hrest). reflexivity.
Qed.

Lemma filter_keys_NoDup (f : string * AccountInfo -> bool) (m : AccountMap) :
  NoDup (map fst m) -> NoDup (map fst (filter f m)).
Proof.
  induction m as [|[k v] m IH]; simpl; intros Hnodup; [constructor|].
  inversion Hnodup as [|k' keys Hnotin Hrest]; subst.
  destruct (f (k, v)); simpl; [|exact (IH Hrest)].
  constructor; [|exact (IH Hrest)].
  intros Hin. apply Hnotin. apply in_map_iff in Hin.
  destruct Hin as (e & He & Hin). apply filter_In in Hin.
  apply in_map_iff. exists e. tauto.
Qed.

Lemma deleteAll_filter (keys : list string) :
  forall m : AccountMap,
    NoDup (map fst m) ->
    fold_left mapDelete keys m
    = filter (fun entry => negb (existsb (String.eqb (fst entry)) keys)) m.
Proof.
  induction keys as [|u keys IH]; intros m Hnodup; cbn [fold_left existsb].
  - symmetry. apply forallb_filter_id.
    apply forallb_forall. reflexivity.
  - rewrite (mapDelete_filter m u Hnodup).
    rewrite IH by (apply filter_keys_NoDup; exact Hnodup).
    clear IH. induction m as [|[k v] m IHm]; simpl; [reflexivity|].
    inversion Hnodup as [|k' ks Hnotin Hrest]; subst.
    destruct (k =? u)%string; simpl.
    + exact (IHm Hrest).
    + destruct (existsb (String.eqb k) keys); simpl;
        [exact (IHm Hrest)|rewrite (IHm Hrest); reflexivity].
Qed.

Lemma mapGet_filter (f : AccountInfo -> bool) (m : AccountMap) (u : string) :
  NoDup (map fst m) ->
  mapGet (filter (fun entry => f (snd entry)) m) u
  = match mapGet m u with
    | Some a => if f a then Some a else None
    | None => None
    end.
Proof.
  induction m as [|[k v] m IH]; simpl; intros Hnodup; [reflexivity|].
  inversion Hnodup as [|k' ks Hnotin Hrest]; subst.
  specialize (IH Hrest).
  destruct (String.eqb_spec k u) as [Heq|Hne].
  - subst k. destruct (f v); simpl.
    + rewrite String.eqb_refl. reflexivity.
    + rewrite IH. apply mapGet_none_notin in Hnotin. rewrite Hnotin.
      reflexivity.
  - destruct (f v); simpl; [|exact IH].
    destruct (String.eqb_spec k u); [contradiction|exact IH].
Qed.

(** X24.  [cleanupInactiveAccounts] removes exactly the accounts whose last
    activity is more than [maxAgeMs] (thirty days when left out) before the
    time of the call: the accounts that stay are the others, in their old
    order, and [getAccount] finds a user afterwards exactly when it found
    the user before with an age within the limit. *)
Theorem cleanup_removes_exactly_the_inactive
        (accounts : AccountMap) (maxAgeMs : option Z) (now : Z) :
  NoDup (map fst accounts) ->
  let maxAge := match maxAgeMs with
                | Some m => m
                | None => 2592000000
                end in
  let after := Accounts.cleanupInactiveAccounts Metadata accounts maxAgeMs now in
  after = filter (fun entry => now - acc_lastActive (snd entry) <=? maxAge)
                 accounts
  /\ forall userId,
       Accounts.getAccount Metadata after userId
       = match Accounts.getAccount Metadata accounts userId with
         | Some a => if now - acc_lastActive a <=? maxAge then Some a else None
         | None => None
         end.
Proof.
  intros Hnodup maxAge after.
  assert (Hafter :
            after = filter (fun entry => now - acc_lastActive (snd entry)
                                         <=? maxAge) accounts).
  { unfold after, Accounts.cleanupInactiveAccounts.
    replace (match maxAgeMs with
             | Some m => m
             | None => 30 * 24 * 60 * 60 * 1000
             end) with maxAge by (destruct maxAgeMs; reflexivity).
    rewrite (deleteAll_filter _ accounts Hnodup).
    apply filter_ext_in. intros [k v] Hin. cbn [fst snd].
    destruct (Z.leb_spec (now - acc_lastActive v) maxAge) as [Hle|Hgt].
    - apply negb_true_iff.
      destruct (existsb (String.eqb k)
                  (map fst (filter (fun entry =>
                                      now - acc_lastActive (snd entry) >? maxAge)
                                   accounts))) eqn:Hex; [|reflexivity].
      exfalso. apply existsb_exists in Hex. destruct Hex as (k' & Hk' & Heq).
      apply String.eqb_eq in Heq. subst k'.
      apply in_map_iff in Hk'. destruct Hk' as ([k2 v2] & Hfst & Hin2).
      cbn in Hfst. subst k2. apply filter_In in Hin2.
      destruct Hin2 as (Hin2 & Hstale). cbn in Hstale.
      assert (v2 = v).
      { clear - Hnodup Hin Hin2. induction accounts as [|[k0 v0] m IH];
          [contradiction|].
        cbn in Hnodup. inversion Hnodup as [|k' ks Hnotin Hrest]; subst.
        destruct Hin as [Heq|Hin], Hin2 as [Heq2|Hin2].
        - congruence.
        - inversion Heq; subst. exfalso. apply Hnotin. apply in_map_iff.
          exists (k, v2). split; [reflexivity|exact Hin2].
        - inversion Heq2; subst. exfalso. apply Hnotin. apply in_map_iff.
          exists (k, v). split; [reflexivity|exact Hin].
        - exact (IH Hrest Hin Hin2). }
      subst v2. apply Z.gtb_lt in Hstale. lia.
    - apply negb_false_iff. apply existsb_exists. exists k.
      split; [|apply String.eqb_refl].
      apply in_map_iff. exists (k, v). split; [reflexivity|].
      apply filter_In. split; [exact Hin|]. cbn. apply Z.gtb_lt. lia. }
  split; [exact Hafter|].
  intros userId. rewrite Hafter. unfold Accounts.getAccount.
  apply (mapGet_filter (fun a => now - acc_lastActive a <=? maxAge)
                       accounts userId Hnodup).
Qed.

Lemma importAccounts_app (m : AccountMap) (l1 l2 : list AccountInfo) :
  Accounts.importAccounts Metadata m (l1 ++ l2)
  = Accounts.importAccounts Metadata (Accounts.importAccounts Metadata m l1) l2.
Proof.
  unfold Accounts.importAccounts. apply fold_left_app.
Qed.

(** X25.  After [importAccounts], [getAccount] finds for an id the last
    imported account that has this id, and for an id that was not imported
    what it found before. *)
Theorem importAccounts_last_wins
        (accounts : AccountMap) (imported : list AccountInfo) (userId : string) :
  Accounts.getAccount Metadata
    (Accounts.importAccounts Metadata accounts imported) userId
  = match find (fun a => (acc_id a =? userId)%string) (rev imported) with
    | Some a => Some a
    | None => Accounts.getAccount Metadata accounts userId
    end.
Proof.
  unfold Accounts.getAccount.
  induction imported as [|a imported IH] using rev_ind.
  - reflexivity.
  - rewrite importAccounts_app, rev_app_distr. cbn [rev app find].
    unfold Accounts.importAccounts at 1. cbn [fold_left].
    destruct (String.eqb_spec (acc_id a) userId) as [Heq|Hne].
    + rewrite Heq. apply mapGet_mapSet_same.
    + rewrite mapGet_mapSet_other by congruence. exact IH.
Qed.

(** X26.  Export and import are inverse on a map in which every key is the
    [id] of its account: importing the exported accounts into an empty
    manager gives the same map, in the same order. *)
Theorem import_of_export (accounts : AccountMap) :
  keyedById accounts ->
  Accounts.importAccounts Metadata []
    (Accounts.exportAccounts Metadata accounts)
  = accounts.
Proof.
  intros (Hkeys & Hnodup).
  assert (Hgen : forall done rest : AccountMap,
             Forall (fun entry => fst entry = acc_id (snd entry)) rest ->
             NoDup (map fst (done ++ rest)) ->
             Accounts.importAccounts Metadata done
               (Accounts.exportAccounts Metadata rest)
             = (done ++ rest)%list).
  { intros done rest. revert done.
    induction rest as [|[k v] rest IH]; intros done Hk Hnd.
    - cbn. rewrite app_nil_r. reflexivity.
    - inversion Hk as [|e l Hkv Hrest]; subst. cbn in Hkv. subst k.
      unfold Accounts.importAccounts, Accounts.exportAccounts in *.
      cbn [map fold_left snd].
      rewrite mapSet_fresh.
      + rewrite IH; [rewrite <- app_assoc; reflexivity|exact Hrest|].
        rewrite <- app_assoc. exact Hnd.
      + rewrite map_app in Hnd. cbn in Hnd.
        apply NoDup_remove_2 in Hnd. intros Hin. apply Hnd.
        apply in_or_app. left. exact Hin. }
  apply (Hgen [] accounts Hkeys Hnodup).
Qed.

Lemma mapGet_in (m : AccountMap) (u : string) (a : AccountInfo) :
  mapGet m u = Some a -> In (u, a) m.
Proof.
  induction m as [|[k v] m IH]; simpl; [discriminate|].
  destruct (String.eqb_spec k u) as [Heq|Hne].
  - intros H. inversion H; subst. left. reflexivity.
  - intros H. right. exact (IH H).
Qed.

Lemma mapSet_keyed (m : AccountMap) (u : string) (a : AccountInfo) :
  u = acc_id a -> keyedById m -> keyedById (mapSet m u a).
Proof.
  intros Hid (Hkeys & Hnodup). split.
  - clear Hnodup. induction m as [|[k v] m IH]; simpl.
    + constructor; [exact Hid|constructor].
    + inversion Hkeys as [|e l Hkv Hrest]; subst e l.
      destruct (String.eqb_spec k u) as [Heq|Hne].
      * constructor; [cbn; congruence|exact Hrest].
      * constructor; [exact Hkv|exact (IH Hrest)].
  - rewrite mapSet_keys.
    destruct (existsb (String.eqb u) (map fst m)) eqn:Hex; [exact Hnodup|].
    apply NoDup_app; [exact Hnodup|repeat constructor; intros []|].
    intros x Hin [Hx|[]]. subst x.
    assert (existsb (String.eqb u) (map fst m) = true); [|congruence].
    apply existsb_exists. exists u. split; [exact Hin|apply String.eqb_refl].
Qed.

(** X27.  The manager keeps its map keyed by account id: [importAccounts]
    and [cleanupInactiveAccounts] keep every key equal to the [id] of its
    account, and so does [updateAccount] when the updates carry no [id].  An
    update that carries another [id] stores, under the user's key, an account
    with that other id. *)
Theorem accounts_stay_keyed_by_id
        (accounts : AccountMap) (imported : list AccountInfo)
        (maxAgeMs : option Z) (now : Z) (userId : string)
        (updates : Accounts.AccountUpdates Metadata) :
  keyedById accounts ->
  keyedById (Accounts.importAccounts Metadata accounts imported)
  /\ keyedById (Accounts.cleanupInactiveAccounts Metadata accounts maxAgeMs now)
  /\ (Accounts.upd_id Metadata updates = None ->
      keyedById (Accounts.updateAccount Metadata accounts userId updates now))
  /\ (forall otherId,
        Accounts.upd_id Metadata updates = Some otherId ->
        exists a,
          Accounts.getAccount Metadata
            (Accounts.updateAccount Metadata accounts userId updates now) userId
          = Some a
          /\ acc_id a = otherId).
Proof.
  intros Hkeyed. split; [|split; [|split]].
  - revert accounts Hkeyed. unfold Accounts.importAccounts.
    induction imported as [|a imported IH]; intros accounts Hkeyed;
      cbn [fold_left]; [exact Hkeyed|].
    apply IH. apply mapSet_keyed; [reflexivity|exact Hkeyed].
  - destruct Hkeyed as (Hkeys & Hnodup).
    unfold Accounts.cleanupInactiveAccounts.
    rewrite (deleteAll_filter _ accounts Hnodup). split.
    + apply Forall_forall. intros e He. apply filter_In in He.
      destruct He as (He & _). revert e He. apply Forall_forall. exact Hkeys.
    + apply filter_keys_NoDup. exact Hnodup.
  - intros Hnoid. unfold Accounts.updateAccount.
    destruct (mapGet accounts userId) as [existing|] eqn:Hget.
    + apply mapSet_keyed; [|exact Hkeyed].
      unfold Accounts.spread. cbn. rewrite Hnoid. cbn.
      apply mapGet_in in Hget. destruct Hkeyed as (Hkeys & _).
      rewrite Forall_forall in Hkeys. exact (Hkeys _ Hget).
    + apply mapSet_keyed; [|exact Hkeyed].
      unfold Accounts.created. cbn. rewrite Hnoid. reflexivity.
  - intros otherId Hother.
    pose proof (updateAccount_changes_one_entry_found accounts userId updates
                  now) as Hfound.
    rewrite Hfound. eexists. split; [reflexivity|].
    destruct (Accounts.getAccount Metadata accounts userId);
      cbn; rewrite Hother; reflexivity.
Qed.

Lemma in_mapGet (m : AccountMap) (u : string) (a : AccountInfo) :
  NoDup (map fst m) -> In (u, a) m -> mapGet m u = Some a.
Proof.
  induction m as [|[k v] m IH]; simpl; intros Hnodup Hin; [contradiction|].
  inversion Hnodup as [|k' ks Hnotin Hrest]; subst.
  destruct Hin as [Heq|Hin].
  - inversion Heq; subst. rewrite String.eqb_refl. reflexivity.
  - destruct (String.eqb_spec k u) as [Hku|_]; [|exact (IH Hrest Hin)].
    subst k. exfalso. apply Hnotin. apply in_map_iff.
    exists (u, a). split; [reflexivity|exact Hin].
Qed.

(** X29.  [getAccountsByDepartment] lists exactly the accounts that
    [getAccount] finds under some user id and whose department is the given
    name (compared as it is, case and blanks included), in the order of the
    map; an account is listed once for each key it is stored under. *)
Theorem getAccountsByDepartment_lists_found_accounts
        (accounts : AccountMap) (departmentName : string) (a : AccountInfo) :
  NoDup (map fst accounts) ->
  (In a (Accounts.getAccountsByDepartment Metadata accounts departmentName)
   <-> exists userId,
         Accounts.getAccount Metadata accounts userId = Some a
         /\ Accounts.acc_department Metadata a = departmentName)
  /\ length (Accounts.getAccountsByDepartment Metadata accounts departmentName)
     = length (filter (fun userId =>
                         match Accounts.getAccount Metadata accounts userId with
                         | Some found =>
                             (Accounts.acc_department Metadata found
                              =? departmentName)%string
                         | None => false
                         end) (map fst accounts)).
Proof.
  intros Hnodup. unfold Accounts.getAccountsByDepartment, Accounts.getAccount.
  split.
  - rewrite in_map_iff. split.
    + intros ([u x] & Hsnd & Hin). cbn in Hsnd. subst x.
      apply filter_In in Hin. destruct Hin as (Hin & Hdept). cbn in Hdept.
      exists u. split; [apply in_mapGet; assumption|].
      apply String.eqb_eq. exact Hdept.
    + intros (u & Hget & Hdept). exists (u, a). split; [reflexivity|].
      apply filter_In. split; [apply mapGet_in; exact Hget|].
      cbn. apply String.eqb_eq. exact Hdept.
  - rewrite length_map.
    induction accounts as [|[k v] m IH]; [reflexivity|].
    cbn [map fst snd filter Accounts.mapGet].
    inversion Hnodup as [|k' ks Hnotin Hrest]; subst.
    rewrite String.eqb_refl.
    assert (Htail : filter (fun userId =>
                              match (if (k =? userId)%string then Some v
                                     else mapGet m userId) with
                              | Some found =>
                                  (Accounts.acc_department Metadata found
                                   =? departmentName)%string
                              | None => false
                              end) (map fst m)
                    = filter (fun userId =>
                                match mapGet m userId with
                                | Some found =>
                                    (Accounts.acc_department Metadata found
                                     =? departmentName)%string
                                | None => false
                                end) (map fst m)).
    { apply filter_ext_in. intros u Hu.
      destruct (String.eqb_spec k u) as [Heq|_]; [|reflexivity].
      subst u. contradiction. }
    destruct (Accounts.acc_department Metadata v =? departmentName)%string;
      cbn [length]; rewrite Htail, (IH Hrest); reflexivity.
Qed.

End AccountProperties.

Lemma updateAccount_changes_one_entry_witness :
  Accounts.getAccount unit
    (Accounts.updateAccount unit [("lisi", sampleAccount "lisi" 5)]
                            "zhangsan" noUpdates 9) "zhangsan"
  = Some (Accounts.mkAccount unit "zhangsan" "zhangsan" "" None None None None
                             9 None).
Proof.
  destruct (updateAccount_changes_one_entry
              unit [("lisi", sampleAccount "lisi" 5)] "zhangsan" noUpdates 9)
    as (Hfound & _).
  exact Hfound.
Defined.

Lemma cleanup_removes_exactly_the_inactive_witness :
  Accounts.cleanupInactiveAccounts unit
    [("a", sampleAccount "a" 0); ("b", sampleAccount "b" 90);
     ("c", sampleAccount "c" 10)] (Some 50) 100
  = [("b", sampleAccount "b" 90)].
Proof.
  destruct (cleanup_removes_exactly_the_inactive
              unit
              [("a", sampleAccount "a" 0); ("b", sampleAccount "b" 90);
               ("c", sampleAccount "c" 10)] (Some 50) 100) as (Hafter & _).
  - repeat constructor; simpl; intuition discriminate.
  - rewrite Hafter. reflexivity.
Defined.

Lemma import_of_export_witness :
  Accounts.importAccounts unit []
    (Accounts.exportAccounts unit
       [("a", sampleAccount "a" 0); ("b", sampleAccount "b" 90)])
  = [("a", sampleAccount "a" 0); ("b", sampleAccount "b" 90)].
Proof.
  apply (import_of_export unit).
  split.
  - repeat constructor.
  - repeat constructor; simpl; intuition discriminate.
Defined.

Lemma accounts_stay_keyed_by_id_witness :
  keyedById (Accounts.importAccounts unit [("a", sampleAccount "a" 0)]
                                     [sampleAccount "b" 1; sampleAccount "a" 2]).
Proof.
  apply (accounts_stay_keyed_by_id
           unit [("a", sampleAccount "a" 0)]
           [sampleAccount "b" 1; sampleAccount "a" 2] None 0 "a" noUpdates).
  split.
  - repeat constructor.
  - repeat constructor; simpl; intuition discriminate.
Defined.

Lemma getAccountsByDepartment_lists_found_accounts_witness :
  In (sampleAccount "b" 90)
     (Accounts.getAccountsByDepartment unit
        [("a", sampleAccount "a" 0); ("b", sampleAccount "b" 90)] "dev").
Proof.
  destruct (getAccountsByDepartment_lists_found_accounts
              unit [("a", sampleAccount "a" 0); ("b", sampleAccount "b" 90)]
              "dev" (sampleAccount "b" 90)) as (Hlisted & _).
  - repeat constructor; simpl; intuition discriminate.
  - apply Hlisted. exists "b". split; reflexivity.
Defined.
